(* ===== verification/_CoqProject ===== *)
-Q . S2P
Prelude.v
JsString.v
JsNumber.v
CodeExtractor.v
Imaging.v
Recognition.v
ProductApi.v
AuditPage.v
BarcodeScanner.v
ScanSession.v
Printing.v
Lookup.v
EditPage.v
ListPages.v
AddPage.v
