(* ===== verification/Prelude.v ===== *)
(** * Verification of issacs-inventory-app

    The repository is a home-inventory web application: an Express
    server ([src/server.js]) over a MySQL table of products, and one
    browser script per page under [src/public/js/] (plus an older
    [src/script.js]).  The pages talk to the server only through the
    JSON routes of server.js; they talk to each other through the
    product code (printed as a QR code or a label, typed, scanned or
    recognised by OCR) and through two [localStorage] keys
    ([productsForPrinting], [auditListForPrinting]).  The development
    models the server's table and routes, every page script that
    changes state or reads a route, and composes them: a page is an
    event handler (or a function of one answer) whose requests are
    answered by the server model.

    ** Files, in dependency order (all under the library root)

    - [Prelude] (this file): the scope [inv_scope], a writer monad [Wr]
      for effect traces, [run_events] (a page driven by a list of
      events) with the invariant lemmas [run_events_invariant(_all)],
      the rendered-table helpers [number_rows]/[find_elem]/[remove_elem]
      (a [tr] element and its [remove()]), the hint databases [inv] and
      [inv_rw], the tactics [invc] and [bool_to_prop], and list lemmas.
    - [JsString]: JavaScript strings as lists of UTF-16 code units and
      the built-ins the scripts use: character classes, [toUpperCase]
      on ASCII, [startsWith], [String(n)] ([decimal], a loop on fuel),
      [padStart], [trim], [includes], the line-break handling of text
      inputs, textareas and multipart form bodies ([strip_newlines],
      [lf_normalize], [crlf]), template literals of [null]
      ([tmpl]), [x || d] ([or_text]), [textContent] ([text_of]), an
      HTML attribute value ([attr_value]) and string order ([str_leb]).
    - [JsNumber]: IEEE-754 binary64 arithmetic and WebIDL
      [unsigned long] conversion, for the crop geometry.
    - [CodeExtractor]: [findProductCode] of scan.js 164-168.
    - [Imaging]: [preprocessImage] and the image of
      [runSingleRecognition] (scan.js 118-151) against a class [OpenCv]
      of the library calls.
    - [Recognition]: [runRecognitionPipeline] and its helpers (scan.js
      133-180) in the writer monad, the OCR engine a Section variable.
    - [ProductApi] (Module [ProductApi]): the products table ([db]: rows
      and the AUTO_INCREMENT counter) and every route of server.js
      (lines 31-159) as [db -> db * response]; [serve] dispatches.
    - [AuditPage]: audit.js, its JavaScript [Map] and its batch request,
      composed with the server ([sys_step]).
    - [BarcodeScanner]: the barcode scanner and the OpenFoodFacts lookup
      of add.js (lines 10-141), every await an event.
    - [ScanSession]: the scan page controller (scan.js 1-116 and the
      awaits of the pipeline) as an event handler with explicit
      interleavings.
    - [Printing]: print-stickers.js (the counter loop and its reference
      [chunks], by well-founded recursion with Equations),
      print-audit.js, and all.js as an event system with the server and
      [localStorage].
    - [Lookup]: find.js, the lookup and submit of script.js and
      details.js against [GET /api/product/:code]; the browser's
      [toUpperCase], URL routing and query string are section
      parameters with one law each.
    - [EditPage]: edit.js: the template read back as the browser's form
      controls do, and the [PUT] run by [update_product].
    - [ListPages]: dashboard.js, warranty.js (with the expiring-soon
      route) and trash.js as an event system with the server.
    - [AddPage]: the add page's form submission (add.js 145-181) on the
      scanner state of [BarcodeScanner], composed with the server.

    ** What the theorems show (claims C1-C40 in PROJECT.json)

    - Refinement: [findProductCode] against a declarative leftmost
      regex match (C1); the recognition pipeline against its two
      strategies (C2); the Find page against the details page of the
      same row (C13).  The event-driven controller of the scan page
      also records exactly the effects of the sequential pipeline
      ([async_pipeline_refines], a lemma of [ScanSession]).
    - Invariants: the table invariant under every route (C4); the
      audit page with the server (C6); the trash table equal to
      [/api/trash] in every interleaving (C7); capture enabled iff both
      engines are ready (C19); no leaked camera stream in serial runs
      (C3); the add page's scanner releases its camera (C9).
    - Round trips: add then look up (C5); [String(n)] is the one
      canonical numeral of [n] (C12); an unchanged edit keeps the row
      (C14); a barcode lookup, the add form and the Find page end to
      end, with the form controls' line-break handling (C15);
      generated codes read back by the scanners (C17).
    - Equivalence and bounds: the sticker counter loop equals blocks of
      32 (C8), at most two engine calls (C10), the crop size in
      binary64 exact up to 8192 pixels (C26).
    - Termination and liveness: every recognition run finishes after
      two answers (C11); the [String(n)] loop returns its result on the
      fuel it is given (C12).
    - Functional behaviour and errors of the routes and pages (C16,
      C18, C20-C25, C27).
    - Findings (C28-C40), each a statement over every state of its
      page, not a single run: the edit page resets unknown categories
      (C28); a sticker sheet printed right after a delete still has the
      product (C29); a QR restart leaks a camera for ever (C30); two
      recognition runs share the snapshot canvas (C31); a frameless
      capture keeps the camera (C32); the QR decode navigates unchecked
      (C33); the OCR tab and a starting QR instance hold two cameras
      (C34); the audit page fetches a code once per decode while its
      lookup is pending (C35) and loses the selection on every answer
      (C36); the add page's Quagga handlers accumulate (C37), closing
      before the camera is granted leaves it on (C38) and detections in
      flight repeat the success path (C39); the inverted image is
      transparent (C40).

    ** Bounds and fuel

    - [decimal] runs its digit loop with fuel [n + 1], more than the
      number of digits of [n]; C12 shows the result is the canonical
      numeral of [n], and [decimal_aux_fuel] that any fuel covering
      the digits gives the same string.
    - The crop geometry is checked by evaluation for frames up to 8192
      pixels per side, which covers the camera resolutions in use.
    - [chunks] is defined by well-founded recursion on the length; the
      recognition pipeline and every page handler are structurally
      recursive or non-recursive, so no other fuel is involved.

    ** Not modelled

    - main.js (the menu toggle; [playSound] is an effect in every
      page model), the HTML of the forms (not in the repository: the
      fields the scripts do not fill are inputs), HTML rendering beyond the values the pages read back, audio and
      timers (recorded as effects), the OCR engine's recognition and
      OpenCV's pixel arithmetic (section variables and class laws),
      URL parsing and Unicode case mapping beyond the laws stated in
      [Lookup], character references in HTML attributes, the XLSX file
      format, the server's clock (the 30-day window is a parameter),
      multer's storage and the server start (I/O). *)

From stdpp Require Export base list decidable strings.
From Stdlib Require Export ZArith Lia Ascii.
From Stdlib Require String.
From Stdlib Require Export Sorting.Sorted.

Declare Scope inv_scope.
Delimit Scope inv_scope with inv.
Open Scope Z_scope.

Create HintDb inv discriminated.
Create Rewrite HintDb inv_rw.

(** ** A writer monad for effect traces

    Page scripts do their work by side effects (status messages,
    sounds, calls to external engines).  A computation of type
    [Wr E A] returns its value together with the effects it performed,
    in order. *)

Definition Wr (E A : Type) : Type := (A * list E)%type.

Definition wret {E A} (a : A) : Wr E A := (a, []).

Definition wbind {E A B} (m : Wr E A) (k : A -> Wr E B) : Wr E B :=
  let '(a, l1) := m in let '(b, l2) := k a in (b, l1 ++ l2).

Definition tell {E} (e : E) : Wr E unit := (tt, [e]).

Notation "'let*' x ':=' m 'in' k" := (wbind m (fun x => k))
  (at level 10, x name, m at level 100, k at level 200) : inv_scope.
Notation "'do*' m 'in' k" := (wbind m (fun _ => k))
  (at level 10, m at level 100, k at level 200) : inv_scope.

Lemma wbind_ret_l {E A B} (a : A) (k : A -> Wr E B) : wbind (wret a) k = k a.
Proof. unfold wbind, wret. destruct (k a). reflexivity. Qed.

Lemma wbind_ret_r {E A} (m : Wr E A) : wbind m wret = m.
Proof. destruct m. unfold wbind, wret. simpl. by rewrite app_nil_r. Qed.

Lemma wbind_assoc {E A B C} (m : Wr E A) (k : A -> Wr E B) (h : B -> Wr E C) :
  wbind (wbind m k) h = wbind m (fun a => wbind (k a) h).
Proof.
  destruct m as [a l1]. unfold wbind. destruct (k a) as [b l2].
  destruct (h b) as [c l3]. by rewrite app_assoc.
Qed.

Lemma wbind_fst {E A B} (m : Wr E A) (k : A -> Wr E B) :
  fst (wbind m k) = fst (k (fst m)).
Proof. destruct m as [a l1]. unfold wbind; simpl. destruct (k a); reflexivity. Qed.

Lemma wbind_snd {E A B} (m : Wr E A) (k : A -> Wr E B) :
  snd (wbind m k) = snd m ++ snd (k (fst m)).
Proof. destruct m as [a l1]. unfold wbind; simpl. destruct (k a); reflexivity. Qed.

#[export] Hint Rewrite @wbind_ret_l @wbind_ret_r @wbind_assoc : inv_rw.

(** ** Event-driven components

    A page is an event handler [h : S -> Ev -> S]; a run is the fold of
    the handler over a list of events.  An invariant preserved by every
    event (under a condition on the state the event arrives in) holds
    along every run that respects the condition. *)

Section Runs.
Context {S Ev : Type}.
Variable h : S -> Ev -> S.

Fixpoint run_events (s : S) (evs : list Ev) : S :=
  match evs with
  | [] => s
  | e :: evs' => run_events (h s e) evs'
  end.

Lemma run_events_app s evs1 evs2 :
  run_events s (evs1 ++ evs2) = run_events (run_events s evs1) evs2.
Proof. revert s. induction evs1; simpl; auto. Qed.

(** [respects ok s evs]: every event of [evs] arrives in a state
    where [ok] allows it. *)
Fixpoint respects (ok : S -> Ev -> Prop) (s : S) (evs : list Ev) : Prop :=
  match evs with
  | [] => True
  | e :: evs' => ok s e /\ respects ok (h s e) evs'
  end.

Lemma run_events_invariant (I : S -> Prop) (ok : S -> Ev -> Prop) :
  (forall s e, I s -> ok s e -> I (h s e)) ->
  forall s evs, I s -> respects ok s evs -> I (run_events s evs).
Proof.
  intros Hpres s evs. revert s.
  induction evs as [|e evs IH]; simpl; intros s Hs Hok; [done|].
  destruct Hok as [Hok1 Hok2]. apply IH; auto.
Qed.

Lemma run_events_invariant_all (I : S -> Prop) :
  (forall s e, I s -> I (h s e)) ->
  forall s evs, I s -> I (run_events s evs).
Proof.
  intros Hpres s evs. revert s.
  induction evs; simpl; auto.
Qed.
End Runs.

(** ** Bounded checks by evaluation

    [check_upto n f] evaluates the boolean test [f] on [0 .. n]; a
    statement about every integer of a range whose check evaluates to
    [true] follows from [check_upto_spec]. *)

Fixpoint check_upto (n : nat) (f : Z -> bool) : bool :=
  match n with
  | O => f 0
  | S k => f (Z.of_nat n) && check_upto k f
  end.

Lemma check_upto_spec n f :
  check_upto n f = true -> forall z, 0 <= z <= Z.of_nat n -> f z = true.
Proof.
  induction n as [|k IH]; simpl; intros H z Hz.
  - by replace z with 0 by lia.
  - apply andb_true_iff in H as [H1 H2].
    destruct (Z.eq_dec z (Z.of_nat (S k))) as [->|Hne]; [done|].
    apply IH; [done | lia].
Qed.

(** ** Shared list lemmas *)

Lemma Forall_imap_intro {A B} (P : B -> Prop) (f : nat -> A -> B) (l : list A) :
  (forall i x, l !! i = Some x -> P (f i x)) -> Forall P (imap f l).
Proof.
  intros Hf. apply Forall_lookup. intros i y Hy.
  apply list_lookup_imap_Some in Hy as (x & Hx & ->). eauto.
Qed.

(** Tables kept in key order: [StronglySorted] is preserved by
    appending a larger element, by filtering, and by maps that keep the
    key. *)
Section SortedTables.
Context {A : Type} (R : A -> A -> Prop).

Lemma StronglySorted_snoc l x :
  StronglySorted R l -> Forall (fun y => R y x) l -> StronglySorted R (l ++ [x]).
Proof.
  induction 1 as [|a l Hl IH Ha]; simpl; intros Hx.
  - repeat constructor.
  - apply Forall_cons in Hx as [Hax Hx]. constructor; [auto|].
    apply Forall_app. split; [done | by constructor].
Qed.

Lemma StronglySorted_filter (P : A -> bool) l :
  StronglySorted R l -> StronglySorted R (List.filter P l).
Proof.
  induction 1 as [|a l Hl IH Ha]; simpl; [constructor|].
  destruct (P a); [|done]. constructor; [done|].
  apply List.Forall_forall. intros y Hy. apply filter_In in Hy as [Hy _].
  by eapply List.Forall_forall in Ha.
Qed.

Lemma StronglySorted_map_key (g : A -> A) l :
  (forall a b, R (g a) (g b) <-> R a b) -> StronglySorted R l -> StronglySorted R (map g l).
Proof.
  intros Hg. induction 1 as [|a l Hl IH Ha]; simpl; constructor; [done|].
  apply Forall_map. eapply Forall_impl; [exact Ha|]. intros b Hb. by apply Hg.
Qed.

Lemma StronglySorted_irrefl_unique l x y :
  (forall a, ~ R a a) -> (forall a b, R a b -> R b a -> False) ->
  StronglySorted R l -> In x l -> In y l -> ~ R x y -> ~ R y x -> x = y.
Proof.
  intros Hirr Hasym. induction 1 as [|a l Hl IH Ha]; [done|].
  rewrite List.Forall_forall in Ha. intros [->|Hx] [->|Hy] Hxy Hyx; auto;
    exfalso; [apply Hxy | apply Hyx]; auto.
Qed.
End SortedTables.

Lemma find_app_none {A} (p : A -> bool) l1 l2 :
  (forall x, In x l1 -> p x = false) -> List.find p (l1 ++ l2) = List.find p l2.
Proof.
  induction l1 as [|x l1 IH]; simpl; intros Hl; [done|].
  rewrite Hl by auto. apply IH. auto.
Qed.

Lemma map_id_on {A} (g : A -> A) l : (forall x, In x l -> g x = x) -> map g l = l.
Proof. induction l as [|x l IH]; simpl; intros H; [done|]. rewrite H, IH; auto. Qed.

Lemma filter_rev {A} (p : A -> bool) l : List.filter p (rev l) = rev (List.filter p l).
Proof.
  induction l as [|x l IH]; simpl; [done|]. rewrite List.filter_app, IH. simpl.
  destruct (p x); simpl; [done|]. by rewrite app_nil_r.
Qed.

Lemma NoDup_map_filter {A B} (f : A -> B) (p : A -> bool) l :
  NoDup (map f l) -> NoDup (map f (List.filter p l)).
Proof.
  induction l as [|x l IH]; simpl; [done|]. rewrite NoDup_cons, list_elem_of_In. intros [Hx Hl].
  destruct (p x); simpl; [|by apply IH]. rewrite NoDup_cons, list_elem_of_In. split; [|by apply IH].
  intros Hin. apply Hx. apply in_map_iff in Hin as (y & Hy & Hin). apply filter_In in Hin as [Hin _].
  apply in_map_iff. by exists y.
Qed.

(** ** Rows of a rendered table

    A table a page builds is a list of [tr] elements, each with an
    element id (fresh at every render) and the row it shows.  A click
    handler keeps its element, and [remove()] acts only while the
    element is in the table. *)
Section DomRows.
Context {A : Type}.

Definition number_rows (start : nat) (l : list A) : list (nat * A) :=
  zip (seq start (length l)) l.

Definition find_elem (e : nat) (rows : list (nat * A)) : option A :=
  snd <$> List.find (fun r => Nat.eqb (fst r) e) rows.

Definition remove_elem (e : nat) (rows : list (nat * A)) : list (nat * A) :=
  List.filter (fun r => negb (Nat.eqb (fst r) e)) rows.

Lemma number_rows_snd start l : map snd (number_rows start l) = l.
Proof. unfold number_rows. revert start. induction l; intros; simpl; f_equal; auto. Qed.

Lemma number_rows_fst start l : map fst (number_rows start l) = seq start (length l).
Proof. unfold number_rows. revert start. induction l; intros; simpl; f_equal; auto. Qed.

Lemma find_elem_In e rows a : find_elem e rows = Some a -> In (e, a) rows.
Proof.
  unfold find_elem. destruct (List.find _ _) as [[e' a']|] eqn:E; [|done]. intros [= <-].
  apply find_some in E as [Hin He]. simpl in He. by apply Nat.eqb_eq in He as ->.
Qed.

Lemma remove_elem_notin e rows : ~ In e (map fst rows) -> remove_elem e rows = rows.
Proof.
  unfold remove_elem. induction rows as [|[e' a'] rows IH]; simpl; intros H; [done|].
  destruct (Nat.eqb_spec e' e); [tauto|]. simpl. rewrite IH; tauto.
Qed.

Lemma remove_elem_absent e rows : find_elem e rows = None -> remove_elem e rows = rows.
Proof.
  intros H. apply remove_elem_notin. rewrite in_map_iff. intros ([e' a] & <- & Hin).
  unfold find_elem in H. destruct (List.find _ _) eqn:E; [done|].
  eapply find_none in E; [|exact Hin]. simpl in E. by rewrite Nat.eqb_refl in E.
Qed.

Lemma filter_id_on {B} (p : B -> bool) l : (forall x, In x l -> p x = true) -> List.filter p l = l.
Proof. induction l as [|x l IH]; simpl; intros H; [done|]. rewrite H, IH; auto. Qed.

Lemma filter_none_on {B} (p : B -> bool) l : (forall x, In x l -> p x = false) -> List.filter p l = [].
Proof. induction l as [|x l IH]; simpl; intros H; [done|]. rewrite H, IH; auto. Qed.

Lemma find_elem_remove_eq e rows : find_elem e (remove_elem e rows) = None.
Proof.
  unfold find_elem, remove_elem. induction rows as [|[e' a'] rows IH]; [done|]. simpl.
  destruct (Nat.eqb_spec e' e); simpl; [done|]. by rewrite (proj2 (Nat.eqb_neq e' e)).
Qed.

Lemma find_elem_remove_ne e e' rows : e' <> e -> find_elem e' (remove_elem e rows) = find_elem e' rows.
Proof.
  intros Hne. unfold find_elem, remove_elem. induction rows as [|[e1 a1] rows IH]; [done|]. simpl.
  destruct (Nat.eqb_spec e1 e) as [->|]; simpl.
  - by rewrite (proj2 (Nat.eqb_neq e e')) by congruence.
  - destruct (Nat.eqb e1 e'); [done|]. exact IH.
Qed.

(** Removing the element of a row is removing the row with its key,
    when elements and keys are unique. *)
Lemma remove_elem_key (k : A -> nat) e rows a :
  NoDup (map fst rows) -> NoDup (map (fun r => k (snd r)) rows) -> find_elem e rows = Some a ->
  map snd (remove_elem e rows) = List.filter (fun b => negb (Nat.eqb (k b) (k a))) (map snd rows).
Proof.
  intros Hf Hk Ha. apply find_elem_In in Ha. revert Hf Hk Ha.
  induction rows as [|[e' b] rows IH]; simpl; intros Hf Hk Ha; [done|].
  apply NoDup_cons in Hf as [Hf1 Hf2], Hk as [Hk1 Hk2]. rewrite list_elem_of_In in Hf1, Hk1.
  destruct Ha as [[= -> ->] | Ha].
  - rewrite !Nat.eqb_refl. simpl. rewrite remove_elem_notin by done.
    symmetry. apply filter_id_on. intros x Hx. apply negb_true_iff, Nat.eqb_neq. intros Hkx.
    apply Hk1. apply in_map_iff in Hx as ([e1 x'] & <- & Hx). apply in_map_iff. by exists (e1, x').
  - assert (e' <> e) as Hne.
    { intros ->. apply Hf1. apply in_map_iff. by exists (e, a). }
    rewrite (proj2 (Nat.eqb_neq e' e) Hne). simpl.
    assert (k b <> k a) as Hkne.
    { intros Hkb. apply Hk1. rewrite Hkb. apply in_map_iff. by exists (e, a). }
    rewrite (proj2 (Nat.eqb_neq _ _) Hkne). simpl. f_equal. by apply IH.
Qed.

End DomRows.

(** Tactics of the development. *)

Ltac invc H := inversion H; subst; clear H.

(** Turn boolean tests of the code into propositions. *)
Ltac bool_to_prop :=
  repeat match goal with
  | H : (_ && _)%bool = true |- _ => apply andb_true_iff in H as [? ?]
  | H : (_ || _)%bool = false |- _ => apply orb_false_iff in H as [? ?]
  | H : (_ =? _) = true |- _ => apply Z.eqb_eq in H
  | H : (_ =? _) = false |- _ => apply Z.eqb_neq in H
  | H : (_ <=? _) = true |- _ => apply Z.leb_le in H
  | H : (_ <=? _) = false |- _ => apply Z.leb_gt in H
  | H : (_ <? _) = true |- _ => apply Z.ltb_lt in H
  | H : (_ <? _) = false |- _ => apply Z.ltb_ge in H
  end.
