(* ===== verification/JsString.v ===== *)
(** JavaScript strings as the scripts use them.

    A JavaScript string is a sequence of UTF-16 code units; [jsstr] is a
    list of [Z] code units in [0, 65535].  This file holds the
    built-ins the page scripts call on strings: the character classes of
    the regular expressions ([a-zA-Z0-9], [\d]), [toUpperCase] on the
    ASCII letters the callers pass it, [startsWith], [String(n)] on a
    natural number (a digit loop on fuel, with the theorem that it
    returns the canonical numeral of [n]), [padStart], [trim],
    [includes] and the line-break handling of form controls; and how the
    pages turn JSON values into text: [`${v}`] of [null] ([tmpl]),
    [v || d] ([or_text]), [textContent] ([text_of]), the value of an
    HTML attribute written in a template ([attr_value]) and the order
    of strings ([str_leb]).  String literals are written with
    [js "..."], which converts an ASCII literal code unit by code
    unit. *)

From S2P Require Import Prelude.

Abbreviation jsstr := (list Z).

(** An ASCII literal as a JavaScript string. *)
Definition js (s : string) : jsstr :=
  map (fun a => Z.of_nat (nat_of_ascii a)) (String.list_ascii_of_string s).

Definition code_unit (c : Z) : Prop := 0 <= c <= 65535.

(** ** Character classes *)

Definition is_digit (c : Z) : bool := (48 <=? c) && (c <=? 57).
Definition is_upper (c : Z) : bool := (65 <=? c) && (c <=? 90).
Definition is_lower (c : Z) : bool := (97 <=? c) && (c <=? 122).

(** The class [a-zA-Z0-9] of the regular expression [/[^a-zA-Z0-9]/g]. *)
Definition is_alnum (c : Z) : bool := is_lower c || is_upper c || is_digit c.

(** [String.prototype.toUpperCase] on a code unit in [a-zA-Z0-9]: the
    lower-case letters move down by 32, every other unit of the class is
    unchanged.  Callers only apply it to strings of that class (proved
    where it is used). *)
Definition upper_unit (c : Z) : Z := if is_lower c then c - 32 else c.

Definition to_upper_ascii (s : jsstr) : jsstr := map upper_unit s.

(** [s.startsWith(p)]. *)
Fixpoint starts_with (p s : jsstr) : bool :=
  match p, s with
  | [], _ => true
  | a :: p', b :: s' => (a =? b) && starts_with p' s'
  | _ :: _, [] => false
  end.

(** [String(n)] for a natural number [n]: its decimal digits, without
    leading zeros ("0" for zero). *)
Fixpoint decimal_aux (fuel : nat) (n : Z) (acc : jsstr) : jsstr :=
  match fuel with
  | O => acc
  | S f => if n <? 10 then (48 + n) :: acc
           else decimal_aux f (n / 10) (48 + n mod 10 :: acc)
  end.

Definition decimal (n : Z) : jsstr := decimal_aux (Z.to_nat n + 1) n [].

(** The value of a string of decimal digits ([Number(s)] on a digit
    string). *)
Definition digits_value (l : jsstr) : Z := fold_left (fun acc c => acc * 10 + (c - 48)) l 0.

(** A canonical decimal numeral: one or more digits, the first of
    them not '0' unless it is the only one. *)
Definition canonical_digits (s : jsstr) : bool :=
  forallb is_digit s && match s with [] => false | [_] => true | c :: _ => negb (c =? 48) end.

(** [s.padStart(len, c)] with a one-unit pad string: the pad goes in
    front until the length reaches [len]; longer strings are unchanged. *)
Definition pad_start (len : nat) (c : Z) (s : jsstr) : jsstr :=
  replicate (len - length s) c ++ s.

(** The value sanitization of an [<input type="text">]: line breaks
    (LF and CR) are removed from the value. *)
Definition strip_newlines (s : jsstr) : jsstr :=
  List.filter (fun c => negb ((c =? 10) || (c =? 13))) s.

(** The newline normalization of HTML input (CR LF and a lone CR
    become LF), applied by the parser to a page's text and by a
    [<textarea>] to its value. *)
Fixpoint lf_normalize (s : jsstr) : jsstr :=
  match s with
  | [] => []
  | c :: t =>
      if c =? 13 then
        10 :: match t with c' :: t' => if c' =? 10 then lf_normalize t' else lf_normalize t | [] => [] end
      else c :: lf_normalize t
  end.

(** Line breaks of a form value as [multipart/form-data] sends them: every
    LF, CR LF and lone CR becomes CR LF. *)
Fixpoint crlf (s : jsstr) : jsstr :=
  match s with
  | [] => []
  | c :: t =>
      if c =? 10 then 13 :: 10 :: crlf t
      else if c =? 13 then
        13 :: 10 :: match t with c' :: t' => if c' =? 10 then crlf t' else crlf t | [] => [] end
      else c :: crlf t
  end.

(** The code units [String.prototype.trim] removes: WhiteSpace and
    LineTerminator of ECMA-262 (TAB..CR, SPACE, NBSP, OGHAM SPACE MARK,
    EN QUAD..HAIR SPACE, LS, PS, NNBSP, MMSP, IDEOGRAPHIC SPACE, BOM). *)
Definition is_js_space (c : Z) : bool :=
  (9 <=? c) && (c <=? 13) || (c =? 32) || (c =? 160) || (c =? 5760) ||
  (8192 <=? c) && (c <=? 8202) || (c =? 8232) || (c =? 8233) || (c =? 8239) ||
  (c =? 8287) || (c =? 12288) || (c =? 65279).

Fixpoint drop_while (p : Z -> bool) (s : jsstr) : jsstr :=
  match s with
  | c :: s' => if p c then drop_while p s' else s
  | [] => []
  end.

Fixpoint take_while (p : Z -> bool) (s : jsstr) : jsstr :=
  match s with
  | c :: s' => if p c then c :: take_while p s' else []
  | [] => []
  end.

(** [a <= b] on strings: code unit by code unit, a prefix first. *)
Fixpoint str_leb (a b : jsstr) : bool :=
  match a, b with
  | [], _ => true
  | _ :: _, [] => false
  | x :: a', y :: b' => (x <? y) || ((x =? y) && str_leb a' b')
  end.

(** An HTML attribute written as [name="${s}"]: its value ends at the
    first quote. *)
Definition attr_value (s : jsstr) : jsstr := take_while (fun c => negb (c =? 34)) s.

(** [s.trim()]. *)
Definition trim (s : jsstr) : jsstr :=
  rev (drop_while is_js_space (rev (drop_while is_js_space s))).

(** [s.includes(sub)]. *)
Fixpoint includes (s sub : jsstr) : bool :=
  starts_with sub s || match s with [] => false | _ :: s' => includes s' sub end.

(** [`${v}`] of a JSON string field in a template literal: [null]
    prints as "null". *)
Definition tmpl (v : option jsstr) : jsstr :=
  match v with Some s => s | None => js "null" end.

(** [el.textContent = v]: [null] gives the empty text. *)
Definition text_of (v : option jsstr) : jsstr :=
  match v with Some s => s | None => [] end.

(** [v || d] of a JSON string field: [null] and the empty string are
    falsy and give [d]. *)
Definition or_text (v : option jsstr) (d : jsstr) : jsstr :=
  match v with Some ((_ :: _) as s) => s | _ => d end.

(** ** Lemmas *)

Lemma is_digit_alnum c : is_digit c = true -> is_alnum c = true.
Proof. unfold is_alnum. intros ->. by rewrite !orb_true_r. Qed.

Lemma upper_unit_digit c : is_digit c = true -> upper_unit c = c.
Proof.
  unfold upper_unit, is_digit, is_lower. intros H. bool_to_prop.
  destruct (97 <=? c) eqn:E1; simpl; [bool_to_prop; lia | done].
Qed.

Lemma upper_unit_not_lower c : is_lower c = false -> upper_unit c = c.
Proof. unfold upper_unit. by intros ->. Qed.

Lemma upper_unit_alnum c : is_alnum c = true -> is_alnum (upper_unit c) = true.
Proof.
  intros H. unfold upper_unit. destruct (is_lower c) eqn:E; [|exact H].
  unfold is_lower in E. bool_to_prop. unfold is_alnum, is_upper.
  replace ((65 <=? c - 32) && (c - 32 <=? 90)) with true
    by (symmetry; apply andb_true_iff; split; apply Z.leb_le; lia).
  by rewrite orb_true_r.
Qed.

Lemma to_upper_ascii_app s1 s2 :
  to_upper_ascii (s1 ++ s2) = to_upper_ascii s1 ++ to_upper_ascii s2.
Proof. apply map_app. Qed.

Lemma to_upper_ascii_digits d :
  Forall (fun c => is_digit c = true) d -> to_upper_ascii d = d.
Proof.
  induction 1; [reflexivity|]. simpl. by rewrite upper_unit_digit, IHForall.
Qed.

Lemma length_pad_start len c s :
  length (pad_start len c s) = Nat.max len (length s).
Proof. unfold pad_start. rewrite length_app, length_replicate. lia. Qed.

Lemma decimal_aux_digits fuel n acc :
  0 <= n -> Forall (fun c => is_digit c = true) acc ->
  Forall (fun c => is_digit c = true) (decimal_aux fuel n acc).
Proof.
  revert n acc. induction fuel as [|f IH]; simpl; intros n acc Hn Hacc; [done|].
  assert (Hd : forall k, 0 <= k < 10 -> is_digit (48 + k) = true)
    by (intros k Hk; unfold is_digit; apply andb_true_iff; split; apply Z.leb_le; lia).
  destruct (n <? 10) eqn:E; bool_to_prop.
  - constructor; [apply Hd; lia | done].
  - apply IH; [apply Z.div_pos; lia|].
    constructor; [apply Hd; pose proof (Z.mod_pos_bound n 10); lia | done].
Qed.

Lemma decimal_digits n : 0 <= n -> Forall (fun c => is_digit c = true) (decimal n).
Proof. intros Hn. apply decimal_aux_digits; auto. Qed.

Lemma drop_while_head p s :
  match drop_while p s with c :: _ => p c = false | [] => True end.
Proof. induction s as [|c s IH]; simpl; [done|]. destruct (p c) eqn:E; [done | exact E]. Qed.

Lemma drop_while_nil p s : drop_while p s = [] <-> Forall (fun c => p c = true) s.
Proof.
  induction s as [|c s IH]; simpl; [split; auto|].
  destruct (p c) eqn:E; rewrite Forall_cons; [rewrite IH; tauto|].
  split; [discriminate | intros [H _]; congruence].
Qed.

Lemma Forall_drop_while p s :
  Forall (fun c => p c = true) (drop_while p s) <-> drop_while p s = [].
Proof.
  pose proof (drop_while_head p s) as Hh. destruct (drop_while p s) as [|c t]; [done|].
  split; [intros H; apply Forall_cons in H as [H _]; congruence | discriminate].
Qed.

(** A trimmed string is empty exactly when every unit is white space. *)
Lemma trim_nil s : trim s = [] <-> Forall (fun c => is_js_space c = true) s.
Proof.
  unfold trim. transitivity (drop_while is_js_space (rev (drop_while is_js_space s)) = []).
  { split; [|by intros ->]. intros H. by rewrite <- (rev_involutive (drop_while _ _)), H. }
  assert (Hrev : forall P (t : jsstr), Forall P (rev t) <-> Forall P t).
  { intros P t. split; [|apply Forall_rev]. intros H. rewrite <- (rev_involutive t). by apply Forall_rev. }
  by rewrite drop_while_nil, Hrev, Forall_drop_while, drop_while_nil.
Qed.

Lemma drop_while_suffix p s : exists k, s = k ++ drop_while p s.
Proof.
  induction s as [|c s [k IH]]; simpl; [by exists []|].
  destruct (p c); [exists (c :: k); by rewrite IH at 1 | by exists []].
Qed.

(** [trim] keeps a substring, so a property of every unit survives it. *)
Lemma Forall_trim (P : Z -> Prop) s : Forall P s -> Forall P (trim s).
Proof.
  assert (Hd : forall t, Forall P t -> Forall P (drop_while is_js_space t)).
  { intros t Ht. destruct (drop_while_suffix is_js_space t) as [k Hk].
    rewrite Hk in Ht. by apply Forall_app in Ht as [_ Ht]. }
  intros Hs. unfold trim. apply Forall_rev, Hd, Forall_rev, Hd, Hs.
Qed.

(** [toUpperCase] leaves a string of upper-case letters and digits as it is. *)
Lemma to_upper_ascii_id s :
  Forall (fun c => is_upper c || is_digit c = true) s -> to_upper_ascii s = s.
Proof.
  intros Hs. unfold to_upper_ascii. apply map_id_on. intros c Hc.
  apply upper_unit_not_lower. apply (proj1 (List.Forall_forall _ _) Hs) in Hc.
  unfold is_upper, is_digit, is_lower in *. bool_to_prop; lia.
Qed.

Lemma take_while_all p s : Forall (fun c => p c = true) s -> take_while p s = s.
Proof. induction 1 as [|c s Hc _ IH]; simpl; [done|]. by rewrite Hc, IH. Qed.

Lemma str_leb_total a b : str_leb a b = true \/ str_leb b a = true.
Proof.
  revert b. induction a as [|x a IH]; intros [|y b]; simpl; auto.
  destruct (Z.lt_trichotomy x y) as [H|[<-|H]].
  - left. apply orb_true_iff. left. by apply Z.ltb_lt.
  - rewrite Z.ltb_irrefl, Z.eqb_refl. simpl. apply IH.
  - right. apply orb_true_iff. left. by apply Z.ltb_lt.
Qed.

Lemma str_leb_trans a b c : str_leb a b = true -> str_leb b c = true -> str_leb a c = true.
Proof.
  revert b c. induction a as [|x a IH]; intros [|y b] [|z c]; simpl; try done.
  rewrite !orb_true_iff, !andb_true_iff, !Z.ltb_lt, !Z.eqb_eq.
  intros [Hxy|[-> Hab]] [Hyz|[<- Hbc]]; try (left; lia). right. eauto.
Qed.

Lemma drop_while_none p s : Forall (fun c => p c = false) s -> drop_while p s = s.
Proof. destruct 1 as [|c s Hc _]; simpl; [done|]. by rewrite Hc. Qed.

(** A string with no white space is its own [trim]. *)
Lemma trim_id s : Forall (fun c => is_js_space c = false) s -> trim s = s.
Proof.
  intros Hs. unfold trim. rewrite (drop_while_none _ s Hs), drop_while_none.
  - apply rev_involutive.
  - by apply Forall_rev.
Qed.

(** A value without line breaks goes through the line-break handling of
    the form controls unchanged. *)
Lemma strip_newlines_id s : Forall (fun c => c <> 10 /\ c <> 13) s -> strip_newlines s = s.
Proof.
  induction 1 as [|c s [H1 H2] _ IH]; [done|]. unfold strip_newlines in *. simpl.
  rewrite (proj2 (Z.eqb_neq c 10)), (proj2 (Z.eqb_neq c 13)) by done. simpl. by rewrite IH.
Qed.

Lemma lf_normalize_id s : Forall (fun c => c <> 13) s -> lf_normalize s = s.
Proof.
  induction 1 as [|c s Hc _ IH]; [done|]. simpl.
  rewrite (proj2 (Z.eqb_neq c 13)) by done. by rewrite IH.
Qed.

Lemma crlf_id s : Forall (fun c => c <> 10 /\ c <> 13) s -> crlf s = s.
Proof.
  induction 1 as [|c s [H1 H2] _ IH]; [done|]. simpl.
  rewrite (proj2 (Z.eqb_neq c 10)), (proj2 (Z.eqb_neq c 13)) by done. by rewrite IH.
Qed.

Lemma decimal_aux_fuel f1 f2 n acc :
  (0 < f1)%nat -> (0 < f2)%nat -> 0 <= n -> n < 10 ^ Z.of_nat f1 -> n < 10 ^ Z.of_nat f2 ->
  decimal_aux f1 n acc = decimal_aux f2 n acc.
Proof.
  revert f2 n acc. induction f1 as [|g1 IH]; intros f2 n acc H1 H2 Hn Hf1 Hf2; [lia|].
  destruct f2 as [|g2]; [lia|]. simpl.
  destruct (n <? 10) eqn:E; bool_to_prop; [done|].
  rewrite Nat2Z.inj_succ, Z.pow_succ_r in Hf1, Hf2 by lia.
  destruct g1 as [|g1]; [simpl in Hf1; lia|]. destruct g2 as [|g2]; [simpl in Hf2; lia|].
  apply IH; try lia; try (apply Z.div_pos; lia); apply Z.div_lt_upper_bound; lia.
Qed.

Lemma digits_value_acc l a :
  fold_left (fun acc c => acc * 10 + (c - 48)) l a = a * 10 ^ Z.of_nat (length l) + digits_value l.
Proof.
  unfold digits_value. revert a. induction l as [|c l IH]; intros a; simpl; [lia|].
  rewrite (IH (a * 10 + (c - 48))), (IH (0 * 10 + (c - 48))).
  rewrite Nat2Z.inj_succ, Z.pow_succ_r by lia. ring.
Qed.

Lemma digits_value_app l1 l2 :
  digits_value (l1 ++ l2) = digits_value l1 * 10 ^ Z.of_nat (length l2) + digits_value l2.
Proof. unfold digits_value at 1. by rewrite fold_left_app, digits_value_acc. Qed.

Lemma digits_value_zeros k : digits_value (replicate k 48) = 0.
Proof.
  induction k as [|k IH]; [reflexivity|].
  rewrite replicate_S_end, digits_value_app, IH. reflexivity.
Qed.

Lemma decimal_aux_value f n acc :
  0 <= n -> n < 10 ^ Z.of_nat f ->
  digits_value (decimal_aux f n acc) = n * 10 ^ Z.of_nat (length acc) + digits_value acc.
Proof.
  revert n acc. induction f as [|f IH]; intros n acc Hn Hf; simpl in *; [lia|].
  change ((48 + n) :: acc) with ([48 + n] ++ acc).
  destruct (n <? 10) eqn:E; bool_to_prop.
  - rewrite digits_value_app. unfold digits_value; simpl. lia.
  - rewrite Nat2Z.inj_succ, Z.pow_succ_r in Hf by lia.
    rewrite IH by (apply Z.div_pos || apply Z.div_lt_upper_bound; lia).
    change (48 + n mod 10 :: acc) with ([48 + n mod 10] ++ acc).
    rewrite digits_value_app, length_app, Nat2Z.inj_add, Z.pow_add_r by lia.
    change (digits_value [48 + n mod 10]) with (0 * 10 + (48 + n mod 10 - 48)).
    change (Z.of_nat (length [48 + n mod 10])) with 1.
    remember (10 ^ Z.of_nat (length acc)) as P.
    pose proof (Z.div_mod n 10). nia.
Qed.

Lemma decimal_value n : 0 <= n -> digits_value (decimal n) = n.
Proof.
  intros Hn. unfold decimal. rewrite decimal_aux_value; [unfold digits_value; simpl; lia | done |].
  rewrite Nat2Z.inj_add, Z2Nat.id by done.
  pose proof (Z.pow_gt_lin_r 10 (n + 1)). lia.
Qed.

Lemma decimal_aux_acc f n acc : decimal_aux f n acc = decimal_aux f n [] ++ acc.
Proof.
  revert n acc. induction f as [|f IH]; intros n acc; simpl; [done|].
  destruct (n <? 10); [done|]. by rewrite IH, (IH _ [_]), <- app_assoc.
Qed.

Lemma decimal_small n : 0 <= n < 10 -> decimal n = [48 + n].
Proof.
  intros Hn. unfold decimal. rewrite Nat.add_1_r. simpl.
  by replace (n <? 10) with true by (symmetry; apply Z.ltb_lt; lia).
Qed.

(** One step of the digit loop: the last digit is [n mod 10], the
    others are the digits of [n / 10]. *)
Lemma decimal_step n : 10 <= n -> decimal n = decimal (n / 10) ++ [48 + n mod 10].
Proof.
  intros Hn. unfold decimal at 1. rewrite Nat.add_1_r. simpl.
  replace (n <? 10) with false by (symmetry; apply Z.ltb_ge; lia).
  rewrite decimal_aux_acc. f_equal. unfold decimal.
  assert (0 <= n / 10 < n) by (split; [apply Z.div_pos | apply Z.div_lt]; lia).
  pose proof (Z.pow_gt_lin_r 10 (n / 10 + 1)) as H1. pose proof (Z.pow_gt_lin_r 10 n) as H2.
  apply decimal_aux_fuel; rewrite ?Nat2Z.inj_add, ?Z2Nat.id; lia.
Qed.

Lemma digits_value_cons c t :
  digits_value (c :: t) = (c - 48) * 10 ^ Z.of_nat (length t) + digits_value t.
Proof. unfold digits_value at 1. simpl. rewrite digits_value_acc. lia. Qed.

Lemma digits_value_nonneg s : forallb is_digit s = true -> 0 <= digits_value s.
Proof.
  induction s as [|c t IH]; simpl; [done|]. intros H. bool_to_prop. specialize (IH H0).
  unfold is_digit in H. bool_to_prop. rewrite digits_value_cons. pose proof (Z.pow_nonneg 10 (Z.of_nat (length t))). nia.
Qed.

Lemma decimal_head n :
  0 < n -> exists c t, decimal n = c :: t /\ 49 <= c <= 57.
Proof.
  intros Hn. induction n as [n IH] using (well_founded_induction (Z.lt_wf 0)).
  destruct (Z.lt_ge_cases n 10).
  - rewrite decimal_small by lia. exists (48 + n), []. split; [done | lia].
  - rewrite decimal_step by lia. destruct (IH (n / 10)) as (c & t & -> & Hc).
    + split; [apply Z.div_pos | apply Z.div_lt]; lia.
    + apply Z.div_str_pos; lia.
    + by exists c, (t ++ [48 + n mod 10]).
Qed.

Lemma canonical_snoc l c :
  l <> [] -> canonical_digits (l ++ [c]) = true ->
  canonical_digits l = true /\ is_digit c = true /\ 1 <= digits_value l.
Proof.
  destruct l as [|c0 l]; [done|]. intros _ H. unfold canonical_digits in H |- *.
  apply andb_true_iff in H as [Hall Hhd]. rewrite forallb_app in Hall.
  apply andb_true_iff in Hall as [Hl Hc]. simpl in Hc. rewrite andb_true_r in Hc.
  assert (Hc0 : (c0 =? 48) = false) by (destruct l; simpl in Hhd; by apply negb_true_iff).
  split_and!; [rewrite Hl; simpl; destruct l; [done | by rewrite Hc0] | done |].
  simpl in Hl. apply andb_true_iff in Hl as [Hd0 Hl].
  rewrite digits_value_cons. pose proof (digits_value_nonneg l Hl).
  unfold is_digit in Hd0. bool_to_prop.
  pose proof (Z.pow_pos_nonneg 10 (Z.of_nat (length l))). nia.
Qed.

(** C12. [String(n)] is the decimal numeral of [n]: for every natural
    number [n], a string is the one [decimal n] computes exactly when
    it is a canonical numeral (digits only, no leading zero) whose value
    is [n].  So the digit loop, run on the fuel [decimal] supplies,
    returns the one string [String(n)] returns. *)
Theorem decimal_canonical (n : Z) (s : jsstr) :
  0 <= n -> s = decimal n <-> canonical_digits s = true /\ digits_value s = n.
Proof.
  intros Hn. split.
  - intros ->. split; [|by apply decimal_value]. unfold canonical_digits.
    apply andb_true_iff. split.
    { apply forallb_forall. intros c Hc. exact (proj1 (List.Forall_forall _ _) (decimal_digits n Hn) c Hc). }
    destruct (Z.eq_dec n 0) as [->|Hn0]; [reflexivity|].
    destruct (decimal_head n) as (c & [|c' t] & -> & Hc); [lia| done |].
    simpl. apply negb_true_iff, Z.eqb_neq. lia.
  - revert n Hn. induction s as [|c l IH] using rev_ind; intros n Hn [Hs Hv]; [done|].
    rewrite digits_value_app in Hv. change (digits_value [c]) with (0 * 10 + (c - 48)) in Hv.
    change (10 ^ Z.of_nat (length [c])) with 10 in Hv.
    destruct l as [|c0 l0].
    + unfold canonical_digits in Hs. change (digits_value []) with 0 in Hv. simpl in Hs.
      bool_to_prop. unfold is_digit in *. bool_to_prop.
      rewrite decimal_small by lia. simpl. f_equal. lia.
    + destruct (canonical_snoc (c0 :: l0) c) as (Hl & Hc & H1); [done..|].
      unfold is_digit in Hc. bool_to_prop.
      rewrite decimal_step by lia. f_equal.
      * apply IH; [apply Z.div_pos; lia|]. split; [done|]. apply (Z.div_unique _ _ _ (c - 48)); lia.
      * f_equal. rewrite <- (Z.mod_unique n 10 (digits_value (c0 :: l0)) (c - 48)); lia.
Qed.

Lemma decimal_canonical_witness : js "42" = decimal 42.
Proof. apply (decimal_canonical 42 (js "42")); [lia | split; reflexivity]. Defined.


#[export] Hint Resolve is_digit_alnum upper_unit_alnum decimal_digits : inv.
