(* ===== verification/JsNumber.v ===== *)
(** JavaScript numbers.

    A JavaScript number is an IEEE-754 binary64 value; [number] is the
    Standard Library's executable specification [spec_float] at
    precision 53 and maximal exponent 1024, with its correctly rounded
    operations (round to nearest, ties to even).  A decimal literal
    such as [0.8] denotes the binary64 value nearest to 8/10, which is
    the correctly rounded quotient [lit 8 10].  [to_unsigned_long] is
    the WebIDL conversion applied when a number is assigned to an
    [unsigned long] attribute such as [canvas.width]. *)

From S2P Require Import Prelude.
From Corelib Require Import SpecFloat.

Module JsNumber.

Definition prec : Z := 53.
Definition emax : Z := 1024.

Abbreviation number := spec_float.

(** An integer as a number (exact below 2^53). *)
Definition of_Z (n : Z) : number := binary_normalize prec emax n 0 false.

Definition mul (x y : number) : number := SFmul prec emax x y.
Definition add (x y : number) : number := SFadd prec emax x y.

(** The decimal literal n/d, e.g. [0.8 = lit 8 10]. *)
Definition lit (n d : Z) : number := SFdiv prec emax (of_Z n) (of_Z d).

(** Truncation toward zero of a finite number. *)
Definition trunc (x : number) : Z :=
  match x with
  | S754_finite s m e =>
      let a := if 0 <=? e then Z.pos m * 2 ^ e else Z.pos m / 2 ^ (- e) in
      if s then - a else a
  | _ => 0
  end.

(** WebIDL [unsigned long]: NaN and infinities give 0, finite values
    are truncated and taken modulo 2^32. *)
Definition to_unsigned_long (x : number) : Z := trunc x mod 2 ^ 32.

End JsNumber.
