(* ===== verification/CodeExtractor.v ===== *)
(** The product-code extractor of the scan page: [findProductCode]
    (src/public/js/scan.js, lines 164-168).

    The OCR text is cleaned of every code unit outside [a-zA-Z0-9], the
    cleaned text is searched for the first match of [/ITEM\d+/gi], and
    the match is upper-cased.  The executable search ([first_match]) is
    proved equivalent to a declarative account of what the regular
    expression matches: the leftmost position where a case-insensitive
    "ITEM" is followed by at least one digit, with the digits taken
    greedily ([leftmost_match]). *)

From S2P Require Import Prelude JsString.

Module CodeExtractor.

(** ** The code, line by line *)

(** Line 165: [text.replace(/[^a-zA-Z0-9]/g, '')]. *)
Definition clean_text (text : jsstr) : jsstr := List.filter is_alnum text.

(** The literal of the pattern and its case-insensitive comparison
    (flag [i]) with a code unit of the cleaned text: an upper-case ASCII
    letter [l] of the pattern matches [l] and its lower-case form. *)
Definition item_literal : jsstr := js "ITEM".

Definition ci_unit_eq (l c : Z) : bool := (c =? l) || (c =? l + 32).

(** Matching a literal at the start of [s]; returns what follows. *)
Fixpoint ci_prefix (lit s : jsstr) : option jsstr :=
  match lit, s with
  | [], _ => Some s
  | l :: lit', c :: s' => if ci_unit_eq l c then ci_prefix lit' s' else None
  | _ :: _, [] => None
  end.

(** The greedy [\d+]: the longest run of digits at the start of [s]. *)
Fixpoint span_digits (s : jsstr) : jsstr * jsstr :=
  match s with
  | c :: s' =>
      if is_digit c then let '(d, r) := span_digits s' in (c :: d, r)
      else ([], s)
  | [] => ([], [])
  end.

(** [/ITEM\d+/] tried at the start of [s]. *)
Definition match_at (s : jsstr) : option jsstr :=
  match ci_prefix item_literal s with
  | None => None
  | Some rest =>
      match span_digits rest with
      | ([], _) => None
      | (d, _) => Some (take 4 s ++ d)
      end
  end.

(** The first element of [text.match(/.../g)]: the match found by trying
    the positions from left to right. *)
Fixpoint first_match (s : jsstr) : option jsstr :=
  match match_at s with
  | Some w => Some w
  | None => match s with [] => None | _ :: s' => first_match s' end
  end.

(** Lines 164-168. *)
Definition findProductCode (text : jsstr) : option jsstr :=
  match first_match (clean_text text) with
  | Some m => Some (to_upper_ascii m)
  | None => None
  end.

(** ** Declarative semantics of the regular expression *)

Definition ci_equal (lit k : jsstr) : Prop :=
  Forall2 (fun l c => ci_unit_eq l c = true) lit k.

Definition all_digits (d : jsstr) : Prop := Forall (fun c => is_digit c = true) d.

Definition head_not_digit (r : jsstr) : Prop :=
  match r with c :: _ => is_digit c = false | [] => True end.

(** [/ITEM\d+/] matches at the start of [s] with matched text [w]; the
    greedy [\d+] takes every digit that follows. *)
Inductive matches_here (s w : jsstr) : Prop :=
  | matches_here_intro k d r :
      s = k ++ d ++ r -> ci_equal item_literal k -> d <> [] -> all_digits d ->
      head_not_digit r -> w = k ++ d -> matches_here s w.

(** The match the regex engine reports first: at the leftmost position
    where the pattern matches. *)
Definition leftmost_match (s w : jsstr) : Prop :=
  exists i, matches_here (drop i s) w /\
    forall j w', (j < i)%nat -> ~ matches_here (drop j s) w'.

Definition no_match (s : jsstr) : Prop := forall i w, ~ matches_here (drop i s) w.

(** A product code: "ITEM" followed by one or more digits. *)
Definition valid_code (c : jsstr) : Prop :=
  exists d, c = item_literal ++ d /\ d <> [] /\ all_digits d.

(** ** Lemmas on the pieces *)

Lemma ci_prefix_app lit k s : ci_equal lit k -> ci_prefix lit (k ++ s) = Some s.
Proof. induction 1 as [|l c lit' k' Hlc _ IH]; simpl; [done|]. by rewrite Hlc. Qed.

Lemma ci_prefix_some lit s r :
  ci_prefix lit s = Some r -> exists k, s = k ++ r /\ ci_equal lit k.
Proof.
  revert s. induction lit as [|l lit' IH]; intros s H; simpl in H.
  - injection H as <-. exists []. split; [done | constructor].
  - destruct s as [|c s']; [discriminate|].
    destruct (ci_unit_eq l c) eqn:E; [|discriminate].
    destruct (IH s' H) as (k & -> & Hk). exists (c :: k). split; [done|].
    by constructor.
Qed.

Lemma ci_equal_length lit k : ci_equal lit k -> length k = length lit.
Proof. intros H. symmetry. by eapply Forall2_length. Qed.

Lemma span_digits_app d r :
  all_digits d -> head_not_digit r -> span_digits (d ++ r) = (d, r).
Proof.
  intros Hd Hr. induction Hd as [|c d' Hc _ IH]; simpl.
  - destruct r as [|c r']; simpl in *; [done|]. by rewrite Hr.
  - by rewrite Hc, IH.
Qed.

Lemma span_digits_spec s d r :
  span_digits s = (d, r) -> s = d ++ r /\ all_digits d /\ head_not_digit r.
Proof.
  revert d r. induction s as [|c s' IH]; simpl; intros d r H.
  - injection H as <- <-. repeat split; constructor.
  - destruct (is_digit c) eqn:E.
    + destruct (span_digits s') as [d' r'] eqn:Es.
      injection H as <- <-. destruct (IH _ _ eq_refl) as (-> & Hd & Hr).
      repeat split; [by constructor | done].
    + injection H as <- <-. repeat split; [constructor | done].
Qed.

Lemma match_at_correct s w : match_at s = Some w <-> matches_here s w.
Proof.
  unfold match_at. split.
  - destruct (ci_prefix item_literal s) as [rest|] eqn:Ep; [|discriminate].
    destruct (ci_prefix_some _ _ _ Ep) as (k & -> & Hk).
    destruct (span_digits rest) as [d r] eqn:Es.
    destruct (span_digits_spec _ _ _ Es) as (-> & Hd & Hr).
    destruct d as [|c d']; [discriminate|]. intros [= <-].
    apply (matches_here_intro _ _ k (c :: d') r); auto.
    rewrite take_app_length'; [done | by rewrite (ci_equal_length _ _ Hk)].
  - intros [k d r -> Hk Hne Hd Hr ->].
    rewrite ci_prefix_app by done. rewrite span_digits_app by done.
    destruct d as [|c d']; [done|].
    rewrite take_app_length'; [done | by rewrite (ci_equal_length _ _ Hk)].
Qed.

Lemma match_at_none s : match_at s = None <-> forall w, ~ matches_here s w.
Proof.
  split.
  - intros H w Hm. apply match_at_correct in Hm. congruence.
  - intros H. destruct (match_at s) as [w|] eqn:E; [|done].
    exfalso. apply (H w). by apply match_at_correct.
Qed.

(** The scan from the left finds the first position that matches. *)
Lemma first_match_some s w :
  first_match s = Some w <->
  exists i, match_at (drop i s) = Some w /\
    forall j, (j < i)%nat -> match_at (drop j s) = None.
Proof.
  induction s as [|c s' IH]; simpl.
  - unfold match_at; simpl. split; [discriminate|].
    intros (i & Hi & _). by rewrite drop_nil in Hi.
  - destruct (match_at (c :: s')) as [w0|] eqn:E0; split.
    + intros [= <-]. exists 0%nat. split; [done | lia].
    + intros ([|i] & Hi & Hj); [simpl in Hi; congruence|].
      specialize (Hj 0%nat ltac:(lia)). simpl in Hj. congruence.
    + intros H. apply IH in H as (i & Hi & Hj). exists (S i). split; [done|].
      intros [|j] Hlt; [done|]. apply Hj. lia.
    + intros ([|i] & Hi & Hj); [simpl in Hi; congruence|].
      apply IH. exists i. split; [done|]. intros j Hlt. apply (Hj (S j)). lia.
Qed.

Lemma first_match_none s :
  first_match s = None <-> forall i, match_at (drop i s) = None.
Proof.
  split.
  - induction s as [|c s' IH]; simpl; intros H i.
    + rewrite drop_nil. done.
    + destruct (match_at (c :: s')) eqn:E0; [discriminate|].
      destruct i as [|i]; [done|]. by apply IH.
  - intros H. destruct (first_match s) as [w|] eqn:E; [|done].
    apply first_match_some in E as (i & Hi & _). congruence.
Qed.

Lemma first_match_here s w : match_at s = Some w -> first_match s = Some w.
Proof.
  intros H. destruct s as [|c s']; [discriminate H|].
  cbn [first_match]. by rewrite H.
Qed.

Lemma first_match_leftmost s w : first_match s = Some w <-> leftmost_match s w.
Proof.
  rewrite first_match_some. unfold leftmost_match. split.
  - intros (i & Hi & Hj). exists i. split; [by apply match_at_correct|].
    intros j w' Hlt. apply match_at_none. auto.
  - intros (i & Hi & Hj). exists i. split; [by apply match_at_correct|].
    intros j Hlt. apply match_at_none. intros w'. auto.
Qed.

Lemma first_match_no_match s : first_match s = None <-> no_match s.
Proof.
  rewrite first_match_none. unfold no_match.
  setoid_rewrite match_at_none. done.
Qed.

Lemma ci_unit_eq_upper l c :
  is_upper l = true -> ci_unit_eq l c = true -> upper_unit c = l.
Proof.
  unfold is_upper, ci_unit_eq, upper_unit, is_lower. intros Hl Hc.
  bool_to_prop. apply orb_true_iff in Hc as [Hc|Hc]; bool_to_prop; subst.
  - replace (97 <=? l) with false by (symmetry; apply Z.leb_gt; lia). done.
  - replace ((97 <=? l + 32) && (l + 32 <=? 122)) with true
      by (symmetry; apply andb_true_iff; split; apply Z.leb_le; lia). lia.
Qed.

Lemma ci_equal_upper lit k :
  Forall (fun l => is_upper l = true) lit -> ci_equal lit k -> to_upper_ascii k = lit.
Proof.
  intros Hu Hk. induction Hk as [|l c lit' k' Hlc _ IH]; [done|].
  apply Forall_cons in Hu as [Hl Hu]. simpl. f_equal; auto.
  by apply ci_unit_eq_upper.
Qed.

Lemma item_literal_upper : Forall (fun l => is_upper l = true) item_literal.
Proof. repeat constructor. Qed.

Lemma ci_equal_refl lit : ci_equal lit lit.
Proof.
  induction lit as [|l lit IH]; constructor; [|done].
  unfold ci_unit_eq. by rewrite Z.eqb_refl.
Qed.

(** Every match of the pattern upper-cases to a product code. *)
Lemma matches_here_valid s w : matches_here s w -> valid_code (to_upper_ascii w).
Proof.
  intros [k d r _ Hk Hne Hd _ ->]. exists d.
  rewrite to_upper_ascii_app, (ci_equal_upper item_literal k), to_upper_ascii_digits;
    auto using item_literal_upper.
Qed.

Lemma clean_text_id s : Forall (fun c => is_alnum c = true) s -> clean_text s = s.
Proof. induction 1 as [|c s Hc _ IH]; simpl; [done|]. by rewrite Hc, IH. Qed.

Lemma valid_code_alnum c : valid_code c -> Forall (fun u => is_alnum u = true) c.
Proof.
  intros (d & -> & _ & Hd). apply Forall_app. split.
  - repeat constructor.
  - eapply Forall_impl; [exact Hd | auto with inv].
Qed.

(** The match found by the scan upper-cases to a product code. *)
Lemma first_match_valid s w : first_match s = Some w -> valid_code (to_upper_ascii w).
Proof.
  intros H. apply first_match_leftmost in H as (i & Hi & _). by eapply matches_here_valid.
Qed.

Lemma to_upper_valid_code c : valid_code c -> to_upper_ascii c = c.
Proof.
  intros (d & -> & _ & Hd). rewrite to_upper_ascii_app, (to_upper_ascii_digits d Hd).
  reflexivity.
Qed.

(** A product code is matched whole at its first position. *)
Lemma first_match_valid_code c : valid_code c -> first_match c = Some c.
Proof.
  intros (d & -> & Hne & Hd). apply first_match_here, match_at_correct.
  apply (matches_here_intro _ _ item_literal d []); auto using ci_equal_refl.
  all: by rewrite ?app_nil_r.
Qed.

#[export] Hint Resolve valid_code_alnum : inv.

(** ** Properties of [findProductCode] *)

(** C1. [findProductCode] returns a code exactly when the regular
    expression [/ITEM\d+/gi] matches the cleaned text, and then it
    returns the leftmost match, with all the digits that follow "ITEM",
    upper-cased. *)
Theorem findProductCode_refines (t c : jsstr) :
  findProductCode t = Some c <->
  exists w, leftmost_match (clean_text t) w /\ c = to_upper_ascii w.
Proof.
  unfold findProductCode. split.
  - destruct (first_match (clean_text t)) as [w|] eqn:E; [|discriminate].
    intros [= <-]. exists w. split; [by apply first_match_leftmost | done].
  - intros (w & Hw & ->). apply first_match_leftmost in Hw. by rewrite Hw.
Qed.

(** [findProductCode] returns null exactly when no position of the
    cleaned text matches [/ITEM\d+/i]. *)
Theorem findProductCode_null (t : jsstr) :
  findProductCode t = None <-> no_match (clean_text t).
Proof.
  unfold findProductCode. rewrite <- first_match_no_match.
  destruct (first_match (clean_text t)); split; congruence.
Qed.

(** C16. Every code [findProductCode] returns is "ITEM" followed by one
    or more decimal digits (upper-case letters, no other character). *)
Theorem findProductCode_valid (t c : jsstr) :
  findProductCode t = Some c -> valid_code c.
Proof.
  unfold findProductCode. destruct (first_match (clean_text t)) as [w|] eqn:E; [|discriminate].
  intros [= <-]. by eapply first_match_valid.
Qed.

(** A product code read back is returned unchanged: the extractor
    is the identity on valid codes. *)
Theorem findProductCode_code (c : jsstr) :
  valid_code c -> findProductCode c = Some c.
Proof.
  intros Hc. unfold findProductCode.
  rewrite clean_text_id, first_match_valid_code by auto with inv. simpl.
  by rewrite to_upper_valid_code.
Qed.

Lemma clean_text_app s1 s2 : clean_text (s1 ++ s2) = clean_text s1 ++ clean_text s2.
Proof. apply List.filter_app. Qed.

Lemma valid_code_app_digits c d :
  valid_code c -> all_digits d -> valid_code (c ++ d).
Proof.
  intros (d0 & -> & Hne & Hd0) Hd. exists (d0 ++ d). split; [by rewrite app_assoc|].
  split; [by destruct d0 | by apply Forall_app].
Qed.

(** The cleaning step removes separators before the pattern is
    searched, so digits printed after a code are glued to it: a valid
    code, one separator character (a space, a dash, ...) and more
    digits extract as one longer code. *)
Theorem findProductCode_glues_digits (c d : jsstr) (sep : Z) :
  valid_code c -> is_alnum sep = false -> all_digits d ->
  findProductCode (c ++ sep :: d) = Some (c ++ d).
Proof.
  intros Hc Hsep Hd.
  assert (Hclean : clean_text (c ++ sep :: d) = c ++ d).
  { rewrite clean_text_app. simpl. rewrite Hsep.
    rewrite !clean_text_id; auto using valid_code_alnum.
    eapply Forall_impl; [exact Hd | auto with inv]. }
  unfold findProductCode. rewrite Hclean.
  pose proof (valid_code_app_digits c d Hc Hd) as Hcd.
  rewrite first_match_valid_code by done. simpl. by rewrite to_upper_valid_code.
Qed.

(** The examples of the specification: a code surrounded by
    punctuation, a text without code, and a lower-case code. *)
Example findProductCode_spec_examples :
  findProductCode (js "xx..ITEM0042..yy") = Some (js "ITEM0042") /\
  findProductCode (js "no code here") = None /\
  findProductCode (js "item7") = Some (js "ITEM7").
Proof. split; [|split]; vm_compute; reflexivity. Qed.

(** ** Witnesses *)

Lemma findProductCode_valid_witness : valid_code (js "ITEM0042").
Proof. apply (findProductCode_valid (js "Lot: ITEM0042.")). vm_compute. reflexivity. Defined.

Lemma findProductCode_glues_digits_witness :
  findProductCode (js "ITEM0042 2") = Some (js "ITEM00422").
Proof.
  apply (findProductCode_glues_digits (js "ITEM0042") (js "2") 32).
  - exists (js "0042"). split; [reflexivity | split; [discriminate | repeat constructor]].
  - reflexivity.
  - repeat constructor.
Defined.

End CodeExtractor.
