(* ===== verification/Imaging.v ===== *)
(** Image preprocessing of the scan page: [preprocessImage]
    (src/public/js/scan.js, lines 118-131) and the image preparation of
    [runSingleRecognition] (lines 146-151).

    Canvases hold RGBA pixels; OpenCV matrices hold 8-bit channels
    ([CV_8UC1] grey or [CV_8UC4] RGBA).  The data conversions of
    OpenCV.js that the page calls ([cv.imread], [cv.imshow],
    [cv.bitwise_not]) are definitions; the two filters
    ([cv.cvtColor], [cv.adaptiveThreshold]) are the class [CvFilters]
    with the laws [CvFiltersLaws] the page relies on, implemented by
    the instance [mean_filters].  The crop box is computed with
    binary64 numbers ([JsNumber]) as the script computes it. *)

From S2P Require Import Prelude JsNumber.

Module Imaging.
Import JsNumber.

(** ** Pixels, canvases and matrices *)

Record px := Px { red : Z; green : Z; blue : Z; alpha : Z }.

Record canvas := Canvas { width : Z; height : Z; pixels : list (list px) }.

Inductive mat_type := CV_8UC1 | CV_8UC4.

Record mat := Mat { mtype : mat_type; mrows : Z; mcols : Z; mdata : list (list (list Z)) }.

Definition byte (v : Z) : Prop := 0 <= v <= 255.

Definition px_ok (p : px) : Prop :=
  byte (red p) /\ byte (green p) /\ byte (blue p) /\ byte (alpha p).

Definition wf_grid {A} (ok : A -> Prop) (w h : Z) (g : list (list A)) : Prop :=
  Z.of_nat (length g) = h /\ Forall (fun row => Z.of_nat (length row) = w /\ Forall ok row) g.

Definition wf_canvas (c : canvas) : Prop := wf_grid px_ok (width c) (height c) (pixels c).

Definition channels (t : mat_type) : nat := match t with CV_8UC1 => 1 | CV_8UC4 => 4 end.

Definition wf_mat (m : mat) : Prop :=
  wf_grid (fun v => length v = channels (mtype m) /\ Forall byte v) (mcols m) (mrows m) (mdata m).

(** ** OpenCV.js data conversions *)

Definition channels_of (p : px) : list Z := [red p; green p; blue p; alpha p].

(** [cv.imread(canvas)]: the canvas's [getImageData] as a [CV_8UC4]
    matrix; [getImageData] throws [IndexSizeError] on a canvas of zero
    width or height. *)
Definition imread (c : canvas) : option mat :=
  if (width c =? 0) || (height c =? 0) then None
  else Some (Mat CV_8UC4 (height c) (width c) (map (map channels_of) (pixels c))).

(** [cv.imshow(canvas, mat)]: the canvas is resized to the matrix; a
    grey matrix is shown as opaque grey, an RGBA matrix is copied. *)
Definition px_of (t : mat_type) (v : list Z) : px :=
  match t, v with
  | CV_8UC1, g :: _ => Px g g g 255
  | CV_8UC4, [r; g; b; a] => Px r g b a
  | _, _ => Px 0 0 0 0
  end.

Definition imshow (m : mat) : canvas :=
  Canvas (mcols m) (mrows m) (map (map (px_of (mtype m))) (mdata m)).

(** [cv.bitwise_not]: every channel of every pixel, alpha included, is
    complemented as an unsigned byte. *)
Definition not_byte (v : Z) : Z := Z.land (Z.lnot v) 255.

Definition bitwise_not (m : mat) : mat :=
  Mat (mtype m) (mrows m) (mcols m) (map (map (map not_byte)) (mdata m)).

(** ** The filters, as an interface *)

Inductive adaptive_method := ADAPTIVE_THRESH_MEAN_C | ADAPTIVE_THRESH_GAUSSIAN_C.
Inductive threshold_type := THRESH_BINARY | THRESH_BINARY_INV.

Class CvFilters := {
  cvtColor_RGBA2GRAY : mat -> mat;
  adaptiveThreshold : mat -> Z -> adaptive_method -> threshold_type -> Z -> Z -> mat
}.

(** What the page relies on: the conversion to grey yields a grey
    matrix of the same size, and a binary threshold yields a grey
    matrix of the same size whose values are 0 or the maximal value. *)
Class CvFiltersLaws `{CvFilters} := {
  cvtColor_law : forall m, mtype m = CV_8UC4 -> wf_mat m ->
    let g := cvtColor_RGBA2GRAY m in
    mtype g = CV_8UC1 /\ mrows g = mrows m /\ mcols g = mcols m /\ wf_mat g;
  threshold_law : forall m maxv meth bs c, mtype m = CV_8UC1 -> wf_mat m -> byte maxv ->
    let t := adaptiveThreshold m maxv meth THRESH_BINARY bs c in
    mtype t = CV_8UC1 /\ mrows t = mrows m /\ mcols t = mcols m /\ wf_mat t /\
    Forall (Forall (fun v => v = [0] \/ v = [maxv])) (mdata t)
}.

(** ** A model of the interface

    [mean_filters] implements the class: the grey conversion is
    OpenCV's fixed-point RGB to Y formula
    ((4899 R + 9617 G + 1868 B + 2^13) >> 14), and the adaptive
    threshold compares each pixel with the rounded mean of its
    [blockSize] x [blockSize] window with replicated borders.  It is
    used to evaluate the witnesses; the theorems only use the laws. *)

Definition gmapi {A B} (f : nat -> nat -> A -> B) (g : list (list A)) : list (list B) :=
  imap (fun i row => imap (fun j v => f i j v) row) g.

Definition gray_of (v : list Z) : list Z :=
  match v with
  | [r; g; b; _] => [Z.shiftr (4899 * r + 9617 * g + 1868 * b + 8192) 14]
  | _ => [0]
  end.

Definition mean_cvtColor (m : mat) : mat :=
  Mat CV_8UC1 (mrows m) (mcols m) (map (map gray_of) (mdata m)).

Definition clamp_index (i n : Z) : nat := Z.to_nat (Z.max 0 (Z.min i (n - 1))).

Definition sample (m : mat) (i j : Z) : Z :=
  match mdata m !! clamp_index i (mrows m) with
  | Some row => match row !! clamp_index j (mcols m) with Some (v :: _) => v | _ => 0 end
  | None => 0
  end.

Definition offsets (bs : Z) : list Z := map (fun k => Z.of_nat k - bs / 2) (seq 0 (Z.to_nat bs)).

Definition window_mean (m : mat) (bs : Z) (i j : Z) : Z :=
  let sum := foldr Z.add 0 (map (fun di => foldr Z.add 0
               (map (fun dj => sample m (i + di) (j + dj)) (offsets bs))) (offsets bs)) in
  (sum + bs * bs / 2) / (bs * bs).

Definition threshold_value (ty : threshold_type) (maxv c v mean : Z) : Z :=
  match ty with
  | THRESH_BINARY => if -c <? v - mean then maxv else 0
  | THRESH_BINARY_INV => if -c <? v - mean then 0 else maxv
  end.

Definition mean_adaptiveThreshold (m : mat) (maxv : Z) (meth : adaptive_method)
    (ty : threshold_type) (bs c : Z) : mat :=
  Mat CV_8UC1 (mrows m) (mcols m)
    (gmapi (fun i j v => [threshold_value ty maxv c (hd 0 v)
                           (window_mean m bs (Z.of_nat i) (Z.of_nat j))]) (mdata m)).

#[export] Instance mean_filters : CvFilters :=
  { cvtColor_RGBA2GRAY := mean_cvtColor; adaptiveThreshold := mean_adaptiveThreshold }.

Lemma wf_grid_map {A B} (ok : A -> Prop) (ok' : B -> Prop) (f : A -> B) w h g :
  (forall x, ok x -> ok' (f x)) -> wf_grid ok w h g -> wf_grid ok' w h (map (map f) g).
Proof.
  intros Hf [Hh Hrows]. split; [by rewrite length_map|].
  apply Forall_map. eapply Forall_impl; [exact Hrows|]. intros row [Hw Hok].
  split; [by rewrite length_map|]. apply Forall_map. eapply Forall_impl; eauto.
Qed.

Lemma wf_grid_gmapi {A B} (ok : A -> Prop) (ok' : B -> Prop) f w h g :
  (forall i j x, ok x -> ok' (f i j x)) -> wf_grid ok w h g -> wf_grid ok' w h (gmapi f g).
Proof.
  intros Hf [Hh Hrows]. unfold gmapi. split; [by rewrite length_imap|].
  apply Forall_imap_intro. intros i row Hrow.
  pose proof (proj1 (Forall_lookup _ _) Hrows i row Hrow) as [Hw Hok].
  split; [by rewrite length_imap|]. apply Forall_imap_intro. intros j x Hx.
  apply Hf. exact (proj1 (Forall_lookup _ _) Hok j x Hx).
Qed.

#[export] Instance mean_filters_laws : CvFiltersLaws.
Proof.
  split.
  - intros m Hty Hwf. simpl. split_and!; try done. unfold wf_mat in *; simpl.
    rewrite Hty in Hwf. eapply wf_grid_map; [|exact Hwf]. simpl. intros v [Hlen Hv].
    destruct v as [|r [|g [|b [|a [|]]]]]; try discriminate.
    apply Forall_cons in Hv as [Hr Hv]. apply Forall_cons in Hv as [Hg Hv].
    apply Forall_cons in Hv as [Hb _]. unfold byte in *.
    split; [done|]. constructor; [|constructor].
    rewrite Z.shiftr_div_pow2 by lia. change (2 ^ 14) with 16384. split.
    + apply Z.div_pos; lia.
    + assert ((4899 * r + 9617 * g + 1868 * b + 8192) / 16384 < 256)
        by (apply Z.div_lt_upper_bound; lia). lia.
  - intros m maxv meth bs c _ Hwf Hmax. simpl. split_and!; try done.
    + unfold wf_mat; simpl. eapply wf_grid_gmapi; [|exact Hwf]. simpl.
      intros i j x _. split; [done|]. constructor; [|constructor].
      unfold threshold_value. destruct (_ <? _); unfold byte in *; lia.
    + unfold gmapi. apply Forall_imap_intro. intros i row _.
      apply Forall_imap_intro. intros j x _. unfold threshold_value.
      destruct (_ <? _); auto.
Qed.

(** ** The crop box, lines 120-123 *)

(** [const box = { x: 0.1, y: 0.35, width: 0.8, height: 0.3 }]. *)
Definition box_x : number := lit 1 10.
Definition box_y : number := lit 35 100.
Definition box_width : number := lit 8 10.
Definition box_height : number := lit 3 10.

Record crop := Crop { sx : number; sy : number; sWidth : number; sHeight : number }.

Definition crop_of (videoWidth videoHeight : Z) : crop :=
  let vw := of_Z videoWidth in
  let vh := of_Z videoHeight in
  Crop (mul vw box_x) (mul vh box_y) (mul vw box_width) (mul vh box_height).

(** [canvas.width = sWidth; canvas.height = sHeight]. *)
Definition canvas_width (videoWidth : Z) : Z := to_unsigned_long (mul (of_Z videoWidth) box_width).
Definition canvas_height (videoHeight : Z) : Z := to_unsigned_long (mul (of_Z videoHeight) box_height).

(** The live video element: its intrinsic size and what [drawImage]
    paints from a source rectangle onto a canvas of a given size (the
    browser's resampling, an input of the model), which is a grid of
    the canvas's size. *)
Record video := Video {
  videoWidth : Z;
  videoHeight : Z;
  drawImage : crop -> Z -> Z -> list (list px);
  drawImage_wf : forall cr w h, 0 <= w -> 0 <= h -> wf_grid px_ok w h (drawImage cr w h)
}.

Section Pipeline.
Context `{CvFilters}.

(** Lines 118-131: crop, grey, adaptive threshold, shown on the canvas.
    [None] is the exception thrown by [cv.imread] on an empty canvas. *)
(** Lines 121-124: the canvas resized to the crop and painted from the
    video.  This is what the canvas holds when [cv.imread] throws. *)
Definition drawn_canvas (v : video) : canvas :=
  let cr := crop_of (videoWidth v) (videoHeight v) in
  let w := canvas_width (videoWidth v) in
  let h := canvas_height (videoHeight v) in
  Canvas w h (drawImage v cr w h).

Definition preprocessImage (v : video) : option canvas :=
  match imread (drawn_canvas v) with
  | None => None
  | Some src =>
      let processed := cvtColor_RGBA2GRAY src in
      let processed := adaptiveThreshold processed 255 ADAPTIVE_THRESH_GAUSSIAN_C THRESH_BINARY 11 2 in
      Some (imshow processed)
  end.

(** The two recognition strategies of [runSingleRecognition]. *)
Inductive strategy := Standard | Inverted.

(** Lines 146-151: read the canvas, invert it for the second attempt,
    show it on a fresh canvas for the OCR engine. *)
Definition recognition_image (c : canvas) (s : strategy) : option canvas :=
  match imread c with
  | None => None
  | Some m =>
      let m := match s with Inverted => bitwise_not m | Standard => m end in
      Some (imshow m)
  end.

(** ** Lemmas on the conversions *)



Lemma to_unsigned_long_nonneg x : 0 <= to_unsigned_long x.
Proof. unfold to_unsigned_long. pose proof (Z.mod_pos_bound (trunc x) (2 ^ 32)). lia. Qed.

Lemma imread_some c :
  width c <> 0 -> height c <> 0 ->
  imread c = Some (Mat CV_8UC4 (height c) (width c) (map (map channels_of) (pixels c))).
Proof.
  intros Hw Hh. unfold imread.
  by rewrite (proj2 (Z.eqb_neq _ _) Hw), (proj2 (Z.eqb_neq _ _) Hh).
Qed.

Lemma imread_none c : imread c = None <-> width c = 0 \/ height c = 0.
Proof.
  unfold imread. destruct (width c =? 0) eqn:Ew, (height c =? 0) eqn:Eh; simpl;
    bool_to_prop; split; intros; try done; try lia; auto.
Qed.

Lemma wf_mat_imread c m : wf_canvas c -> imread c = Some m -> wf_mat m /\ mtype m = CV_8UC4.
Proof.
  unfold imread. destruct (_ || _); [discriminate|]. intros Hc [= <-].
  split; [|done]. unfold wf_mat; simpl. eapply wf_grid_map; [|exact Hc].
  intros p (?&?&?&?). split; [done | do 4 (constructor; [assumption|]); constructor].
Qed.

(** [cv.bitwise_not] on a byte is [255 - v] (checked on the 256 bytes). *)
Lemma not_byte_spec v : byte v -> not_byte v = 255 - v.
Proof.
  intros Hv. apply Z.eqb_eq.
  apply (check_upto_spec 255 (fun v => not_byte v =? 255 - v)); [vm_compute; reflexivity | done].
Qed.

Definition invert_px (p : px) : px :=
  Px (255 - red p) (255 - green p) (255 - blue p) (255 - alpha p).

Lemma not_channels p :
  px_ok p -> px_of CV_8UC4 (map not_byte (channels_of p)) = invert_px p.
Proof. intros (?&?&?&?). simpl. by rewrite !not_byte_spec. Qed.

Lemma imshow_imread c :
  width c <> 0 -> height c <> 0 -> exists m, imread c = Some m /\ imshow m = c.
Proof.
  intros Hw Hh. rewrite imread_some by done. eexists; split; [reflexivity|].
  destruct c as [w h g]. unfold imshow; simpl. f_equal.
  rewrite map_map. erewrite map_ext; [apply map_id|]. intros row.
  rewrite map_map. erewrite map_ext; [apply map_id|]. by intros [].
Qed.

Context `{!CvFiltersLaws}.

(** What a successful [preprocessImage] leaves on the canvas: the
    thresholded grey matrix of the crop's size. *)
Lemma preprocess_some v c :
  preprocessImage v = Some c ->
  exists t, c = imshow t /\ mtype t = CV_8UC1 /\ wf_mat t /\
    mcols t = canvas_width (videoWidth v) /\ mrows t = canvas_height (videoHeight v) /\
    mcols t <> 0 /\ mrows t <> 0 /\
    Forall (Forall (fun x => x = [0] \/ x = [255])) (mdata t).
Proof.
  unfold preprocessImage, drawn_canvas. set (w := canvas_width _). set (h := canvas_height _).
  set (cr := crop_of _ _).
  destruct (imread (Canvas w h _)) as [src|] eqn:E; [|discriminate]. intros [= <-].
  assert (Hne : w <> 0 /\ h <> 0).
  { split; intros Hz;
      [ pose proof (proj2 (imread_none (Canvas w h (drawImage v cr w h))) (or_introl Hz))
      | pose proof (proj2 (imread_none (Canvas w h (drawImage v cr w h))) (or_intror Hz)) ];
      congruence. }
  destruct (wf_mat_imread (Canvas w h (drawImage v cr w h)) _ (drawImage_wf v cr w h ltac:(apply to_unsigned_long_nonneg)
    ltac:(apply to_unsigned_long_nonneg)) E) as [Hwf Hty].
  unfold imread in E. simpl in E. destruct (_ || _); [discriminate|]. injection E as <-.
  destruct (cvtColor_law _ Hty Hwf) as (Hg1 & Hg2 & Hg3 & Hg4).
  destruct (threshold_law _ 255 ADAPTIVE_THRESH_GAUSSIAN_C 11 2 Hg1 Hg4 ltac:(unfold byte; lia))
    as (Ht1 & Ht2 & Ht3 & Ht4 & Ht5).
  destruct Hne as [Hw Hh].
  cbn [mcols mrows mtype] in *.
  eexists. split; [reflexivity|]. split_and!; auto; congruence.
Qed.

Lemma preprocess_none_iff v :
  preprocessImage v = None <->
  canvas_width (videoWidth v) = 0 \/ canvas_height (videoHeight v) = 0.
Proof.
  unfold preprocessImage, drawn_canvas.
  set (w := canvas_width _). set (h := canvas_height _).
  pose proof (imread_none (Canvas w h (drawImage v (crop_of (videoWidth v) (videoHeight v)) w h)))
    as H'. simpl in H'. rewrite <- H'.
  destruct (imread _); split; congruence.
Qed.

(** The crop size computed in binary64 is the exact floor, for every
    frame dimension up to 8192 pixels (checked by evaluation). *)
Lemma canvas_width_floor w : 0 <= w <= 8192 -> canvas_width w = 4 * w / 5.
Proof.
  intros Hw. apply Z.eqb_eq.
  apply (check_upto_spec (Z.to_nat 8192) (fun w => canvas_width w =? 4 * w / 5));
    [vm_compute; reflexivity | lia].
Qed.

Lemma canvas_height_floor h : 0 <= h <= 8192 -> canvas_height h = 3 * h / 10.
Proof.
  intros Hh. apply Z.eqb_eq.
  apply (check_upto_spec (Z.to_nat 8192) (fun h => canvas_height h =? 3 * h / 10));
    [vm_compute; reflexivity | lia].
Qed.

Lemma canvas_empty_iff w h :
  0 <= w <= 8192 -> 0 <= h <= 8192 ->
  canvas_width w = 0 \/ canvas_height h = 0 <-> w <= 1 \/ h <= 3.
Proof.
  intros Hw Hh. rewrite canvas_width_floor, canvas_height_floor by done.
  rewrite !Z.div_small_iff by lia. lia.
Qed.

Definition binary_px (p : px) : Prop := p = Px 0 0 0 255 \/ p = Px 255 255 255 255.

Lemma preprocess_pixels v c :
  preprocessImage v = Some c ->
  wf_canvas c /\ width c <> 0 /\ height c <> 0 /\ Forall (Forall binary_px) (pixels c).
Proof.
  intros Hp. destruct (preprocess_some _ _ Hp) as (t & -> & Hty & Hwf & _ & _ & Hw & Hh & Hbin).
  unfold imshow; simpl. rewrite Hty. split_and!; try done.
  - unfold wf_canvas, wf_mat in *; simpl. rewrite Hty in Hwf.
    eapply wf_grid_map; [|exact Hwf]. intros [|g x] [Hl Hb]; [discriminate|].
    apply Forall_cons in Hb as [Hg _]. unfold px_ok, byte in *; simpl; lia.
  - apply Forall_map. eapply Forall_impl; [exact Hbin|]. intros row Hrow.
    apply Forall_map. eapply Forall_impl; [exact Hrow|].
    intros x [-> | ->]; unfold binary_px; auto.
Qed.

(** [cv.imshow(cv.imread(canvas))] gives the canvas back. *)
Lemma recognition_standard_id c :
  width c <> 0 -> height c <> 0 -> recognition_image c Standard = Some c.
Proof.
  intros Hw Hh. unfold recognition_image.
  destruct (imshow_imread c Hw Hh) as (m & -> & Hm). by rewrite Hm.
Qed.

(** C26. The canvas size of the crop, computed in binary64 as the script
    does ([videoWidth * 0.8], [videoHeight * 0.3], truncated to
    [unsigned long]), is the exact floor of 4/5 of the width and 3/10 of
    the height, for every frame up to 8192 x 8192 pixels. *)
Theorem canvas_size_exact (w h : Z) :
  0 <= w <= 8192 -> 0 <= h <= 8192 ->
  canvas_width w = 4 * w / 5 /\ canvas_height h = 3 * h / 10.
Proof. intros Hw Hh. split; [by apply canvas_width_floor | by apply canvas_height_floor]. Qed.

(** [preprocessImage] throws (through [cv.imread] on an empty canvas)
    exactly when the video is narrower than 2 pixels or lower than 4
    pixels, in particular when the video has no frame yet (size 0). *)
Theorem preprocess_fails_small_frames (v : video) :
  0 <= videoWidth v <= 8192 -> 0 <= videoHeight v <= 8192 ->
  preprocessImage v = None <-> videoWidth v <= 1 \/ videoHeight v <= 3.
Proof.
  intros Hw Hh. by rewrite preprocess_none_iff, canvas_empty_iff.
Qed.

(** After [preprocessImage] the canvas has the crop's size and holds
    only opaque black and opaque white pixels. *)
Theorem preprocess_binary (v : video) (c : canvas) :
  preprocessImage v = Some c ->
  wf_canvas c /\ width c = canvas_width (videoWidth v) /\
  height c = canvas_height (videoHeight v) /\ Forall (Forall binary_px) (pixels c).
Proof.
  intros Hp. destruct (preprocess_pixels _ _ Hp) as (Hwf & _ & _ & Hbin).
  destruct (preprocess_some _ _ Hp) as (t & -> & Hty & _ & Hw & Hh & _).
  by split_and!.
Qed.

(** The first recognition attempt reads the preprocessed canvas
    unchanged: [cv.imshow(cv.imread(canvas))] is the canvas. *)
Theorem standard_image_unchanged (v : video) (c : canvas) :
  preprocessImage v = Some c -> recognition_image c Standard = Some c.
Proof.
  intros Hp. destruct (preprocess_pixels _ _ Hp) as (_ & Hw & Hh & _).
  by apply recognition_standard_id.
Qed.

(** C40. The retry image of the second attempt is [cv.bitwise_not] of
    the RGBA matrix read back from the canvas: every channel is
    complemented, the alpha channel included, so the image handed to the
    OCR engine is fully transparent (alpha 0 on every pixel), not only
    colour-inverted. *)
Theorem inverted_image_transparent (v : video) (c : canvas) :
  preprocessImage v = Some c ->
  exists c', recognition_image c Inverted = Some c' /\
    width c' = width c /\ height c' = height c /\
    pixels c' = map (map invert_px) (pixels c) /\
    Forall (Forall (fun q => alpha q = 0)) (pixels c').
Proof.
  intros Hp. destruct (preprocess_pixels _ _ Hp) as (Hwf & Hw' & Hh' & Hbin).
  unfold recognition_image. rewrite imread_some by done.
  eexists. split; [reflexivity|]. simpl. split_and!; try done.
  - rewrite !map_map. apply map_ext_Forall. destruct Hwf as [_ Hrows].
    eapply Forall_impl; [exact Hrows|]. intros row [_ Hrow].
    rewrite !map_map. apply map_ext_Forall. eapply Forall_impl; [exact Hrow|].
    intros p Hp'. by apply not_channels.
  - rewrite !map_map. apply Forall_map. eapply Forall_impl; [exact Hbin|].
    intros row Hrow. rewrite !map_map. apply Forall_map.
    eapply Forall_impl; [exact Hrow|]. intros p [-> | ->]; reflexivity.
Qed.

End Pipeline.

(** ** Witnesses, on a small uniform frame *)

Lemma uniform_grid_wf (p : px) (w h : Z) :
  px_ok p -> 0 <= w -> 0 <= h -> wf_grid px_ok w h (replicate (Z.to_nat h) (replicate (Z.to_nat w) p)).
Proof.
  intros Hp Hw Hh. split; [rewrite length_replicate; lia|].
  apply Forall_replicate. split; [rewrite length_replicate; lia|]. by apply Forall_replicate.
Qed.

Definition uniform_video (vw vh : Z) (p : px) (Hp : px_ok p) : video :=
  Video vw vh (fun _ w h => replicate (Z.to_nat h) (replicate (Z.to_nat w) p))
    (fun _ w h Hw Hh => uniform_grid_wf p w h Hp Hw Hh).

Lemma grey_ok : px_ok (Px 200 120 40 255).
Proof. unfold px_ok, byte; simpl; lia. Qed.

Definition sample_frame : video := uniform_video 10 20 (Px 200 120 40 255) grey_ok.
Definition no_frame : video := uniform_video 0 0 (Px 200 120 40 255) grey_ok.

Lemma canvas_size_exact_witness : canvas_width 640 = 512 /\ canvas_height 480 = 144.
Proof. apply canvas_size_exact; lia. Defined.

Lemma preprocess_fails_small_frames_witness : preprocessImage no_frame = None.
Proof. apply (proj2 (preprocess_fails_small_frames no_frame ltac:(simpl; lia) ltac:(simpl; lia))).
  simpl. lia. Defined.

Lemma preprocess_binary_witness :
  exists c, preprocessImage sample_frame = Some c /\ Forall (Forall binary_px) (pixels c).
Proof.
  destruct (preprocessImage sample_frame) as [c|] eqn:E; [|vm_compute in E; discriminate].
  exists c. split; [done|]. apply (preprocess_binary sample_frame c E).
Defined.

Lemma inverted_image_transparent_witness :
  exists c c', preprocessImage sample_frame = Some c /\ recognition_image c Inverted = Some c' /\
    Forall (Forall (fun q => alpha q = 0)) (pixels c').
Proof.
  destruct (preprocessImage sample_frame) as [c|] eqn:E; [|vm_compute in E; discriminate].
  destruct (inverted_image_transparent sample_frame c E) as (c' & H1 & _ & _ & _ & H2).
  exists c, c'. exact (conj eq_refl (conj H1 H2)).
Defined.

End Imaging.
