(* ===== verification/Recognition.v ===== *)
(** The OCR recognition pipeline of the scan page:
    [runRecognitionPipeline], [runSingleRecognition], [handleSuccess]
    and [handleFailure] (src/public/js/scan.js, lines 133-180).

    The functions are written in the writer monad [Wr effect]: each
    returns its outcome together with the effects it performs (status
    messages, sounds, calls to the OCR engine, the scheduled
    navigation).  The OCR engine ([tesseractWorker.recognize]) is the
    Section variable [recognize]; its answer is a text with the mean
    confidence (an integer, Tesseract's [MeanTextConf]) or a rejected
    promise.  The abstract specification [first_accepted] says what the
    pipeline promises: the first attempt, in the order standard then
    inverted, whose code is found with confidence above 60. *)

From S2P Require Import Prelude JsString CodeExtractor Imaging.

Module Recognition.
Import CodeExtractor Imaging.
Local Open Scope inv_scope.

(** ** Effects shared by the scan page *)

Inductive sound := successSound | errorSound.

Inductive found_kind := QrCodeFound | TextFound.

(** The messages the page writes into [statusDiv]. *)
Inductive status_msg :=
  | InitializingEngine                (* line 18 *)
  | EngineReady                       (* line 33 *)
  | CouldNotStartQr                   (* line 68 *)
  | CouldNotStartCamera               (* line 83 *)
  | AnalyzingAttempt1                 (* line 134 *)
  | RetryingInverted                  (* line 138 *)
  | Found (k : found_kind) (code : jsstr)  (* line 173 *)
  | NotRecognized.                    (* line 179 *)

Inductive effect :=
  | PlaySound (s : sound)
  | SetStatus (m : status_msg)
  | OcrCall (s : strategy) (image : canvas)
  | Navigate (delay_ms : Z) (url : jsstr).

(** The engine's answer to [recognize(image)]. *)
Inductive ocr_outcome := OcrResult (text : jsstr) (confidence : Z) | OcrError.

Inductive attempt := Accept (code : jsstr) | Reject.

(** The outcome of a pipeline run: [Aborted] is an exception escaping
    the pipeline (from [cv.imread], outside the [try] of line 153). *)
Inductive scan_result := ScanSuccess (code : jsstr) | ScanFailure | Aborted.

Definition details_url (code : jsstr) : jsstr := js "/details.html?code=" ++ code.

(** Lines 170-175. *)
Definition handleSuccess (code : jsstr) (k : found_kind) : Wr effect unit :=
  do* tell (PlaySound successSound) in
  do* tell (SetStatus (Found k code)) in
  tell (Navigate 500 (details_url code)).

(** Lines 177-180. *)
Definition handleFailure : Wr effect unit :=
  do* tell (PlaySound errorSound) in
  tell (SetStatus NotRecognized).

(** Lines 157-158: the acceptance rule. *)
Definition accept (o : ocr_outcome) : attempt :=
  match o with
  | OcrResult text confidence =>
      match findProductCode text with
      | Some code => if 60 <? confidence then Accept code else Reject
      | None => Reject
      end
  | OcrError => Reject
  end.

Section Pipeline.
Context `{CvFilters}.
Variable recognize : canvas -> ocr_outcome.

(** Lines 145-162.  [None]: [cv.imread] threw. *)
Definition runSingleRecognition (c : canvas) (s : strategy) : Wr effect (option attempt) :=
  match recognition_image c s with
  | None => wret None
  | Some img => do* tell (OcrCall s img) in wret (Some (accept (recognize img)))
  end.

(** Lines 133-143. *)
Definition runRecognitionPipeline (c : canvas) : Wr effect scan_result :=
  do* tell (SetStatus AnalyzingAttempt1) in
  let* r := runSingleRecognition c Standard in
  match r with
  | None => wret Aborted
  | Some (Accept code) => do* handleSuccess code TextFound in wret (ScanSuccess code)
  | Some Reject =>
      do* tell (SetStatus RetryingInverted) in
      let* r2 := runSingleRecognition c Inverted in
      match r2 with
      | None => wret Aborted
      | Some (Accept code) => do* handleSuccess code TextFound in wret (ScanSuccess code)
      | Some Reject => do* handleFailure in wret ScanFailure
      end
  end.

End Pipeline.

(** ** The abstract specification *)

(** The first accepted attempt of a list of engine answers, in order. *)
Fixpoint first_accepted (os : list ocr_outcome) : scan_result :=
  match os with
  | [] => ScanFailure
  | o :: os' => match accept o with Accept code => ScanSuccess code | Reject => first_accepted os' end
  end.

(** The engine calls of a trace, by strategy. *)
Definition ocr_calls (l : list effect) : list strategy :=
  omap (fun e => match e with OcrCall s _ => Some s | _ => None end) l.

Definition sounds (l : list effect) : list sound :=
  omap (fun e => match e with PlaySound s => Some s | _ => None end) l.

Definition navigations (l : list effect) : list jsstr :=
  omap (fun e => match e with Navigate _ u => Some u | _ => None end) l.

(** ** Properties of the pipeline *)

Section Properties.
Context `{CvFilters}.
Variable recognize : canvas -> ocr_outcome.

(** The pipeline's run by cases: [cv.imread] fails, or the first
    attempt accepts, or the second does, or neither. *)
Ltac pipeline_cases c :=
  unfold runRecognitionPipeline, runSingleRecognition, recognition_image,
    handleSuccess, handleFailure;
  destruct (imread c) as [m|]; simpl;
  [ destruct (accept (recognize (imshow m))) as [?code1|]; simpl;
    [| destruct (accept (recognize (imshow (bitwise_not m)))) as [?code2|]; simpl ] | ].

Lemma accept_valid o code : accept o = Accept code -> valid_code code.
Proof.
  destruct o as [text conf|]; simpl; [|discriminate].
  unfold findProductCode. destruct (first_match (clean_text text)) as [w|] eqn:E;
    simpl; [|discriminate].
  destruct (60 <? conf); [|discriminate]. intros [= <-].
  by eapply first_match_valid.
Qed.

(** C2. Refinement: on a canvas that [cv.imread] accepts, the pipeline
    returns the first accepted attempt among the standard image and
    the inverted image, in this order, and fails when neither attempt
    finds a code with confidence above 60. *)
Theorem pipeline_refines (c : canvas) :
  width c <> 0 -> height c <> 0 ->
  exists img1 img2,
    recognition_image c Standard = Some img1 /\ recognition_image c Inverted = Some img2 /\
    fst (runRecognitionPipeline recognize c) = first_accepted [recognize img1; recognize img2].
Proof.
  intros Hw Hh. unfold recognition_image. rewrite imread_some by done.
  do 2 eexists. split_and!; [reflexivity | reflexivity|].
  unfold runRecognitionPipeline, runSingleRecognition, recognition_image,
    handleSuccess, handleFailure.
  rewrite imread_some by done. simpl.
  destruct (accept (recognize _)); simpl; [done|].
  destruct (accept (recognize _)); done.
Qed.

(** C10. The pipeline calls the engine at most twice, the standard image
    first: its engine calls are a prefix of [standard; inverted], and a
    failed run made both calls. *)
Theorem pipeline_bounded_calls (c : canvas) :
  prefix (ocr_calls (snd (runRecognitionPipeline recognize c))) [Standard; Inverted] /\
  (fst (runRecognitionPipeline recognize c) = ScanFailure ->
   ocr_calls (snd (runRecognitionPipeline recognize c)) = [Standard; Inverted]).
Proof.
  pipeline_cases c; split; try done; try (by eexists);
    try (by exists [Inverted]); by exists [Standard; Inverted].
Qed.

(** Every code the pipeline reports is a valid product code. *)
Theorem pipeline_success_valid (c : canvas) (code : jsstr) :
  fst (runRecognitionPipeline recognize c) = ScanSuccess code -> valid_code code.
Proof.
  unfold runRecognitionPipeline, runSingleRecognition, recognition_image,
    handleSuccess, handleFailure.
  destruct (imread c) as [m|]; simpl; [|discriminate].
  destruct (accept (recognize (imshow m))) as [code1|] eqn:E1; simpl.
  - intros [= <-]. by eapply accept_valid.
  - destruct (accept (recognize (imshow (bitwise_not m)))) as [code2|] eqn:E2; simpl;
      [intros [= <-]; by eapply accept_valid | discriminate].
Qed.

(** The user's feedback: a success plays the success sound once and
    schedules one navigation, to the details page of the code; a
    failure plays the error sound once and navigates nowhere. *)
Theorem pipeline_feedback (c : canvas) :
  match runRecognitionPipeline recognize c with
  | (ScanSuccess code, l) => sounds l = [successSound] /\ navigations l = [details_url code]
  | (ScanFailure, l) => sounds l = [errorSound] /\ navigations l = []
  | (Aborted, l) => sounds l = [] /\ navigations l = []
  end.
Proof. pipeline_cases c; done. Qed.

End Properties.

(** ** The example of the specification *)

(** An engine whose standard pass reads "ITEM9" with confidence 55 and
    whose pass on the inverted (transparent) image reads it with
    confidence 75. *)
Definition demo_engine (img : canvas) : ocr_outcome :=
  match pixels img with
  | (p :: _) :: _ => if alpha p =? 0 then OcrResult (js "ITEM9") 75 else OcrResult (js "ITEM9") 55
  | _ => OcrError
  end.

Lemma pipeline_refines_witness :
  fst (runRecognitionPipeline demo_engine (imshow (Mat CV_8UC1 1 1 [[[255]]]))) = ScanSuccess (js "ITEM9").
Proof.
  destruct (pipeline_refines demo_engine (imshow (Mat CV_8UC1 1 1 [[[255]]])) ltac:(discriminate)
    ltac:(discriminate)) as (img1 & img2 & H1 & H2 & ->).
  vm_compute in H1, H2. injection H1 as <-. injection H2 as <-. vm_compute. reflexivity.
Defined.

Lemma pipeline_success_valid_witness : valid_code (js "ITEM9").
Proof.
  apply (pipeline_success_valid demo_engine (imshow (Mat CV_8UC1 1 1 [[[255]]]))).
  vm_compute. reflexivity.
Defined.

(** An engine that throws on every image: both attempts fail. *)
Lemma pipeline_bounded_calls_witness :
  ocr_calls (snd (runRecognitionPipeline (fun _ => OcrError) (imshow (Mat CV_8UC1 1 1 [[[255]]]))))
  = [Standard; Inverted].
Proof.
  apply (proj2 (pipeline_bounded_calls (fun _ => OcrError) (imshow (Mat CV_8UC1 1 1 [[[255]]])))).
  vm_compute. reflexivity.
Defined.

End Recognition.
