(* ===== verification/ProductApi.v ===== *)
(** The product table behind the REST API of src/server.js.

    The server keeps one MySQL table, [products]; each route handler
    runs one or two queries on it and answers with JSON.  The table is a
    list of rows in primary-key order ([rows]) with the table's
    [AUTO_INCREMENT] counter; every handler is a function
    [db -> db * response] translating its queries in order, and [serve]
    dispatches a request to its handler as the Express routes do.  The
    product code of a row is generated by POST /api/add-product from the
    row's id ("ITEM" and the id padded to four digits); the scan, audit
    and details pages look rows up by that code.

    The invariant [wf_db] (ids strictly increasing and below the
    counter, every code the generated code of its row or still NULL) is
    preserved by every request; from it follow the uniqueness of codes,
    the round trip add-product / GET /api/product/:code, and the
    agreement of generated codes with the scan page's extractor.

    The SQL condition of the 30-day warranty window (it reads the
    server's clock) is the section variable [expiring] of the handlers;
    [ORDER BY warranty_date] is a merge sort on the formatted dates.
    The lists the pages read off the answers ([listed], [trash_list],
    [warranty_list]) and how restore and delete change the trash list
    are proved here for the page models. *)

From stdpp Require Import sorting.
From S2P Require Import Prelude JsString CodeExtractor.
Import CodeExtractor.

Module ProductApi.

(** ** Rows and the table *)

(** A row of [products].  Nullable columns are [option]s ([None] is SQL
    NULL).  [status] is [None] while it holds the schema's default (the
    handlers only ever write "Damaged"). *)
Record product := Product {
  id : nat;
  product_code : option jsstr;
  name : option jsstr;
  category : option jsstr;
  purchase_date : option jsstr;
  warranty_date : option jsstr;
  invoice_path : option jsstr;
  notes : option jsstr;
  status : option jsstr;
  is_deleted : bool
}.

Record db := Db { rows : list product; auto_increment : nat }.

(** A fresh table: no rows, the counter at 1. *)
Definition empty_db : db := Db [] 1.

(** The multipart form of add.html and edit.html ([req.body]); an
    absent field is [None] (JavaScript [undefined]). *)
Record product_form := Form {
  f_name : option jsstr;
  f_category : option jsstr;
  f_purchaseDate : option jsstr;
  f_warrantyDate : option jsstr;
  f_notes : option jsstr;
  f_existingInvoice : option jsstr
}.

(** Responses, by their JSON body. *)
(** The columns the list endpoints select: [id, product_code, name,
    category]. *)
Abbreviation summary_row := (nat * option jsstr * option jsstr * option jsstr)%type.

(** The columns [/api/products/expiring-soon] selects: [id,
    product_code, name, category, status] and the formatted
    [warranty_date]. *)
Abbreviation warranty_row :=
  (nat * option jsstr * option jsstr * option jsstr * option jsstr * option jsstr)%type.

Inductive response :=
  | JsonStats (totalItems trashItems expiringSoon : nat)
  | JsonCodes (codes : list (option jsstr))
  | JsonSummaries (l : list summary_row)
  | JsonProduct (p : product)
  | JsonWarranty (l : list warranty_row)
  | JsonAdded (code : jsstr)
  | JsonSuccess
  | Error400 (msg : jsstr)
  | Error404 (msg : jsstr).

(** ** Column updates *)

Definition set_code c r := Product (id r) (Some c) (name r) (category r) (purchase_date r) (warranty_date r) (invoice_path r) (notes r) (status r) (is_deleted r).
Definition set_deleted b r := Product (id r) (product_code r) (name r) (category r) (purchase_date r) (warranty_date r) (invoice_path r) (notes r) (status r) b.
Definition set_status st r := Product (id r) (product_code r) (name r) (category r) (purchase_date r) (warranty_date r) (invoice_path r) (notes r) (Some st) (is_deleted r).
Definition set_fields n c pd wd nt inv r := Product (id r) (product_code r) n c pd wd inv nt (status r) (is_deleted r).

(** [UPDATE products SET ... WHERE P]. *)
Definition update_where (P : product -> bool) (f : product -> product) (d : db) : db :=
  Db (map (fun r => if P r then f r else r) (rows d)) (auto_increment d).

(** [WHERE id = ?]. *)
Definition with_id (i : nat) (r : product) : bool := Nat.eqb (id r) i.

(** [WHERE id IN (?)]. *)
Definition id_in (ids : list nat) (r : product) : bool := bool_decide (id r ∈ ids).

(** ** Helpers of the handlers *)

(** [x || null] on a form field. *)
Definition or_null (x : option jsstr) : option jsstr :=
  match x with Some (_ :: _) => x | _ => None end.

(** [`uploads/${req.file.filename}`] when a file was uploaded. *)
Definition uploaded_path (file : option jsstr) : option jsstr :=
  option_map (fun f => js "uploads/" ++ f) file.

(** [`ITEM${String(result.insertId).padStart(4, '0')}`]. *)
Definition gen_code (insertId : nat) : jsstr :=
  js "ITEM" ++ pad_start 4 48 (decimal (Z.of_nat insertId)).

(** The columns the list endpoints select: [id, product_code, name,
    category]. *)
Definition summary (r : product) := (id r, product_code r, name r, category r).

(** ** Handlers *)

(** A row of the warranty list, and the order of [ORDER BY
    warranty_date ASC] on the [%Y-%m-%d] strings. *)
Definition warranty_of (r : product) : warranty_row :=
  (id r, product_code r, name r, category r, status r, warranty_date r).

Definition date_key (w : warranty_row) : jsstr :=
  match w.2 with Some s => s | None => [] end.

Definition date_le (a b : warranty_row) : Prop := str_leb (date_key a) (date_key b) = true.

#[export] Instance date_le_dec : RelDecision date_le.
Proof. intros a b. unfold date_le. apply _. Defined.

Section Handlers.
(** [warranty_date BETWEEN CURDATE() AND DATE_ADD(CURDATE(), INTERVAL
    30 DAY)], which depends on the server's clock. *)
Variable expiring : product -> bool.

(** GET /api/dashboard-stats (lines 31-48). *)
Definition dashboard_stats (d : db) : db * response :=
  let live := List.filter (fun r => negb (is_deleted r)) (rows d) in
  (d, JsonStats (length live) (length (List.filter is_deleted (rows d)))
                (length (List.filter expiring live))).

(** GET /api/products/expiring-soon (lines 51-64): the live rows whose
    warranty ends within 30 days, by warranty date.  SQL leaves the
    order of rows with the same date open; the model takes the one of
    a merge sort, and the theorems hold for any. *)
Definition expiring_soon (d : db) : db * response :=
  (d, JsonWarranty (merge_sort date_le
        (map warranty_of (List.filter (fun r => negb (is_deleted r) && expiring r) (rows d))))).

(** POST /api/products/batch-update (lines 67-96): the body is checked,
    the codes of the selected rows are read, then the rows are
    updated; the codes are the answer. *)
Definition batch_update (action : option jsstr) (ids : option (list nat)) (d : db)
    : db * response :=
  match action, ids with
  | Some ((_ :: _) as a), Some ((_ :: _) as l) =>
      let upd := if bool_decide (a = js "delete") then Some (set_deleted true)
                 else if bool_decide (a = js "mark_damaged") then Some (set_status (js "Damaged"))
                 else None in
      match upd with
      | None => (d, Error400 (js "Invalid action."))
      | Some f =>
          let productCodes := map product_code (List.filter (id_in l) (rows d)) in
          (update_where (id_in l) f d, JsonCodes productCodes)
      end
  | _, _ => (d, Error400 (js "Invalid request body."))
  end.

(** GET /api/products (lines 99-102): [ORDER BY id DESC] over the rows
    kept in ascending id order. *)
Definition get_products (d : db) : db * response :=
  (d, JsonSummaries (map summary (rev (List.filter (fun r => negb (is_deleted r)) (rows d))))).

(** GET /api/product/:code (lines 105-113): the first row in table
    order with that code that is not in the trash. *)
Definition get_product (code : jsstr) (d : db) : db * response :=
  match List.find (fun r => bool_decide (product_code r = Some code) && negb (is_deleted r)) (rows d) with
  | Some r => (d, JsonProduct r)
  | None => (d, Error404 (js "Product not found"))
  end.

(** POST /api/add-product (lines 116-123): the [INSERT] takes the next
    id of the counter and leaves [product_code] NULL; the [UPDATE] then
    writes the code generated from the id. *)
Definition insert_row (f : product_form) (file : option jsstr) (d : db) : db * nat :=
  let i := auto_increment d in
  let invoicePath := match uploaded_path file with Some p => p | None => [] end in
  let r := Product i None (f_name f) (f_category f) (or_null (f_purchaseDate f))
             (or_null (f_warrantyDate f)) (Some invoicePath) (f_notes f) None false in
  (Db (rows d ++ [r]) (S i), i).

Definition add_product (f : product_form) (file : option jsstr) (d : db) : db * response :=
  let '(d1, insertId) := insert_row f file d in
  let code := gen_code insertId in
  (update_where (with_id insertId) (set_code code) d1, JsonAdded code).

(** PUT /api/product/:id (lines 126-135). *)
Definition update_product (i : nat) (f : product_form) (file : option jsstr) (d : db)
    : db * response :=
  let invoicePath := match uploaded_path file with Some p => Some p | None => f_existingInvoice f end in
  (update_where (with_id i)
     (set_fields (f_name f) (f_category f) (or_null (f_purchaseDate f))
                 (or_null (f_warrantyDate f)) (f_notes f) invoicePath) d, JsonSuccess).

(** GET /api/trash (lines 138-141). *)
Definition get_trash (d : db) : db * response :=
  (d, JsonSummaries (map summary (rev (List.filter is_deleted (rows d))))).

(** PUT /api/product/:id/delete and /restore (lines 144-153). *)
Definition soft_delete (i : nat) (d : db) : db * response :=
  (update_where (with_id i) (set_deleted true) d, JsonSuccess).
Definition restore (i : nat) (d : db) : db * response :=
  (update_where (with_id i) (set_deleted false) d, JsonSuccess).

(** DELETE /api/product/:id (lines 156-159); the counter is kept, so
    ids (and codes) are never reused. *)
Definition delete_product (i : nat) (d : db) : db * response :=
  (Db (List.filter (fun r => negb (with_id i r)) (rows d)) (auto_increment d), JsonSuccess).

Inductive request :=
  | GetStats
  | GetExpiring
  | BatchUpdate (action : option jsstr) (ids : option (list nat))
  | GetProducts
  | GetProduct (code : jsstr)
  | AddProduct (f : product_form) (file : option jsstr)
  | UpdateProduct (i : nat) (f : product_form) (file : option jsstr)
  | GetTrash
  | SoftDelete (i : nat)
  | Restore (i : nat)
  | DeleteProduct (i : nat).

(** The Express routes. *)
Definition serve (d : db) (q : request) : db * response :=
  match q with
  | GetStats => dashboard_stats d
  | GetExpiring => expiring_soon d
  | BatchUpdate a l => batch_update a l d
  | GetProducts => get_products d
  | GetProduct c => get_product c d
  | AddProduct f file => add_product f file d
  | UpdateProduct i f file => update_product i f file d
  | GetTrash => get_trash d
  | SoftDelete i => soft_delete i d
  | Restore i => restore i d
  | DeleteProduct i => delete_product i d
  end.

End Handlers.

(** The lists the pages read off the answers: [/api/products],
    [/api/trash] and [/api/products/expiring-soon]. *)
Definition listed (d : db) : list summary_row :=
  match snd (get_products d) with JsonSummaries l => l | _ => [] end.

Definition trash_list (d : db) : list summary_row :=
  match snd (get_trash d) with JsonSummaries l => l | _ => [] end.

Definition warranty_list (expiring : product -> bool) (d : db) : list warranty_row :=
  match snd (expiring_soon expiring d) with JsonWarranty l => l | _ => [] end.

(** ** Generated codes

    A generated code is read back by [digits_value] of [JsString]:
    leading zeros add nothing, so the padded id is read as the id. *)
(** The digits of a generated code read back as the id. *)
Lemma gen_code_digits n :
  gen_code n = js "ITEM" ++ pad_start 4 48 (decimal (Z.of_nat n)) /\
  digits_value (pad_start 4 48 (decimal (Z.of_nat n))) = Z.of_nat n.
Proof.
  split; [reflexivity|]. unfold pad_start.
  rewrite digits_value_app, digits_value_zeros, decimal_value; lia.
Qed.

Lemma gen_code_inj n m : gen_code n = gen_code m -> n = m.
Proof.
  intros H. unfold gen_code in H. apply app_inv_head in H.
  destruct (gen_code_digits n) as [_ Hn]. destruct (gen_code_digits m) as [_ Hm].
  rewrite H in Hn. lia.
Qed.

Lemma gen_code_valid n : valid_code (gen_code n).
Proof.
  exists (pad_start 4 48 (decimal (Z.of_nat n))). split; [reflexivity|]. split.
  - intros Hnil. pose proof (length_pad_start 4 48 (decimal (Z.of_nat n))) as Hl.
    rewrite Hnil in Hl. simpl in Hl. lia.
  - unfold pad_start. apply Forall_app. split; [by apply Forall_replicate|].
    apply decimal_digits. lia.
Qed.

Lemma gen_code_upper n : Forall (fun u => is_upper u || is_digit u = true) (gen_code n).
Proof.
  destruct (gen_code_valid n) as (k & -> & _ & Hk). apply Forall_app. split.
  - eapply Forall_impl; [apply item_literal_upper|]. intros u ->. done.
  - eapply Forall_impl; [apply Hk|]. intros u ->. apply orb_true_r.
Qed.

Lemma gen_code_nonempty n : gen_code n <> [].
Proof. unfold gen_code. destruct (js "ITEM") eqn:E; [discriminate|done]. Qed.

(** ** The table invariant *)

(** A row's code is the one generated from its id, or still NULL
    (between the two queries of add-product). *)
Definition code_ok (r : product) : Prop :=
  product_code r = None \/ product_code r = Some (gen_code (id r)).

Definition id_lt (a b : product) : Prop := (id a < id b)%nat.

Record wf_db (d : db) : Prop := {
  wf_sorted : StronglySorted id_lt (rows d);
  wf_below : Forall (fun r => (id r < auto_increment d)%nat) (rows d);
  wf_codes : Forall code_ok (rows d)
}.

Lemma empty_db_wf : wf_db empty_db.
Proof. constructor; constructor. Qed.

(** An [UPDATE] that keeps ids and keeps codes well formed keeps the
    invariant. *)
Lemma update_where_wf P f d :
  (forall r, id (f r) = id r) -> (forall r, P r = true -> code_ok r -> code_ok (f r)) ->
  wf_db d -> wf_db (update_where P f d).
Proof.
  intros Hid Hc [Hs Hb Hk].
  assert (Hg : forall r, id (if P r then f r else r) = id r) by (intros r; by destruct (P r)).
  constructor; simpl.
  - apply StronglySorted_map_key; [|done]. intros a b. unfold id_lt. by rewrite !Hg.
  - apply Forall_map. eapply Forall_impl; [exact Hb|]. intros r. by rewrite Hg.
  - apply Forall_map. eapply Forall_impl; [exact Hk|]. intros r Hr.
    destruct (P r) eqn:E; auto.
Qed.

Lemma code_ok_keep f r : product_code (f r) = product_code r -> id (f r) = id r -> code_ok r -> code_ok (f r).
Proof. unfold code_ok. intros -> ->. done. Qed.

Lemma insert_row_wf f file d : wf_db d -> wf_db (fst (insert_row f file d)).
Proof.
  intros [Hs Hb Hk]. constructor; simpl.
  - apply StronglySorted_snoc; [done|]. exact Hb.
  - apply Forall_app. split; [|constructor; [simpl; lia | constructor]].
    eapply Forall_impl; [exact Hb|]. simpl. lia.
  - apply Forall_app. split; [done | constructor; [by left | constructor]].
Qed.

Lemma add_product_wf f file d : wf_db d -> wf_db (fst (add_product f file d)).
Proof.
  intros Hd. unfold add_product. destruct (insert_row f file d) as [d1 i] eqn:E.
  pose proof (insert_row_wf f file d Hd) as Hd1. rewrite E in Hd1. simpl.
  apply update_where_wf; [done| |done].
  intros r Hr _. unfold with_id in Hr. apply Nat.eqb_eq in Hr. right. simpl. by rewrite Hr.
Qed.

Lemma delete_product_wf i d : wf_db d -> wf_db (fst (delete_product i d)).
Proof.
  intros [Hs Hb Hk]. constructor; simpl.
  - by apply StronglySorted_filter.
  - apply List.Forall_forall. intros r Hr. apply filter_In in Hr as [Hr _].
    by eapply List.Forall_forall in Hb.
  - apply List.Forall_forall. intros r Hr. apply filter_In in Hr as [Hr _].
    by eapply List.Forall_forall in Hk.
Qed.

Lemma batch_update_cases a ids d :
  (exists msg, batch_update a ids d = (d, Error400 msg)) \/
  exists l f, ids = Some l /\ l <> [] /\
    ((a = Some (js "delete") /\ f = set_deleted true) \/
     (a = Some (js "mark_damaged") /\ f = set_status (js "Damaged"))) /\
    batch_update a ids d =
      (update_where (id_in l) f d, JsonCodes (map product_code (List.filter (id_in l) (rows d)))).
Proof.
  unfold batch_update.
  destruct a as [[|c a]|]; [left; by eexists | | left; by eexists].
  destruct ids as [[|i l]|]; [left; by eexists | | left; by eexists].
  set (act := c :: a). set (l' := i :: l).
  destruct (bool_decide (act = js "delete")) eqn:Hdel.
  { apply bool_decide_eq_true in Hdel. right. exists l', (set_deleted true).
    split_and!; [done | done | left; by rewrite Hdel | done]. }
  destruct (bool_decide (act = js "mark_damaged")) eqn:Hdam.
  { apply bool_decide_eq_true in Hdam. right. exists l', (set_status (js "Damaged")).
    split_and!; [done | done | right; by rewrite Hdam | done]. }
  left; by eexists.
Qed.

Lemma batch_update_wf a ids d : wf_db d -> wf_db (fst (batch_update a ids d)).
Proof.
  intros Hd. destruct (batch_update_cases a ids d) as [[msg ->] | (l & f & _ & _ & Hf & ->)]; [done|].
  simpl. apply update_where_wf; [| |done].
  - destruct Hf as [[_ ->]|[_ ->]]; done.
  - intros r _. destruct Hf as [[_ ->]|[_ ->]]; by apply code_ok_keep.
Qed.

(** Two rows of a well-formed table with the same code are the same
    row. *)
Lemma code_ok_unique l r1 r2 c :
  StronglySorted id_lt l -> Forall code_ok l -> In r1 l -> In r2 l ->
  product_code r1 = Some c -> product_code r2 = Some c -> r1 = r2.
Proof.
  intros Hs Hk H1 H2 Hc1 Hc2.
  destruct (proj1 (List.Forall_forall _ _) Hk r1 H1) as [E1|E1]; [congruence|].
  destruct (proj1 (List.Forall_forall _ _) Hk r2 H2) as [E2|E2]; [congruence|].
  assert (Hid : id r1 = id r2) by (apply gen_code_inj; congruence).
  apply (StronglySorted_irrefl_unique id_lt l); unfold id_lt; auto; intros; lia.
Qed.

(** The invariant as a boolean test, to check it on a concrete table. *)
Fixpoint sorted_ids (l : list product) : bool :=
  match l with
  | [] => true
  | r :: l' => forallb (fun r' => Nat.ltb (id r) (id r')) l' && sorted_ids l'
  end.

Definition code_okb (r : product) : bool :=
  match product_code r with None => true | Some c => bool_decide (c = gen_code (id r)) end.

Definition wf_dbb (d : db) : bool :=
  sorted_ids (rows d) && forallb (fun r => Nat.ltb (id r) (auto_increment d)) (rows d) &&
  forallb code_okb (rows d).

Lemma sorted_ids_spec l : sorted_ids l = true -> StronglySorted id_lt l.
Proof.
  induction l as [|r l IH]; simpl; intros H; [constructor|].
  apply andb_true_iff in H as [H1 H2]. constructor; [auto|].
  apply List.Forall_forall. intros r' Hr'. eapply forallb_forall in H1; [|exact Hr'].
  by apply Nat.ltb_lt.
Qed.

Lemma wf_dbb_spec d : wf_dbb d = true -> wf_db d.
Proof.
  unfold wf_dbb. intros H. apply andb_true_iff in H as [H H3]. apply andb_true_iff in H as [H1 H2].
  constructor; [by apply sorted_ids_spec| |];
    apply List.Forall_forall; intros r Hr; [eapply forallb_forall in H2 | eapply forallb_forall in H3];
    try exact Hr.
  - by apply Nat.ltb_lt.
  - unfold code_okb, code_ok in *. destruct (product_code r); [right | by left].
    by rewrite (bool_decide_eq_true_1 _ H3).
Qed.

Lemma restore_wf i d : wf_db d -> wf_db (fst (restore i d)).
Proof. intros Hd. apply update_where_wf; [done | intros r _; by apply code_ok_keep | done]. Qed.

Lemma sorted_ids_nodup l : StronglySorted id_lt l -> NoDup (map id l).
Proof.
  induction 1 as [|r l _ IH Hr]; simpl; constructor; [|done].
  rewrite list_elem_of_In, in_map_iff. intros (r' & Hid & Hin).
  eapply List.Forall_forall in Hr; [|exact Hin]. unfold id_lt in Hr. lia.
Qed.

(** The id of a row of a list answer. *)
Definition summary_id (s : summary_row) : nat := s.1.1.1.

Lemma filter_map_summary (P : nat -> bool) l :
  List.filter (fun s => P (summary_id s)) (map summary l) = map summary (List.filter (fun r => P (id r)) l).
Proof.
  induction l as [|r l IH]; simpl; [done|]. change (summary_id (summary r)) with (id r).
  destruct (P (id r)); simpl; by rewrite IH.
Qed.

(** Restoring or deleting id [i] takes exactly the rows of id [i] out of
    the trash list. *)
Lemma trash_list_restore i d :
  trash_list (fst (restore i d)) = List.filter (fun s => negb (Nat.eqb (summary_id s) i)) (trash_list d).
Proof.
  unfold trash_list, restore, get_trash, update_where; cbn [fst snd rows].
  rewrite (filter_map_summary (fun n => negb (Nat.eqb n i))), filter_rev. do 2 f_equal.
  unfold with_id. induction (rows d) as [|r l IH]; simpl; [done|].
  destruct (Nat.eqb (id r) i) eqn:E; simpl; rewrite ?E; destruct (is_deleted r); simpl;
    rewrite ?E; cbn [negb]; by rewrite IH.
Qed.

Lemma trash_list_delete i d :
  trash_list (fst (delete_product i d)) = List.filter (fun s => negb (Nat.eqb (summary_id s) i)) (trash_list d).
Proof.
  unfold trash_list, delete_product, get_trash; cbn [fst snd rows].
  rewrite (filter_map_summary (fun n => negb (Nat.eqb n i))), filter_rev. do 2 f_equal. unfold with_id.
  induction (rows d) as [|r l IH]; simpl; [done|].
  destruct (Nat.eqb (id r) i) eqn:E, (is_deleted r) eqn:D; simpl; rewrite ?E, ?D; simpl;
    rewrite ?E, ?D; by rewrite ?IH.
Qed.

Lemma trash_list_nodup d : wf_db d -> NoDup (map summary_id (trash_list d)).
Proof.
  intros [Hs _ _]. unfold trash_list, get_trash; cbn [snd].
  rewrite map_map, map_rev. apply NoDup_ListNoDup, NoDup_rev, NoDup_ListNoDup.
  change (fun x => summary_id (summary x)) with id.
  by apply NoDup_map_filter, sorted_ids_nodup.
Qed.

(** The row [add_product] appends, with its generated code. *)
Lemma add_product_rows (f : product_form) (file : option jsstr) (d : db) :
  wf_db d ->
  rows (fst (add_product f file d)) =
  rows d ++ [Product (auto_increment d) (Some (gen_code (auto_increment d))) (f_name f) (f_category f)
               (or_null (f_purchaseDate f)) (or_null (f_warrantyDate f))
               (Some (match uploaded_path file with Some p => p | None => [] end))
               (f_notes f) None false].
Proof.
  intros [Hs Hb Hk]. unfold add_product, insert_row. simpl. rewrite map_app. f_equal.
  - apply map_id_on. intros x Hx. unfold with_id.
    pose proof (proj1 (List.Forall_forall _ _) Hb x Hx) as Hlt. simpl in Hlt.
    by rewrite (proj2 (Nat.eqb_neq (id x) (auto_increment d))) by lia.
  - simpl. unfold with_id. by rewrite Nat.eqb_refl.
Qed.

(** In a well-formed table, [GET /api/product/:code] finds the live row
    carrying the code. *)
Lemma get_product_live (d : db) (r : product) (c : jsstr) :
  wf_db d -> In r (rows d) -> is_deleted r = false -> product_code r = Some c ->
  get_product c d = (d, JsonProduct r).
Proof.
  intros [Hs _ Hk] Hr Hdel Hc. unfold get_product.
  destruct (List.find _ _) as [x|] eqn:E.
  - apply find_some in E as [Hx Hp]. apply andb_true_iff in Hp as [Hp _].
    apply bool_decide_eq_true in Hp. by rewrite (code_ok_unique (rows d) x r c).
  - eapply find_none in E; [|exact Hr]. by rewrite Hc, bool_decide_true, Hdel in E.
Qed.

(** ** Properties of the API *)

(** C4. Every request keeps the table well formed: ids increase along
    the table and stay below the [AUTO_INCREMENT] counter, and every
    product code is the one generated from its row's id (or NULL while
    add-product is between its two queries). *)
Theorem serve_wf (expiring : product -> bool) (d : db) (q : request) :
  wf_db d -> wf_db (fst (serve expiring d q)).
Proof.
  intros Hd. destruct q; simpl;
    try done;
    try (unfold get_product; by case_match);
    try (apply update_where_wf; [done | intros r _; by apply code_ok_keep | done]).
  - by apply batch_update_wf.
  - by apply add_product_wf.
  - by apply delete_product_wf.
Qed.

(** Product codes are unique: two rows of a well-formed table with
    the same code are the same row, so a code names one product. *)
Theorem product_codes_unique (d : db) (r1 r2 : product) (c : jsstr) :
  wf_db d -> In r1 (rows d) -> In r2 (rows d) ->
  product_code r1 = Some c -> product_code r2 = Some c -> r1 = r2.
Proof. intros [Hs _ Hk]. by apply code_ok_unique. Qed.

(** C17. Every generated code is a code the scanners accept: the scan
    page's [findProductCode] returns it unchanged, it passes the audit
    page's [startsWith("ITEM")] filter, and it determines the id it was
    generated from. *)
Theorem gen_code_read_back (n : nat) :
  findProductCode (gen_code n) = Some (gen_code n) /\
  starts_with (js "ITEM") (gen_code n) = true /\
  (forall m, gen_code m = gen_code n -> m = n).
Proof.
  split_and!.
  - apply findProductCode_code, gen_code_valid.
  - reflexivity.
  - intros m. apply gen_code_inj.
Qed.

(** C5. Round trip add-product / lookup: on a well-formed table,
    POST /api/add-product appends the row with the next id and the code
    generated from it, answers that code, and GET /api/product/:code
    with the answered code returns exactly the new row. *)
Theorem add_product_lookup (f : product_form) (file : option jsstr) (d : db) :
  wf_db d ->
  let i := auto_increment d in
  let r := Product i (Some (gen_code i)) (f_name f) (f_category f)
             (or_null (f_purchaseDate f)) (or_null (f_warrantyDate f))
             (Some (match uploaded_path file with Some p => p | None => [] end))
             (f_notes f) None false in
  exists d', add_product f file d = (d', JsonAdded (gen_code i)) /\
    rows d' = rows d ++ [r] /\ get_product (gen_code i) d' = (d', JsonProduct r).
Proof.
  intros Hwf i r. exists (fst (add_product f file d)). split; [reflexivity|].
  split; [by apply add_product_rows|].
  apply get_product_live; [by apply add_product_wf| |done..].
  rewrite add_product_rows by done. apply in_app_iff. right. by left.
Qed.

(** A batch request the handler accepts: a non-empty id array and one
    of the two actions. *)
Definition batch_request_ok (a : option jsstr) (ids : option (list nat)) : Prop :=
  (exists l, ids = Some l /\ l <> []) /\ (a = Some (js "delete") \/ a = Some (js "mark_damaged")).

Lemma js_delete_mark_damaged : js "mark_damaged" <> js "delete".
Proof. intros H. vm_compute in H. discriminate H. Qed.

(** C25. POST /api/products/batch-update answers 400 and leaves the table
    unchanged exactly when the body is not a non-empty id array with
    one of the actions "delete" and "mark_damaged". *)
Theorem batch_update_validation (a : option jsstr) (ids : option (list nat)) (d : db) :
  (exists msg, batch_update a ids d = (d, Error400 msg)) <-> ~ batch_request_ok a ids.
Proof.
  split.
  - intros [msg Hm] [(l & -> & Hl) Ha]. destruct l as [|i l]; [done|].
    unfold batch_update in Hm.
    destruct Ha as [-> | ->].
    + rewrite bool_decide_true in Hm by done. discriminate Hm.
    + rewrite bool_decide_false in Hm by apply js_delete_mark_damaged.
      rewrite bool_decide_true in Hm by done. discriminate Hm.
  - intros Hn. destruct (batch_update_cases a ids d) as [Hm | (l & f & Hl & Hne & Hf & _)]; [done|].
    exfalso. apply Hn. split; [by exists l|]. destruct Hf as [[-> _]|[-> _]]; auto.
Qed.

(** C24. A batch delete moves every selected row to the trash, answers
    the code of every selected row, keeps the other rows, and none of
    the answered codes can be looked up afterwards. *)
Theorem batch_delete_hides (d d' : db) (l : list nat) (codes : list (option jsstr)) :
  wf_db d -> batch_update (Some (js "delete")) (Some l) d = (d', JsonCodes codes) ->
  (forall r, In r (rows d) -> id r ∈ l ->
     In (product_code r) codes /\ In (set_deleted true r) (rows d')) /\
  (forall r, In r (rows d) -> id r ∉ l -> In r (rows d')) /\
  (forall c, In (Some c) codes -> get_product c d' = (d', Error404 (js "Product not found"))).
Proof.
  intros [Hs _ Hk] H. destruct l as [|i l]; [discriminate H|].
  unfold batch_update in H. rewrite bool_decide_true in H by done.
  injection H as <- <-. set (L := i :: l).
  assert (Hin : forall r, id r ∈ L -> id_in L r = true) by (intros; by apply bool_decide_eq_true).
  assert (Hout : forall r, id r ∉ L -> id_in L r = false) by (intros; by apply bool_decide_eq_false).
  split_and!.
  - intros r Hr HL. split.
    + apply in_map, filter_In. auto.
    + apply in_map_iff. exists r. by rewrite Hin.
  - intros r Hr HL. apply in_map_iff. exists r. by rewrite Hout.
  - intros c Hc. unfold get_product. simpl.
    rewrite <- (app_nil_r (map _ (rows d))), find_app_none; [done|].
    intros x Hx. apply in_map_iff in Hx as (r & <- & Hr).
    apply in_map_iff in Hc as (r0 & Hc0 & Hr0). apply filter_In in Hr0 as [Hr0 HL0].
    destruct (id_in L r) eqn:E; [by rewrite andb_false_r|].
    apply andb_false_intro1, bool_decide_eq_false. intros Hc1.
    assert (r = r0) as -> by (eapply code_ok_unique; eauto).
    congruence.
Qed.

(** ** Witnesses, on a table built by two add-product requests *)

Definition sample_form : product_form :=
  Form (Some (js "Kettle")) (Some (js "Appliances")) (Some []) None (Some []) None.
Definition one_row : db := fst (add_product sample_form None empty_db).
Definition two_rows : db :=
  fst (add_product sample_form (Some (js "1700000000000-invoice.pdf")) one_row).

Lemma serve_wf_witness :
  wf_db (fst (serve (fun _ => false) two_rows (BatchUpdate (Some (js "delete")) (Some [1%nat])))).
Proof. apply serve_wf, wf_dbb_spec. vm_compute. reflexivity. Defined.

Definition no_row : product := Product 0 None None None None None None None None false.

(** The row holding "ITEM0002", found by position and as the last row. *)
Lemma product_codes_unique_witness :
  nth 1 (rows two_rows) no_row = List.last (rows two_rows) no_row.
Proof.
  apply (product_codes_unique two_rows _ _ (js "ITEM0002") (wf_dbb_spec two_rows eq_refl));
    [vm_compute; right; left; reflexivity | vm_compute; right; left; reflexivity
    | vm_compute; reflexivity | vm_compute; reflexivity].
Defined.

Lemma add_product_lookup_witness :
  exists d' r, add_product sample_form None one_row = (d', JsonAdded (js "ITEM0002")) /\
    get_product (js "ITEM0002") d' = (d', JsonProduct r).
Proof.
  destruct (add_product_lookup sample_form None one_row (wf_dbb_spec one_row eq_refl))
    as (d' & H1 & _ & H2).
  eexists d', _. exact (conj H1 H2).
Defined.

Lemma batch_delete_hides_witness :
  get_product (js "ITEM0001") (fst (batch_update (Some (js "delete")) (Some [1%nat]) two_rows))
  = (fst (batch_update (Some (js "delete")) (Some [1%nat]) two_rows), Error404 (js "Product not found")).
Proof.
  destruct (batch_delete_hides two_rows (fst (batch_update (Some (js "delete")) (Some [1%nat]) two_rows))
              [1%nat] [Some (js "ITEM0001")] (wf_dbb_spec two_rows eq_refl)
              ltac:(vm_compute; reflexivity)) as (_ & _ & H).
  apply H. left. reflexivity.
Defined.

End ProductApi.
