(* ===== verification/AuditPage.v ===== *)
(** The batch audit page, src/public/js/audit.js, and its use of the
    product API.

    The page keeps a JavaScript [Map] [scannedItems] from product code
    to product row; every QR decode that starts with "ITEM" and is not a
    key yet plays the success sound and fetches the row; the answer is
    added under the row's own [product_code] and the table is
    re-rendered.  Selected rows can be marked damaged or deleted in one
    batch request, whose answer (the codes of the updated rows) removes
    them from the map.

    The page is an event handler [handle] on [audit_state]; the two
    kinds of [fetch] are requests in flight ([lookups], [batches]) that
    an answer event resolves, in any order.  [System] composes the page
    with the server model of [ProductApi]: the server answers a request
    in flight by running its handler on the current table. *)

From S2P Require Import Prelude JsString Recognition ProductApi.
From stdpp Require Import gmap sets.
Import Recognition ProductApi.

Module AuditPage.

(** ** A JavaScript [Map] with its insertion order *)

Section JsMap.
Context {K V : Type} `{EqDecision K}.

Definition map_has (k : K) (m : list (K * V)) : bool := bool_decide (k ∈ map fst m).

(** [m.set(k, v)]: a present key keeps its position. *)
Fixpoint map_set (k : K) (v : V) (m : list (K * V)) : list (K * V) :=
  match m with
  | [] => [(k, v)]
  | (k', v') :: m' => if decide (k = k') then (k, v) :: m' else (k', v') :: map_set k v m'
  end.

(** [m.delete(k)]. *)
Definition map_delete (k : K) (m : list (K * V)) : list (K * V) :=
  List.filter (fun kv => negb (bool_decide (kv.1 = k))) m.
End JsMap.

(** ** The page *)

Inductive audit_msg :=
  | MsgFound (text : jsstr)                 (* "Found: ... Fetching details..." *)
  | MsgAdded (name : option jsstr)          (* "Added: ..." *)
  | MsgError (message : jsstr).

Inductive alert :=
  | AlertSelectFirst                        (* line 61 *)
  | AlertUpdated (n : nat)                  (* line 82 *)
  | AlertError (message : jsstr)            (* line 85 *)
  | AlertNoItems.                           (* line 105 *)

Inductive audit_effect :=
  | APlaySound (s : sound)
  | AAlert (a : alert)
  | AFetchProduct (text : jsstr)            (* fetch(`/api/product/${decodedText}`) *)
  | APostBatch (action : jsstr) (ids : list nat)
  | AOpenPrint.                             (* window.open('/print-audit.html') *)

(** The page's variables and the parts of the DOM it reads back: the
    rendered rows, the item count, the checked boxes (by [data-id]),
    the "select all" box, the status line, and the list written to
    [localStorage] for printing. *)
Record audit_state := AuditState {
  scannedItems : list (option jsstr * product);
  rendered : list product;
  itemCount : nat;
  checked : gset nat;
  selectAll : bool;
  a_status : option audit_msg;
  lookups : list jsstr;
  batches : list (jsstr * list nat);
  printList : option (list product);
  a_log : list audit_effect
}.

Definition audit_init : audit_state := AuditState [] [] 0 ∅ false None [] [] None [].

Definition upd_scanned f s := AuditState (f s.(scannedItems)) s.(rendered) s.(itemCount) s.(checked) s.(selectAll) s.(a_status) s.(lookups) s.(batches) s.(printList) s.(a_log).
Definition set_checked c s := AuditState s.(scannedItems) s.(rendered) s.(itemCount) c s.(selectAll) s.(a_status) s.(lookups) s.(batches) s.(printList) s.(a_log).
Definition set_selectAll b s := AuditState s.(scannedItems) s.(rendered) s.(itemCount) s.(checked) b s.(a_status) s.(lookups) s.(batches) s.(printList) s.(a_log).
Definition set_a_status m s := AuditState s.(scannedItems) s.(rendered) s.(itemCount) s.(checked) s.(selectAll) (Some m) s.(lookups) s.(batches) s.(printList) s.(a_log).
Definition upd_lookups f s := AuditState s.(scannedItems) s.(rendered) s.(itemCount) s.(checked) s.(selectAll) s.(a_status) (f s.(lookups)) s.(batches) s.(printList) s.(a_log).
Definition upd_batches f s := AuditState s.(scannedItems) s.(rendered) s.(itemCount) s.(checked) s.(selectAll) s.(a_status) s.(lookups) (f s.(batches)) s.(printList) s.(a_log).
Definition set_printList l s := AuditState s.(scannedItems) s.(rendered) s.(itemCount) s.(checked) s.(selectAll) s.(a_status) s.(lookups) s.(batches) (Some l) s.(a_log).
Definition a_emit e s := AuditState s.(scannedItems) s.(rendered) s.(itemCount) s.(checked) s.(selectAll) s.(a_status) s.(lookups) s.(batches) s.(printList) (s.(a_log) ++ [e]).

(** Lines 40-54: the table is rebuilt from the map; the new check
    boxes are unchecked, and so is "select all". *)
Definition renderTable (s : audit_state) : audit_state :=
  AuditState s.(scannedItems) (map snd s.(scannedItems)) (length s.(scannedItems)) ∅ false
    s.(a_status) s.(lookups) s.(batches) s.(printList) s.(a_log).

(** Lines 13-22, up to the [await] of [fetch]. *)
Definition onScanSuccess (decodedText : jsstr) (s : audit_state) : audit_state :=
  if negb (starts_with (js "ITEM") decodedText) || map_has (Some decodedText) s.(scannedItems)
  then s
  else
    let s := a_emit (APlaySound successSound) s in
    let s := set_a_status (MsgFound decodedText) s in
    upd_lookups (fun l => l ++ [decodedText]) (a_emit (AFetchProduct decodedText) s).

(** [fetch] rejects (no answer from the server): [error.message]. *)
Definition failed_fetch : jsstr := js "Failed to fetch".

(** Lines 24-36: the answer to the lookup in flight number [k];
    [None] is a rejected [fetch]. *)
Definition lookup_answered (k : nat) (resp : option response) (s : audit_state) : audit_state :=
  match s.(lookups) !! k with
  | None => s
  | Some _ =>
      let s := upd_lookups (delete k) s in
      match resp with
      | Some (JsonProduct product) =>
          set_a_status (MsgAdded (name product))
            (renderTable (upd_scanned (map_set (product_code product) product) s))
      | Some _ =>
          let s := a_emit (APlaySound errorSound) s in
          set_a_status (MsgError (js "Product not found in database.")) s
      | None =>
          let s := a_emit (APlaySound errorSound) s in
          set_a_status (MsgError failed_fetch) s
      end
  end.

(** [document.querySelectorAll('.item-chk:checked')] in table order,
    mapped to [data-id]. *)
Definition selected_ids (s : audit_state) : list nat :=
  map id (List.filter (fun p => bool_decide (id p ∈ s.(checked))) s.(rendered)).

Inductive batch_button := DamageBtn | DeleteBtn.

(** Lines 101-102. *)
Definition button_action (b : batch_button) : jsstr :=
  match b with DamageBtn => js "mark_damaged" | DeleteBtn => js "delete" end.

(** Lines 57-75, up to the [await] of [fetch]; [confirmed] is the
    user's answer to [confirm]. *)
Definition performBatchAction (action : jsstr) (confirmed : bool) (s : audit_state) : audit_state :=
  match selected_ids s with
  | [] => a_emit (AAlert AlertSelectFirst) s
  | selectedIds =>
      if confirmed then
        upd_batches (fun l => l ++ [(action, selectedIds)]) (a_emit (APostBatch action selectedIds) s)
      else s
  end.

(** Lines 76-86: the answer to the batch in flight number [k]. *)
Definition batch_answered (k : nat) (resp : option response) (s : audit_state) : audit_state :=
  match s.(batches) !! k with
  | None => s
  | Some (_, selectedIds) =>
      let s := upd_batches (delete k) s in
      match resp with
      | Some (JsonCodes updatedProductCodes) =>
          let s := renderTable (upd_scanned (fun m => fold_left (fun m c => map_delete c m) updatedProductCodes m) s) in
          a_emit (AAlert (AlertUpdated (length selectedIds))) s
      | Some _ => a_emit (AAlert (AlertError (js "Server failed to process the request."))) s
      | None => a_emit (AAlert (AlertError failed_fetch)) s
      end
  end.

(** Lines 90-95: [confirm] is only asked when the map is not empty. *)
Definition clear_list (confirmed : bool) (s : audit_state) : audit_state :=
  if (0 <? length s.(scannedItems))%nat && confirmed then renderTable (upd_scanned (fun _ => []) s)
  else s.

(** Lines 97-99: "select all" sets every rendered box. *)
Definition select_all (b : bool) (s : audit_state) : audit_state :=
  set_selectAll b (set_checked (if b then list_to_set (map id s.(rendered)) else ∅) s).

(** A click on the box of a rendered row. *)
Definition click_item (i : nat) (b : bool) (s : audit_state) : audit_state :=
  if bool_decide (i ∈ map id s.(rendered)) then
    set_checked (if b then {[i]} ∪ s.(checked) else s.(checked) ∖ {[i]}) s
  else s.

(** Lines 103-110. *)
Definition print_list (s : audit_state) : audit_state :=
  match s.(scannedItems) with
  | [] => a_emit (AAlert AlertNoItems) s
  | m => a_emit AOpenPrint (set_printList (map snd m) s)
  end.

Inductive audit_event :=
  | Decoded (text : jsstr)                          (* html5QrcodeScanner callback *)
  | LookupAnswered (k : nat) (resp : option response)
  | ClickItem (i : nat) (b : bool)
  | ClickSelectAll (b : bool)
  | ClickBatch (btn : batch_button) (confirmed : bool)
  | BatchAnswered (k : nat) (resp : option response)
  | ClickClear (confirmed : bool)
  | ClickPrint.

Definition handle (s : audit_state) (e : audit_event) : audit_state :=
  match e with
  | Decoded text => onScanSuccess text s
  | LookupAnswered k r => lookup_answered k r s
  | ClickItem i b => click_item i b s
  | ClickSelectAll b => select_all b s
  | ClickBatch btn c => performBatchAction (button_action btn) c s
  | BatchAnswered k r => batch_answered k r s
  | ClickClear c => clear_list c s
  | ClickPrint => print_list s
  end.

(** ** The page and the server *)

Record system := Sys { page : audit_state; server : db }.

Inductive sys_event :=
  | User (e : audit_event)      (* decodes and clicks *)
  | ServeLookup (k : nat)       (* the server answers lookup [k] *)
  | ServeBatch (k : nat).       (* the server answers batch [k] *)

Section System.
Variable expiring : product -> bool.

Definition sys_step (x : system) (e : sys_event) : system :=
  match e with
  | User e => Sys (handle x.(page) e) x.(server)
  | ServeLookup k =>
      match x.(page).(lookups) !! k with
      | Some text =>
          let '(d, r) := serve expiring x.(server) (GetProduct text) in
          Sys (lookup_answered k (Some r) x.(page)) d
      | None => x
      end
  | ServeBatch k =>
      match x.(page).(batches) !! k with
      | Some (action, ids) =>
          let '(d, r) := serve expiring x.(server) (BatchUpdate (Some action) (Some ids)) in
          Sys (batch_answered k (Some r) x.(page)) d
      | None => x
      end
  end.
End System.

(** ** The map's keys *)

Section JsMapLemmas.
Context {K V : Type} `{EqDecision K}.

Lemma map_set_keys (k : K) (v : V) m :
  map fst (map_set k v m) = if bool_decide (k ∈ map fst m) then map fst m else map fst m ++ [k].
Proof.
  induction m as [|[k' v'] m IH]; simpl; [done|].
  destruct (decide (k = k')) as [->|Hne]; simpl.
  - by rewrite bool_decide_true by set_solver.
  - rewrite IH. case_bool_decide; case_bool_decide; simpl; set_solver.
Qed.

Lemma map_set_nodup (k : K) (v : V) m : NoDup (map fst m) -> NoDup (map fst (map_set k v m)).
Proof.
  intros Hm. rewrite map_set_keys. case_bool_decide as Hk; [done|].
  apply NoDup_app. split_and!; [done | set_solver | apply NoDup_singleton].
Qed.

Lemma map_set_in (k : K) (v : V) m : In (k, v) (map_set k v m).
Proof.
  induction m as [|[k' v'] m IH]; simpl; [by left|].
  destruct (decide (k = k')); simpl; auto.
Qed.

Lemma map_delete_keys (k : K) (m : list (K * V)) :
  map fst (map_delete k m) = List.filter (fun k' => negb (bool_decide (k' = k))) (map fst m).
Proof.
  induction m as [|[k' v'] m IH]; simpl; [done|].
  destruct (bool_decide (k' = k)); simpl; by rewrite IH.
Qed.

Lemma map_delete_nodup (k : K) (m : list (K * V)) : NoDup (map fst m) -> NoDup (map fst (map_delete k m)).
Proof.
  rewrite map_delete_keys. intros Hm. apply NoDup_ListNoDup, List.NoDup_filter, NoDup_ListNoDup, Hm.
Qed.

Lemma map_delete_sub (k : K) (m : list (K * V)) kv : In kv (map_delete k m) -> In kv m.
Proof. unfold map_delete. rewrite filter_In. tauto. Qed.

Lemma fold_delete_nodup (cs : list K) (m : list (K * V)) :
  NoDup (map fst m) -> NoDup (map fst (fold_left (fun m c => map_delete c m) cs m)).
Proof. revert m. induction cs; simpl; auto using map_delete_nodup. Qed.

(** Deleting every key of a list removes each of them, and keeps the
    entries whose key is not in the list. *)
Lemma fold_delete_spec (cs : list K) (m : list (K * V)) k v :
  In (k, v) (fold_left (fun m c => map_delete c m) cs m) <-> In (k, v) m /\ ~ In k cs.
Proof.
  revert m. induction cs as [|c cs IH]; intros m; simpl; [tauto|].
  rewrite IH. unfold map_delete. rewrite filter_In. simpl.
  rewrite negb_true_iff, bool_decide_eq_false. intuition congruence.
Qed.
End JsMapLemmas.

(** ** The page invariant *)

(** The keys of [scannedItems] are distinct (a [Map]), the table shows
    its values in insertion order with their count, and only boxes of
    rendered rows are checked. *)
Record audit_inv (s : audit_state) : Prop := {
  ai_keys : NoDup (map fst s.(scannedItems));
  ai_rendered : s.(rendered) = map snd s.(scannedItems);
  ai_count : s.(itemCount) = length s.(scannedItems);
  ai_checked : s.(checked) ⊆ list_to_set (map id s.(rendered))
}.

Lemma audit_init_inv : audit_inv audit_init.
Proof. constructor; simpl; [constructor | done | done | set_solver]. Qed.

Lemma renderTable_inv f s :
  NoDup (map fst (f s.(scannedItems))) -> audit_inv (renderTable (upd_scanned f s)).
Proof. intros Hk. constructor; simpl; [done | done | done | set_solver]. Qed.

(** The updates that leave the map, the table and the boxes alone. *)
Lemma audit_inv_frame s s' :
  s'.(scannedItems) = s.(scannedItems) -> s'.(rendered) = s.(rendered) ->
  s'.(itemCount) = s.(itemCount) -> s'.(checked) = s.(checked) -> audit_inv s -> audit_inv s'.
Proof. intros H1 H2 H3 H4 [Hk Hr Hc Hch]. constructor; rewrite ?H1, ?H2, ?H3, ?H4; done. Qed.

Ltac audit_frame := eapply audit_inv_frame; [..| eassumption]; reflexivity.

Lemma handle_audit_inv s e : audit_inv s -> audit_inv (handle s e).
Proof.
  intros Hs. pose proof Hs as [Hk Hr Hc Hch]. destruct e; simpl.
  - unfold onScanSuccess. case_match; [done|]. audit_frame.
  - unfold lookup_answered. case_match; [|done].
    case_match; [case_match|]; try audit_frame.
    set (s1 := upd_lookups (delete k) s).
    assert (Hs1 : audit_inv s1) by audit_frame.
    unfold set_a_status. eapply audit_inv_frame; [..| apply (renderTable_inv (map_set (product_code p) p) s1)]; try reflexivity.
    by apply map_set_nodup.
  - unfold click_item. case_bool_decide; [|done].
    constructor; simpl; try done. destruct b; set_solver.
  - unfold select_all. constructor; simpl; try done. destruct b; [|set_solver].
    intros i. rewrite !elem_of_list_to_set. done.
  - unfold performBatchAction. case_match; [audit_frame|]. case_match; [audit_frame | done].
  - unfold batch_answered. destruct (batches s !! k) as [[a l]|]; [|done].
    case_match; [case_match|]; try audit_frame.
    eapply audit_inv_frame;
      [..| apply (renderTable_inv (fun m => fold_left (fun m c => map_delete c m) codes m)
                                  (upd_batches (delete k) s))]; try reflexivity.
    by apply fold_delete_nodup.
  - unfold clear_list. case_match; [|done].
    apply (renderTable_inv (fun _ => [])). constructor.
  - unfold print_list. case_match; audit_frame.
Qed.

(** ** The page with the server *)

Lemma get_product_db c d : fst (get_product c d) = d.
Proof. unfold get_product. by case_match. Qed.

Lemma sys_step_inv expiring x e :
  audit_inv x.(page) -> wf_db x.(server) ->
  audit_inv (sys_step expiring x e).(page) /\ wf_db (sys_step expiring x e).(server).
Proof.
  intros Hp Hd. destruct e as [e|k|k]; cbn -[batch_update get_product].
  - split; [by apply handle_audit_inv | done].
  - destruct (lookups (page x) !! k) as [t|]; [|done].
    pose proof (get_product_db t (server x)) as Hg.
    destruct (get_product t (server x)) as [d r]. simpl in Hg; subst d.
    split; [apply (handle_audit_inv _ (LookupAnswered k (Some r))) | ]; done.
  - destruct (batches (page x) !! k) as [[a ids]|]; [|done].
    pose proof (batch_update_wf (Some a) (Some ids) (server x) Hd) as Hw.
    destruct (batch_update (Some a) (Some ids) (server x)) as [d r].
    split; [apply (handle_audit_inv _ (BatchAnswered k (Some r))) | ]; done.
Qed.

Lemma map_has_in {V} (k : option jsstr) (v : V) m : In (k, v) m -> map_has k m = true.
Proof.
  intros H. apply bool_decide_eq_true. apply list_elem_of_In.
  change k with (fst (k, v)). by apply in_map.
Qed.

Lemma map_has_false {V} (k : option jsstr) (m : list (option jsstr * V)) :
  (forall v, ~ In (k, v) m) -> map_has k m = false.
Proof.
  intros H. apply bool_decide_eq_false. intros Hk.
  apply list_elem_of_In, in_map_iff in Hk as ([k' v] & <- & Hin). by apply (H v).
Qed.

(** C6. In every run of the audit page against the server, from an
    empty list and a well-formed table: the scanned list has distinct
    keys (a [Map]), the table on screen shows its values in insertion
    order with their count, only boxes of rendered rows are checked, and
    the server's table stays well formed. *)
Theorem audit_system_inv (expiring : product -> bool) (d : db) (evs : list sys_event) :
  wf_db d ->
  audit_inv (run_events (sys_step expiring) (Sys audit_init d) evs).(page) /\
  wf_db (run_events (sys_step expiring) (Sys audit_init d) evs).(server).
Proof.
  intros Hd.
  apply (run_events_invariant_all (sys_step expiring) (fun x => audit_inv x.(page) /\ wf_db x.(server))).
  - intros x e [Hp Hw]. by apply sys_step_inv.
  - split; [apply audit_init_inv | done].
Qed.

(** The decode callback: a decoded text that does not start with
    "ITEM", or that is already a key of the list, is ignored; any other
    plays the success sound and issues one lookup, and leaves the list
    unchanged until the answer. *)
Theorem audit_decode_spec (s : audit_state) (t : jsstr) :
  (starts_with (js "ITEM") t = false \/ map_has (Some t) s.(scannedItems) = true ->
   handle s (Decoded t) = s) /\
  (starts_with (js "ITEM") t = true -> map_has (Some t) s.(scannedItems) = false ->
   (handle s (Decoded t)).(a_log) = s.(a_log) ++ [APlaySound successSound; AFetchProduct t] /\
   (handle s (Decoded t)).(lookups) = s.(lookups) ++ [t] /\
   (handle s (Decoded t)).(scannedItems) = s.(scannedItems)).
Proof.
  cbn [handle]. unfold onScanSuccess. split.
  - intros [-> | ->]; [done | by rewrite orb_true_r].
  - intros -> ->. cbn. by rewrite <- app_assoc.
Qed.

(** C22. The key under which a looked-up row is stored is the decoded
    text: when the server answers lookup [k] for text [t], either it
    found a row that is not in the trash, whose code is [t], and that
    row is now in the list under key [t] (so a later decode of [t] is
    a duplicate), or the list is unchanged and the error sound plays. *)
Theorem sys_lookup_key (expiring : product -> bool) (x : system) (k : nat) (t : jsstr) :
  x.(page).(lookups) !! k = Some t ->
  let x' := sys_step expiring x (ServeLookup k) in
  x'.(server) = x.(server) /\ x'.(page).(lookups) = delete k x.(page).(lookups) /\
  ((exists p, In p x.(server).(rows) /\ product_code p = Some t /\ is_deleted p = false /\
      In (Some t, p) x'.(page).(scannedItems) /\ map_has (Some t) x'.(page).(scannedItems) = true) \/
   (x'.(page).(scannedItems) = x.(page).(scannedItems) /\
    last x'.(page).(a_log) = Some (APlaySound errorSound))).
Proof.
  intros Hk. simpl. rewrite Hk. simpl. unfold get_product.
  destruct (List.find _ (rows (server x))) as [p|] eqn:F; simpl; unfold lookup_answered; rewrite Hk; simpl.
  - apply find_some in F as [Hin Hp]. apply andb_true_iff in Hp as [Hc Hd].
    apply bool_decide_eq_true in Hc. apply negb_true_iff in Hd.
    split_and!; [done | done |]. left. exists p. rewrite Hc.
    pose proof (map_set_in (Some t) p (scannedItems (page x))) as Hm.
    split_and!; try done. by eapply map_has_in.
  - split_and!; [done | done |]. right. split; [done|]. by rewrite last_snoc.
Qed.

(** C23. The answer to a batch delete removes from the list every code of
    a row the batch selected, and keeps every entry whose key is the
    code of no selected row. *)
Theorem sys_batch_delete_removes (expiring : product -> bool) (x : system) (k : nat) (ids : list nat) :
  x.(page).(batches) !! k = Some (js "delete", ids) ->
  let x' := sys_step expiring x (ServeBatch k) in
  (forall r c, In r x.(server).(rows) -> id r ∈ ids -> product_code r = Some c ->
     map_has (Some c) x'.(page).(scannedItems) = false) /\
  (forall key p, In (key, p) x.(page).(scannedItems) ->
     (forall r, In r x.(server).(rows) -> id r ∈ ids -> product_code r <> key) ->
     In (key, p) x'.(page).(scannedItems)).
Proof.
  intros Hb. cbn -[batch_update batch_answered]. rewrite Hb. cbn -[batch_update batch_answered].
  destruct ids as [|i l].
  { unfold batch_answered. rewrite Hb. simpl. split; [intros r c _ Hr; set_solver | done]. }
  unfold batch_update. rewrite bool_decide_true by done.
  unfold batch_answered. rewrite Hb. cbn [page scannedItems a_emit renderTable upd_scanned upd_batches]. split.
  - intros r c Hr Hi Hc. apply map_has_false. intros v Hv.
    apply fold_delete_spec in Hv as [_ Hv]. apply Hv.
    rewrite <- Hc. apply in_map, filter_In. split; [done|]. by apply bool_decide_eq_true.
  - intros key p Hin Hno. apply fold_delete_spec. split; [done|].
    intros Hk. apply in_map_iff in Hk as (r & Hr & Hf). apply filter_In in Hf as [Hf Hi].
    apply bool_decide_eq_true in Hi. by apply (Hno r).
Qed.

(** ** Interleavings *)

Abbreviation sys_run := (run_events (sys_step (fun _ => false))).

Lemma selected_ids_none s : s.(checked) = ∅ -> selected_ids s = [].
Proof.
  intros Hc. unfold selected_ids. rewrite Hc, filter_none_on; [done|].
  intros p _. apply bool_decide_eq_false. set_solver.
Qed.

(** C35. Duplicates are not ignored while a lookup is in flight: the
    duplicate check reads the list, which only changes when an answer
    arrives.  From any state in which a code [t] starting with "ITEM" is
    not yet in the list, [n] decodes of [t] before the first answer
    (the scanner decodes at 10 frames a second) play the success sound
    [n] times and send [n] lookups of [t], and leave the list as it
    was. *)
Theorem audit_double_fetch (s : audit_state) (t : jsstr) (n : nat) :
  starts_with (js "ITEM") t = true -> map_has (Some t) s.(scannedItems) = false ->
  let s' := run_events handle s (repeat (Decoded t) n) in
  s'.(a_log) = s.(a_log) ++ concat (repeat [APlaySound successSound; AFetchProduct t] n) /\
  s'.(lookups) = s.(lookups) ++ repeat t n /\
  s'.(scannedItems) = s.(scannedItems).
Proof.
  intros Ht. revert s. induction n as [|n IH]; intros s Hm; cbn [run_events repeat concat];
    [by rewrite !app_nil_r|].
  destruct (proj2 (audit_decode_spec s t) Ht Hm) as (Hl & Hk & Hs).
  destruct (IH (handle s (Decoded t))) as (Hl' & Hk' & Hs'); [by rewrite Hs|].
  rewrite Hl', Hk', Hs', Hl, Hk, Hs, <- !app_assoc. done.
Qed.

(** The user checks the first scanned row; another label is scanned
    and its lookup answered; the user clicks "delete". *)
Definition selection_run : list sys_event :=
  [User (Decoded (js "ITEM0001")); ServeLookup 0; User (ClickItem 1 true);
   User (Decoded (js "ITEM0002")); ServeLookup 0; User (ClickBatch DeleteBtn true)].

(** C36. A lookup answer re-renders the table, which unchecks every box:
    in every state, whatever rows the user had selected, the answer that
    adds a product leaves no row selected and "select all" unchecked,
    so a click on a batch button then only alerts "Please select items
    from the list first." and sends nothing. *)
Theorem audit_selection_lost (s : audit_state) (k : nat) (t : jsstr) (p : product)
    (btn : batch_button) (confirmed : bool) :
  s.(lookups) !! k = Some t ->
  let s' := handle s (LookupAnswered k (Some (JsonProduct p))) in
  selected_ids s' = [] /\ s'.(selectAll) = false /\
  handle s' (ClickBatch btn confirmed) = a_emit (AAlert AlertSelectFirst) s'.
Proof.
  intros Hk s'. assert (Hsel : selected_ids s' = []).
  { apply selected_ids_none. subst s'. cbn [handle]. unfold lookup_answered. by rewrite Hk. }
  split_and!; [done | | cbn [handle]; unfold performBatchAction; by rewrite Hsel].
  subst s'. cbn [handle]. unfold lookup_answered. by rewrite Hk.
Qed.

(** ** Witnesses *)

Lemma audit_double_fetch_witness :
  (run_events handle audit_init (repeat (Decoded (js "ITEM0001")) 2)).(lookups) =
    [js "ITEM0001"; js "ITEM0001"].
Proof. exact (proj1 (proj2 (audit_double_fetch audit_init (js "ITEM0001") 2 eq_refl eq_refl))). Defined.

Lemma audit_selection_lost_witness :
  selected_ids (handle (sys_run (Sys audit_init two_rows) (take 4 selection_run)).(page)
                  (LookupAnswered 0 (Some (JsonProduct (nth 1 (rows two_rows) no_row))))) = [].
Proof.
  exact (proj1 (audit_selection_lost (sys_run (Sys audit_init two_rows) (take 4 selection_run)).(page)
                  0 (js "ITEM0002") (nth 1 (rows two_rows) no_row) DeleteBtn true
                  ltac:(vm_compute; reflexivity))).
Defined.

Lemma audit_system_inv_witness :
  audit_inv (sys_run (Sys audit_init two_rows) selection_run).(page).
Proof. exact (proj1 (audit_system_inv (fun _ => false) two_rows selection_run (wf_dbb_spec two_rows eq_refl))). Defined.

Lemma audit_decode_spec_witness :
  (handle audit_init (Decoded (js "ITEM0001"))).(lookups) = [js "ITEM0001"].
Proof.
  exact (proj1 (proj2 ((proj2 (audit_decode_spec audit_init (js "ITEM0001"))) eq_refl eq_refl))).
Defined.

Lemma sys_lookup_key_witness :
  (sys_step (fun _ => false) (sys_run (Sys audit_init two_rows) [User (Decoded (js "ITEM0002"))]) (ServeLookup 0)).(server)
  = two_rows.
Proof.
  exact (proj1 (sys_lookup_key (fun _ => false) (sys_run (Sys audit_init two_rows) [User (Decoded (js "ITEM0002"))])
                  0 (js "ITEM0002") ltac:(vm_compute; reflexivity))).
Defined.

Definition delete_first : list sys_event :=
  [User (Decoded (js "ITEM0001")); ServeLookup 0; User (ClickItem 1 true); User (ClickBatch DeleteBtn true)].

Lemma sys_batch_delete_removes_witness :
  map_has (Some (js "ITEM0001"))
    (sys_step (fun _ => false) (sys_run (Sys audit_init two_rows) delete_first) (ServeBatch 0)).(page).(scannedItems)
  = false.
Proof.
  apply (proj1 (sys_batch_delete_removes (fun _ => false) (sys_run (Sys audit_init two_rows) delete_first) 0 [1%nat]
                  ltac:(vm_compute; reflexivity))
           (nth 0 (rows two_rows) no_row)); [vm_compute; left; reflexivity | vm_compute; left; reflexivity | vm_compute; reflexivity].
Defined.

End AuditPage.
