(* ===== verification/BarcodeScanner.v ===== *)
(** The barcode strategy of the add page, src/public/js/add.js.

    [startBarcodeScanner] probes the runtime for the native
    [BarcodeDetector] and the camera API; with both it opens a camera
    stream and polls the detector every 200 ms, otherwise it starts the
    QuaggaJS fallback, which reports detections through its own
    [onDetected] subscription.  The first barcode found plays the
    success sound, stops the scanner, fills the barcode field and looks
    the barcode up in the OpenFoodFacts API, whose answer fills the
    form ([populateForm]).

    The page is an event handler [handle] on [bc_state]: each [await]
    (getUserMedia, [video.play()], every [detect] call, Quagga's init
    callback, the OpenFoodFacts [fetch]) is an answer event of its own,
    so the races between a stop and a pending request are explicit
    sequences of events.  Camera streams are tracked as in
    [ScanSession]: [live] is the set of streams whose tracks run. *)

From S2P Require Import Prelude JsString Recognition.
From stdpp Require Import gmap sets.
Import Recognition.

Module BarcodeScanner.

(** ** Capabilities and backends *)

(** What the page tests before choosing a backend (line 31). *)
Record capabilities := Caps {
  hasBarcodeDetector : bool;       (* 'BarcodeDetector' in window *)
  hasMediaDevices : bool;          (* navigator.mediaDevices *)
  hasGetUserMedia : bool           (* navigator.mediaDevices.getUserMedia *)
}.

Definition use_native (c : capabilities) : bool :=
  hasBarcodeDetector c && hasMediaDevices c && hasGetUserMedia c.

Inductive scanner_type := Native | QuaggaBackend.

#[export] Instance scanner_type_eq_dec : EqDecision scanner_type.
Proof. solve_decision. Defined.

(** ** The OpenFoodFacts answer and the form *)

(** The fields of [data.product] the page reads. *)
Record off_product := OffProduct {
  product_name_en : option jsstr;
  product_name : option jsstr;
  brands : option jsstr;
  quantity : option jsstr;
  categories_tags : option (list jsstr)
}.

(** The answer to [fetch]: the response with [res.ok], [data.status]
    and [data.product], or a rejected promise with its message. *)
Inductive off_response :=
  | OffResponse (ok : bool) (status : Z) (product : option off_product)
  | OffRejected (message : jsstr).

(** [a || b] on strings: [a] unless it is absent or empty. *)
Definition js_or (a b : option jsstr) : option jsstr :=
  match a with Some (_ :: _) => a | _ => b end.

Definition or_empty (a : option jsstr) : jsstr := match a with Some s => s | None => [] end.

Record add_form := AddForm { form_name : jsstr; form_notes : jsstr; form_category : jsstr }.

(** Lines 130-141. *)
Definition populateForm (product : off_product) (barcode : jsstr) : add_form :=
  let nm := or_empty (js_or (product_name_en product) (product_name product)) in
  let notes := js "Brand: " ++ or_empty (brands product) ++ [10%Z] ++
               js "Quantity: " ++ or_empty (quantity product) ++ [10%Z] ++
               js "Barcode: " ++ barcode ++ [10%Z; 10%Z] in
  let cats := match categories_tags product with Some l => l | None => [] end in
  let has k := existsb (fun c => includes c (js k)) cats in
  let cat := if has "electronic" then js "Electronics"
             else if has "groceries" then js "Groceries"
             else if has "appliances" then js "Appliances"
             else js "Other" in
  AddForm nm notes cat.

(** ** The page state *)

Inductive modal_msg :=
  | StartingCamera | PointCamera | CouldNotStartCamera | StartingFallback | FallbackFailed.

Inductive lookup_msg :=
  | EnterBarcode | FetchingDetails (barcode : jsstr) | DetailsFetched | LookupError (message : jsstr).

Inductive bc_effect :=
  | BPlaySound (s : sound)
  | BFetchOff (barcode : jsstr).       (* fetch(`https://world.openfoodfacts.org/...`) *)

Record bc_state := BcState {
  modal_open : bool;
  modal_status : option modal_msg;
  scannerType : option scanner_type;
  activeStream : option nat;           (* never reset to null by the page *)
  live : gset nat;                     (* camera streams whose tracks run *)
  gum : gset nat;                      (* getUserMedia requests pending *)
  playing : gset nat;                  (* video.play() pending, by stream *)
  detectionInterval : option nat;
  intervals : gset nat;                (* intervals not cleared *)
  detecting : gset nat;                (* detect() calls in flight *)
  quagga_pending : nat;                (* Quagga.init callbacks pending *)
  quagga_running : bool;
  quagga_handlers : nat;               (* Quagga.onDetected subscriptions *)
  barcodeInput : jsstr;
  lookup_status : option lookup_msg;
  off_requests : list jsstr;           (* OpenFoodFacts fetches in flight *)
  form : option add_form;
  b_log : list bc_effect;
  b_fresh : nat
}.

Definition bc_init : bc_state :=
  BcState false None None None ∅ ∅ ∅ None ∅ ∅ 0 false 0 [] None [] None [] 0.

(** Field updates. *)
Definition set_modal b s := BcState b s.(modal_status) s.(scannerType) s.(activeStream) s.(live) s.(gum) s.(playing) s.(detectionInterval) s.(intervals) s.(detecting) s.(quagga_pending) s.(quagga_running) s.(quagga_handlers) s.(barcodeInput) s.(lookup_status) s.(off_requests) s.(form) s.(b_log) s.(b_fresh).
Definition set_modal_status m s := BcState s.(modal_open) (Some m) s.(scannerType) s.(activeStream) s.(live) s.(gum) s.(playing) s.(detectionInterval) s.(intervals) s.(detecting) s.(quagga_pending) s.(quagga_running) s.(quagga_handlers) s.(barcodeInput) s.(lookup_status) s.(off_requests) s.(form) s.(b_log) s.(b_fresh).
Definition set_scannerType t s := BcState s.(modal_open) s.(modal_status) (Some t) s.(activeStream) s.(live) s.(gum) s.(playing) s.(detectionInterval) s.(intervals) s.(detecting) s.(quagga_pending) s.(quagga_running) s.(quagga_handlers) s.(barcodeInput) s.(lookup_status) s.(off_requests) s.(form) s.(b_log) s.(b_fresh).
Definition set_activeStream a s := BcState s.(modal_open) s.(modal_status) s.(scannerType) (Some a) s.(live) s.(gum) s.(playing) s.(detectionInterval) s.(intervals) s.(detecting) s.(quagga_pending) s.(quagga_running) s.(quagga_handlers) s.(barcodeInput) s.(lookup_status) s.(off_requests) s.(form) s.(b_log) s.(b_fresh).
Definition upd_live f s := BcState s.(modal_open) s.(modal_status) s.(scannerType) s.(activeStream) (f s.(live)) s.(gum) s.(playing) s.(detectionInterval) s.(intervals) s.(detecting) s.(quagga_pending) s.(quagga_running) s.(quagga_handlers) s.(barcodeInput) s.(lookup_status) s.(off_requests) s.(form) s.(b_log) s.(b_fresh).
Definition upd_gum f s := BcState s.(modal_open) s.(modal_status) s.(scannerType) s.(activeStream) s.(live) (f s.(gum)) s.(playing) s.(detectionInterval) s.(intervals) s.(detecting) s.(quagga_pending) s.(quagga_running) s.(quagga_handlers) s.(barcodeInput) s.(lookup_status) s.(off_requests) s.(form) s.(b_log) s.(b_fresh).
Definition upd_playing f s := BcState s.(modal_open) s.(modal_status) s.(scannerType) s.(activeStream) s.(live) s.(gum) (f s.(playing)) s.(detectionInterval) s.(intervals) s.(detecting) s.(quagga_pending) s.(quagga_running) s.(quagga_handlers) s.(barcodeInput) s.(lookup_status) s.(off_requests) s.(form) s.(b_log) s.(b_fresh).
Definition set_detectionInterval i s := BcState s.(modal_open) s.(modal_status) s.(scannerType) s.(activeStream) s.(live) s.(gum) s.(playing) (Some i) s.(intervals) s.(detecting) s.(quagga_pending) s.(quagga_running) s.(quagga_handlers) s.(barcodeInput) s.(lookup_status) s.(off_requests) s.(form) s.(b_log) s.(b_fresh).
Definition upd_intervals f s := BcState s.(modal_open) s.(modal_status) s.(scannerType) s.(activeStream) s.(live) s.(gum) s.(playing) s.(detectionInterval) (f s.(intervals)) s.(detecting) s.(quagga_pending) s.(quagga_running) s.(quagga_handlers) s.(barcodeInput) s.(lookup_status) s.(off_requests) s.(form) s.(b_log) s.(b_fresh).
Definition upd_detecting f s := BcState s.(modal_open) s.(modal_status) s.(scannerType) s.(activeStream) s.(live) s.(gum) s.(playing) s.(detectionInterval) s.(intervals) (f s.(detecting)) s.(quagga_pending) s.(quagga_running) s.(quagga_handlers) s.(barcodeInput) s.(lookup_status) s.(off_requests) s.(form) s.(b_log) s.(b_fresh).
Definition set_quagga_pending n s := BcState s.(modal_open) s.(modal_status) s.(scannerType) s.(activeStream) s.(live) s.(gum) s.(playing) s.(detectionInterval) s.(intervals) s.(detecting) n s.(quagga_running) s.(quagga_handlers) s.(barcodeInput) s.(lookup_status) s.(off_requests) s.(form) s.(b_log) s.(b_fresh).
Definition set_quagga_running b s := BcState s.(modal_open) s.(modal_status) s.(scannerType) s.(activeStream) s.(live) s.(gum) s.(playing) s.(detectionInterval) s.(intervals) s.(detecting) s.(quagga_pending) b s.(quagga_handlers) s.(barcodeInput) s.(lookup_status) s.(off_requests) s.(form) s.(b_log) s.(b_fresh).
Definition add_quagga_handler s := BcState s.(modal_open) s.(modal_status) s.(scannerType) s.(activeStream) s.(live) s.(gum) s.(playing) s.(detectionInterval) s.(intervals) s.(detecting) s.(quagga_pending) s.(quagga_running) (S s.(quagga_handlers)) s.(barcodeInput) s.(lookup_status) s.(off_requests) s.(form) s.(b_log) s.(b_fresh).
Definition set_barcodeInput v s := BcState s.(modal_open) s.(modal_status) s.(scannerType) s.(activeStream) s.(live) s.(gum) s.(playing) s.(detectionInterval) s.(intervals) s.(detecting) s.(quagga_pending) s.(quagga_running) s.(quagga_handlers) v s.(lookup_status) s.(off_requests) s.(form) s.(b_log) s.(b_fresh).
Definition set_lookup_status m s := BcState s.(modal_open) s.(modal_status) s.(scannerType) s.(activeStream) s.(live) s.(gum) s.(playing) s.(detectionInterval) s.(intervals) s.(detecting) s.(quagga_pending) s.(quagga_running) s.(quagga_handlers) s.(barcodeInput) (Some m) s.(off_requests) s.(form) s.(b_log) s.(b_fresh).
Definition upd_off_requests f s := BcState s.(modal_open) s.(modal_status) s.(scannerType) s.(activeStream) s.(live) s.(gum) s.(playing) s.(detectionInterval) s.(intervals) s.(detecting) s.(quagga_pending) s.(quagga_running) s.(quagga_handlers) s.(barcodeInput) s.(lookup_status) (f s.(off_requests)) s.(form) s.(b_log) s.(b_fresh).
Definition set_form f s := BcState s.(modal_open) s.(modal_status) s.(scannerType) s.(activeStream) s.(live) s.(gum) s.(playing) s.(detectionInterval) s.(intervals) s.(detecting) s.(quagga_pending) s.(quagga_running) s.(quagga_handlers) s.(barcodeInput) s.(lookup_status) s.(off_requests) (Some f) s.(b_log) s.(b_fresh).
Definition b_emit e s := BcState s.(modal_open) s.(modal_status) s.(scannerType) s.(activeStream) s.(live) s.(gum) s.(playing) s.(detectionInterval) s.(intervals) s.(detecting) s.(quagga_pending) s.(quagga_running) s.(quagga_handlers) s.(barcodeInput) s.(lookup_status) s.(off_requests) s.(form) (s.(b_log) ++ [e]) s.(b_fresh).
Definition b_bump s := BcState s.(modal_open) s.(modal_status) s.(scannerType) s.(activeStream) s.(live) s.(gum) s.(playing) s.(detectionInterval) s.(intervals) s.(detecting) s.(quagga_pending) s.(quagga_running) s.(quagga_handlers) s.(barcodeInput) s.(lookup_status) s.(off_requests) s.(form) s.(b_log) (S s.(b_fresh)).

(** ** The page's functions *)

(** Lines 84-106 up to the init callback: [Quagga.init] is called and a
    new [onDetected] handler is subscribed, on every start. *)
Definition startQuagga (s : bc_state) : bc_state :=
  add_quagga_handler (set_quagga_pending (S s.(quagga_pending)) (set_modal_status StartingFallback s)).

(** Lines 25-61 up to the [await] of [getUserMedia]. *)
Definition startBarcodeScanner (caps : capabilities) (s : bc_state) : bc_state :=
  let s := set_modal_status StartingCamera (set_modal true s) in
  if use_native caps then
    let r := s.(b_fresh) in
    b_bump (upd_gum (union {[r]}) (set_scannerType Native s))
  else startQuagga (set_scannerType QuaggaBackend s).

(** Lines 63-72. *)
Definition stopBarcodeScanner (s : bc_state) : bc_state :=
  let s :=
    match s.(scannerType) with
    | Some Native =>
        let s := match s.(detectionInterval) with
                 | Some i => upd_intervals (fun l => l ∖ {[i]}) s
                 | None => s
                 end in
        match s.(activeStream) with
        | Some st => upd_live (fun l => l ∖ {[st]}) s
        | None => s
        end
    | Some QuaggaBackend => set_quagga_running false s
    | None => s
    end in
  set_modal false s.

(** Lines 110-111, up to the [await] of [fetch]. *)
Definition fetchProductDetails (barcode : jsstr) (s : bc_state) : bc_state :=
  upd_off_requests (fun l => l ++ [barcode])
    (b_emit (BFetchOff barcode) (set_lookup_status (FetchingDetails barcode) s)).

(** Lines 74-80. *)
Definition onBarcodeScanSuccess (barcode : jsstr) (s : bc_state) : bc_state :=
  match barcode with
  | [] => s
  | _ =>
      let s := stopBarcodeScanner (b_emit (BPlaySound successSound) s) in
      fetchProductDetails barcode (set_barcodeInput barcode s)
  end.

(** Lines 112-127: the answer to the OpenFoodFacts request number [k]. *)
Definition off_answered (k : nat) (resp : off_response) (s : bc_state) : bc_state :=
  match s.(off_requests) !! k with
  | None => s
  | Some barcode =>
      let s := upd_off_requests (delete k) s in
      let fail msg := set_lookup_status (LookupError msg) (b_emit (BPlaySound errorSound) s) in
      match resp with
      | OffResponse false _ _ => fail (js "Barcode not found in the public database.")
      | OffResponse true 1 (Some product) =>
          set_lookup_status DetailsFetched
            (b_emit (BPlaySound successSound) (set_form (populateForm product barcode) s))
      | OffResponse true _ _ => fail (js "Barcode not found. Please fill details manually.")
      | OffRejected msg => fail msg
      end
  end.

Inductive bc_event :=
  | ClickScan (caps : capabilities)              (* scanBtn *)
  | ClickClose                                   (* closeModalBtn, or the backdrop *)
  | GumAnswered (r : nat) (granted : bool)       (* getUserMedia settles *)
  | PlayAnswered (st : nat) (played : bool)      (* video.play() settles *)
  | Tick (i : nat)                               (* the 200 ms interval fires *)
  | DetectAnswered (j : nat) (rawValues : list jsstr)  (* detect() settles; [] when it throws *)
  | QuaggaInitAnswered (failed : bool)           (* the Quagga.init callback *)
  | QuaggaDetected (code : jsstr)                (* Quagga emits a detection *)
  | ClickFetch                                   (* fetchBtn *)
  | TypeBarcode (v : jsstr)                      (* the user edits barcodeInput *)
  | OffAnswered (k : nat) (resp : off_response).

(** [n] calls of [onBarcodeScanSuccess], one per subscribed handler. *)
Fixpoint repeat_success (n : nat) (code : jsstr) (s : bc_state) : bc_state :=
  match n with O => s | S m => repeat_success m code (onBarcodeScanSuccess code s) end.

Definition handle (s : bc_state) (e : bc_event) : bc_state :=
  match e with
  | ClickScan caps => startBarcodeScanner caps s
  | ClickClose => stopBarcodeScanner s
  | GumAnswered r granted =>
      if decide (r ∈ s.(gum)) then
        let s := upd_gum (fun g => g ∖ {[r]}) s in
        if granted then
          let st := s.(b_fresh) in
          b_bump (upd_playing (union {[st]}) (set_activeStream st (upd_live (union {[st]}) s)))
        else set_modal_status CouldNotStartCamera s
      else s
  | PlayAnswered st played =>
      if decide (st ∈ s.(playing)) then
        let s := upd_playing (fun p => p ∖ {[st]}) s in
        if played then
          let i := s.(b_fresh) in
          b_bump (upd_intervals (union {[i]}) (set_detectionInterval i (set_modal_status PointCamera s)))
        else set_modal_status CouldNotStartCamera s
      else s
  | Tick i =>
      if decide (i ∈ s.(intervals)) then
        let j := s.(b_fresh) in b_bump (upd_detecting (union {[j]}) s)
      else s
  | DetectAnswered j codes =>
      if decide (j ∈ s.(detecting)) then
        let s := upd_detecting (fun d => d ∖ {[j]}) s in
        match codes with c :: _ => onBarcodeScanSuccess c s | [] => s end
      else s
  | QuaggaInitAnswered failed =>
      match s.(quagga_pending) with
      | O => s
      | S n =>
          let s := set_quagga_pending n s in
          if failed then set_modal_status FallbackFailed s
          else set_modal_status PointCamera (set_quagga_running true s)
      end
  | QuaggaDetected code =>
      if s.(quagga_running) then repeat_success s.(quagga_handlers) code s else s
  | ClickFetch =>
      match trim s.(barcodeInput) with
      | [] => set_lookup_status EnterBarcode s
      | code => fetchProductDetails code s
      end
  | TypeBarcode v => set_barcodeInput v s
  | OffAnswered k resp => off_answered k resp s
  end.

Abbreviation run := (run_events handle).

(** ** Lemmas *)

Lemma difference_twice (l : gset nat) (i : nat) : l ∖ {[i]} ∖ {[i]} = l ∖ {[i]}.
Proof. apply leibniz_equiv. set_solver. Qed.

(** What [stopBarcodeScanner] does, field by field. *)
Lemma stop_fields s :
  let s' := stopBarcodeScanner s in
  s'.(modal_open) = false /\ s'.(scannerType) = s.(scannerType) /\
  s'.(activeStream) = s.(activeStream) /\ s'.(detectionInterval) = s.(detectionInterval) /\
  s'.(b_log) = s.(b_log) /\ s'.(off_requests) = s.(off_requests) /\
  s'.(barcodeInput) = s.(barcodeInput) /\ s'.(detecting) = s.(detecting) /\
  s'.(quagga_handlers) = s.(quagga_handlers) /\
  s'.(live) = (match s.(scannerType), s.(activeStream) with
               | Some Native, Some st => s.(live) ∖ {[st]}
               | _, _ => s.(live) end) /\
  s'.(intervals) = (match s.(scannerType), s.(detectionInterval) with
                    | Some Native, Some i => s.(intervals) ∖ {[i]}
                    | _, _ => s.(intervals) end) /\
  s'.(quagga_running) = (match s.(scannerType) with
                         | Some QuaggaBackend => false
                         | _ => s.(quagga_running) end).
Proof.
  intros s'. subst s'. unfold stopBarcodeScanner.
  destruct (scannerType s) as [[|]|] eqn:E; simpl; [|split_and!; congruence..].
  destruct (detectionInterval s) eqn:E1; simpl; destruct (activeStream s) eqn:E2; simpl; split_and!; congruence.
Qed.

Definition native_caps : capabilities := Caps true true true.
Definition legacy_caps : capabilities := Caps false true true.

(** ** Properties *)

(** Backend selection: a click on the scan button opens the modal
    and, when the runtime has [BarcodeDetector] and [getUserMedia],
    selects the native backend and requests a camera stream; otherwise
    it selects the Quagga fallback, calls [Quagga.init] and subscribes
    one more [onDetected] handler, without requesting a stream itself. *)
Theorem scan_dispatch (caps : capabilities) (s : bc_state) :
  let s' := handle s (ClickScan caps) in
  s'.(modal_open) = true /\
  (use_native caps = true ->
     s'.(scannerType) = Some Native /\ s'.(gum) = {[s.(b_fresh)]} ∪ s.(gum) /\
     s'.(quagga_pending) = s.(quagga_pending) /\ s'.(quagga_handlers) = s.(quagga_handlers)) /\
  (use_native caps = false ->
     s'.(scannerType) = Some QuaggaBackend /\ s'.(gum) = s.(gum) /\
     s'.(quagga_pending) = S s.(quagga_pending) /\ s'.(quagga_handlers) = S s.(quagga_handlers)).
Proof.
  simpl. unfold startBarcodeScanner. destruct (use_native caps); simpl;
    split_and!; done.
Qed.

(** C9. [stopBarcodeScanner] releases what the native backend holds (the
    current stream's tracks stop, the current interval is cleared),
    stops Quagga, closes the modal, and is idempotent: calling it twice
    is calling it once. *)
Theorem stop_releases_idempotent (s : bc_state) :
  stopBarcodeScanner (stopBarcodeScanner s) = stopBarcodeScanner s /\
  (stopBarcodeScanner s).(modal_open) = false /\
  (s.(scannerType) = Some Native ->
     (forall st, s.(activeStream) = Some st -> st ∉ (stopBarcodeScanner s).(live)) /\
     (forall i, s.(detectionInterval) = Some i -> i ∉ (stopBarcodeScanner s).(intervals))) /\
  (s.(scannerType) = Some QuaggaBackend -> (stopBarcodeScanner s).(quagga_running) = false).
Proof.
  destruct (stop_fields s) as (Hm & Ht & Ha & Hd & _ & _ & _ & _ & _ & Hl & Hi & Hq).
  split_and!.
  - clear Hm Ht Ha Hd Hl Hi Hq.
    destruct s as [mo ms [[|]|] [a|] lv gm pl [i|] iv de qp qr qh bi ls orq fm lg fr];
      cbv beta iota zeta delta [stopBarcodeScanner set_modal upd_live upd_intervals
        set_quagga_running modal_open modal_status scannerType activeStream live gum playing
        detectionInterval intervals detecting quagga_pending quagga_running quagga_handlers
        barcodeInput lookup_status off_requests form b_log b_fresh];
      rewrite ?difference_twice; reflexivity.
  - done.
  - intros Hn. rewrite Hn in Hl, Hi. split.
    + intros st Hs. rewrite Hl, Hs. set_solver.
    + intros i Hs. rewrite Hi, Hs. set_solver.
  - intros Hn. by rewrite Hq, Hn.
Qed.

Ltac bc_fields := cbn [b_log off_requests barcodeInput live modal_open intervals detecting
  lookup_status upd_off_requests b_emit set_lookup_status set_barcodeInput].

(** C18. A detection with a barcode, on the native backend: the success
    sound plays once, the scanner stops (the stream's tracks stop, the
    current interval is cleared, the modal closes), the barcode goes
    into the input field and one OpenFoodFacts lookup is issued. *)
Theorem detect_success (s : bc_state) (j st : nat) (c : jsstr) (cs : list jsstr) :
  j ∈ s.(detecting) -> c <> [] -> s.(scannerType) = Some Native -> s.(activeStream) = Some st ->
  let s' := handle s (DetectAnswered j (c :: cs)) in
  s'.(b_log) = s.(b_log) ++ [BPlaySound successSound; BFetchOff c] /\
  s'.(off_requests) = s.(off_requests) ++ [c] /\ s'.(barcodeInput) = c /\
  st ∉ s'.(live) /\ s'.(modal_open) = false /\
  (forall i, s.(detectionInterval) = Some i -> i ∉ s'.(intervals)) /\
  s'.(detecting) = s.(detecting) ∖ {[j]}.
Proof.
  intros Hj Hc Ht Ha. cbn [handle]. rewrite decide_True by done.
  destruct c as [|u c]; [done|]. unfold onBarcodeScanSuccess.
  set (s1 := b_emit (BPlaySound successSound) (upd_detecting (fun d => d ∖ {[j]}) s)).
  destruct (stop_fields s1) as (Hm & Ht' & Ha' & Hd' & Hl & Ho & _ & Hdet & _ & Hlive & Hint & _).
  unfold fetchProductDetails. bc_fields.
  rewrite Hl, Ho, Hdet, Hlive, Hint, Hm. subst s1. cbn. rewrite Ht, Ha.
  split_and!; try done.
  - by rewrite <- app_assoc.
  - set_solver.
  - intros i ->. set_solver.
Qed.

(** C27. The fetch button trims the input: an input of white space only
    shows "Please enter a barcode number." and fetches nothing; any
    other input is looked up with its surrounding white space removed. *)
Theorem click_fetch_trims (s : bc_state) :
  (Forall (fun c => is_js_space c = true) s.(barcodeInput) ->
     handle s ClickFetch = set_lookup_status EnterBarcode s) /\
  (~ Forall (fun c => is_js_space c = true) s.(barcodeInput) ->
     (handle s ClickFetch).(off_requests) = s.(off_requests) ++ [trim s.(barcodeInput)] /\
     (handle s ClickFetch).(b_log) = s.(b_log) ++ [BFetchOff (trim s.(barcodeInput))]).
Proof.
  cbn [handle]. split.
  - intros H. apply trim_nil in H. by rewrite H.
  - intros H. rewrite <- trim_nil in H. destruct (trim (barcodeInput s)) as [|u t]; done.
Qed.

(** ** Interleavings *)

(** An EAN-13 barcode. *)
Definition code_a : jsstr := js "5449000000996".

(** The start button of the fallback backend. *)
Definition fallback_start (e : bc_event) : bool :=
  match e with ClickScan caps => negb (use_native caps) | _ => false end.

Lemma stop_keeps s :
  (stopBarcodeScanner s).(gum) = s.(gum) /\ (stopBarcodeScanner s).(playing) = s.(playing) /\
  (stopBarcodeScanner s).(b_fresh) = s.(b_fresh).
Proof.
  unfold stopBarcodeScanner. destruct (scannerType s) as [[|]|]; simpl; [|split_and!; done..].
  repeat case_match; simpl; split_and!; done.
Qed.

(** The success path leaves the backend, the detections in flight and
    the handler count alone, and appends its sound and its lookup. *)
Lemma success_fields c s :
  c <> [] ->
  let s' := onBarcodeScanSuccess c s in
  s'.(scannerType) = s.(scannerType) /\ s'.(activeStream) = s.(activeStream) /\
  s'.(detecting) = s.(detecting) /\ s'.(quagga_handlers) = s.(quagga_handlers) /\
  s'.(b_log) = s.(b_log) ++ [BPlaySound successSound; BFetchOff c] /\
  s'.(off_requests) = s.(off_requests) ++ [c] /\ s'.(modal_open) = false.
Proof.
  intros Hc. destruct c as [|u c]; [done|]. unfold onBarcodeScanSuccess, fetchProductDetails.
  destruct (stop_fields (b_emit (BPlaySound successSound) s))
    as (Hm & Ht & Ha & _ & Hl & Ho & _ & Hd & Hq & _).
  remember (stopBarcodeScanner _) as t eqn:Et. clear Et. cbn in *.
  rewrite Ht, Ha, Hd, Hq, Hl, Ho, Hm. split_and!; try done. by rewrite <- app_assoc.
Qed.

Lemma repeat_success_fields n c s :
  c <> [] ->
  (repeat_success n c s).(quagga_handlers) = s.(quagga_handlers) /\
  (repeat_success n c s).(b_log) = s.(b_log) ++ concat (repeat [BPlaySound successSound; BFetchOff c] n) /\
  (repeat_success n c s).(off_requests) = s.(off_requests) ++ repeat c n.
Proof.
  intros Hc. revert s. induction n as [|n IH]; intros s; simpl; [by rewrite !app_nil_r|].
  destruct (success_fields c s Hc) as (_ & _ & _ & Hq & Hl & Ho & _).
  destruct (IH (onBarcodeScanSuccess c s)) as (Hq' & Hl' & Ho').
  rewrite Hq', Hl', Ho', Hq, Hl, Ho, <- !app_assoc. done.
Qed.

Lemma repeat_success_nil n s : repeat_success n [] s = s.
Proof. revert s. induction n as [|n IH]; intros s; [done|]. apply IH. Qed.

(** Every event but a fallback start leaves the handler count as it is;
    a fallback start adds one. *)
Lemma handle_handlers s e :
  (handle s e).(quagga_handlers) = s.(quagga_handlers) + (if fallback_start e then 1 else 0).
Proof.
  destruct e; cbn [handle fallback_start].
  - unfold startBarcodeScanner. destruct (use_native caps); cbn; lia.
  - rewrite (proj1 (proj2 (proj2 (proj2 (proj2 (proj2 (proj2 (proj2 (proj2 (stop_fields s)))))))))). lia.
  - case_decide; [destruct granted|]; cbn; lia.
  - case_decide; [destruct played|]; cbn; lia.
  - case_decide; cbn; lia.
  - case_decide; [|lia]. destruct rawValues as [|c cs]; cbn; [lia|].
    destruct c as [|u c]; [cbn; lia|].
    rewrite (proj1 (proj2 (proj2 (proj2 (success_fields (u :: c) _ ltac:(done)))))). cbn. lia.
  - destruct (quagga_pending s); [lia|]. destruct failed; cbn; lia.
  - destruct (quagga_running s); [|lia]. destruct code as [|u c].
    + rewrite repeat_success_nil. lia.
    + rewrite (proj1 (repeat_success_fields _ (u :: c) s ltac:(done))). lia.
  - destruct (trim (barcodeInput s)); cbn; lia.
  - cbn. lia.
  - unfold off_answered. destruct (off_requests s !! k); [|lia].
    repeat case_match; cbn; lia.
Qed.

(** C39. [clearInterval] does not cancel a [detect] call in flight: in
    every state of the native backend with two [detect] calls pending,
    both deliver their barcode although the first one already stopped
    the scanner, so one scanning session plays the success sound twice
    and looks up two barcodes, where the specification allows one
    detection per start. *)
Theorem detect_in_flight_repeats (s : bc_state) (j1 j2 st : nat) (c1 c2 : jsstr) :
  j1 ∈ s.(detecting) -> j2 ∈ s.(detecting) -> j1 <> j2 -> c1 <> [] -> c2 <> [] ->
  s.(scannerType) = Some Native -> s.(activeStream) = Some st ->
  let s' := run s [DetectAnswered j1 [c1]; DetectAnswered j2 [c2]] in
  s'.(b_log) = s.(b_log) ++ [BPlaySound successSound; BFetchOff c1; BPlaySound successSound; BFetchOff c2] /\
  s'.(off_requests) = s.(off_requests) ++ [c1; c2] /\ s'.(modal_open) = false.
Proof.
  intros H1 H2 Hne Hc1 Hc2 Ht Ha s'. subst s'. cbn [run_events handle].
  rewrite (decide_True (P := j1 ∈ s.(detecting))) by done.
  set (s1 := upd_detecting (fun d => d ∖ {[j1]}) s).
  destruct (success_fields c1 s1 Hc1) as (Ht1 & Ha1 & Hd1 & _ & Hl1 & Ho1 & _).
  rewrite (decide_True (P := j2 ∈ (onBarcodeScanSuccess c1 s1).(detecting)))
    by (rewrite Hd1; subst s1; cbn; set_solver).
  set (s2 := upd_detecting (fun d => d ∖ {[j2]}) (onBarcodeScanSuccess c1 s1)).
  destruct (success_fields c2 s2 Hc2) as (_ & _ & _ & _ & Hl2 & Ho2 & Hm2).
  rewrite Hl2, Ho2, Hm2. subst s2. cbn [b_log off_requests upd_detecting].
  rewrite Hl1, Ho1. subst s1. cbn. by rewrite <- !app_assoc.
Qed.

(** C37. Every fallback start subscribes one more [Quagga.onDetected]
    handler and none is ever removed: after any sequence of events the
    page holds one handler per fallback start so far, and a detection
    while Quagga runs calls the success path once per handler (as many
    sounds and lookups as there were starts). *)
Theorem quagga_handlers_accumulate (s : bc_state) (evs : list bc_event) (c : jsstr) :
  (run s evs).(quagga_handlers) = s.(quagga_handlers) + length (List.filter fallback_start evs) /\
  (s.(quagga_running) = true -> c <> [] ->
   (handle s (QuaggaDetected c)).(b_log) =
     s.(b_log) ++ concat (repeat [BPlaySound successSound; BFetchOff c] s.(quagga_handlers)) /\
   (handle s (QuaggaDetected c)).(off_requests) = s.(off_requests) ++ repeat c s.(quagga_handlers)).
Proof.
  split.
  - revert s. induction evs as [|e evs IH]; intros s; cbn [run_events List.filter]; [simpl; lia|].
    rewrite IH, handle_handlers. destruct (fallback_start e); simpl; lia.
  - intros Hr Hc. cbn [handle]. rewrite Hr.
    by destruct (repeat_success_fields (quagga_handlers s) c s Hc) as (_ & -> & ->).
Qed.

(** The user closes the modal while the camera permission prompt is
    still open, then grants it. *)
Definition close_early : list bc_event :=
  [ClickScan native_caps; ClickClose; GumAnswered 0 true; PlayAnswered 1 true].

(** C38. Closing the modal before [getUserMedia] resolves stops nothing
    (there is no stream and no interval yet) and does not cancel the
    request: in every state with a camera request pending, when the user
    closes the modal and then grants the camera, the stream goes live
    and, once the video plays, the detector polls every 200 ms behind
    the closed modal, although the user cancelled. *)
Theorem close_before_camera_leaks (s : bc_state) (r : nat) :
  r ∈ s.(gum) ->
  let s1 := handle s ClickClose in
  let st := s1.(b_fresh) in
  let s2 := handle s1 (GumAnswered r true) in
  let s3 := handle s2 (PlayAnswered st true) in
  s3.(modal_open) = false /\ st ∈ s3.(live) /\ s3.(activeStream) = Some st /\
  s2.(b_fresh) ∈ s3.(intervals) /\ s3.(detectionInterval) = Some s2.(b_fresh).
Proof.
  intros Hr s1 st s2 s3. destruct (stop_keeps s) as (Hg & _ & _).
  assert (Hm : s1.(modal_open) = false) by apply (proj1 (stop_fields s)).
  assert (Hr1 : r ∈ s1.(gum)) by (subst s1; cbn [handle]; by rewrite Hg).
  assert (Hs2 : s2 = b_bump (upd_playing (union {[st]}) (set_activeStream st
                   (upd_live (union {[st]}) (upd_gum (fun g => g ∖ {[r]}) s1)))))
    by (subst s2; cbn [handle]; by rewrite decide_True).
  assert (Hs3 : s3 = b_bump (upd_intervals (union {[s2.(b_fresh)]})
                   (set_detectionInterval s2.(b_fresh) (set_modal_status PointCamera
                   (upd_playing (fun p => p ∖ {[st]}) s2)))))
    by (subst s3; cbn [handle]; rewrite decide_True; [done | rewrite Hs2; cbn; set_solver]).
  clearbody s3 s2 s1. subst s3 s2. cbn. split_and!; [exact Hm | set_solver | done | set_solver | done].
Qed.

(** ** Witnesses *)

(** Two fallback sessions: start, close, start again. *)
Definition quagga_twice : list bc_event :=
  [ClickScan legacy_caps; QuaggaInitAnswered false; ClickClose;
   ClickScan legacy_caps; QuaggaInitAnswered false].

Lemma quagga_handlers_accumulate_witness :
  (handle (run bc_init quagga_twice) (QuaggaDetected code_a)).(off_requests) = [code_a; code_a].
Proof.
  exact (proj2 (proj2 (quagga_handlers_accumulate (run bc_init quagga_twice) [] code_a)
                  eq_refl ltac:(discriminate))).
Defined.

(** The interval fires twice before the first [detect] call settles
    (detection takes longer than 200 ms). *)
Definition two_detects : list bc_event :=
  [ClickScan native_caps; GumAnswered 0 true; PlayAnswered 1 true; Tick 2; Tick 2].

Lemma detect_in_flight_repeats_witness :
  (run (run bc_init two_detects) [DetectAnswered 3 [code_a]; DetectAnswered 4 [code_a]]).(off_requests)
  = [code_a; code_a].
Proof.
  exact (proj1 (proj2 (detect_in_flight_repeats (run bc_init two_detects) 3 4 1 code_a code_a
                  ltac:(vm_compute; reflexivity) ltac:(vm_compute; reflexivity) ltac:(lia)
                  ltac:(discriminate) ltac:(discriminate) eq_refl eq_refl))).
Defined.

Lemma close_before_camera_leaks_witness :
  (run bc_init close_early).(modal_open) = false /\ 1%nat ∈ (run bc_init close_early).(live).
Proof.
  destruct (close_before_camera_leaks (run bc_init [ClickScan native_caps]) 0
              ltac:(vm_compute; reflexivity)) as (H1 & H2 & _).
  exact (conj H1 H2).
Defined.

Lemma scan_dispatch_witness :
  (handle bc_init (ClickScan native_caps)).(scannerType) = Some Native.
Proof. exact (proj1 (proj1 (proj2 (scan_dispatch native_caps bc_init)) eq_refl)). Defined.

Definition camera_on : list bc_event := [ClickScan native_caps; GumAnswered 0 true].

Lemma stop_releases_idempotent_witness :
  1%nat ∉ (stopBarcodeScanner (run bc_init camera_on)).(live).
Proof.
  exact (proj1 (proj1 (proj2 (proj2 (stop_releases_idempotent (run bc_init camera_on)))) eq_refl) 1 eq_refl).
Defined.

Lemma detect_success_witness :
  (handle (run bc_init (camera_on ++ [PlayAnswered 1 true; Tick 2])) (DetectAnswered 3 [code_a])).(barcodeInput)
  = code_a.
Proof.
  destruct (detect_success (run bc_init (camera_on ++ [PlayAnswered 1 true; Tick 2])) 3 1 code_a []
              ltac:(vm_compute; reflexivity) ltac:(discriminate) ltac:(vm_compute; reflexivity)
              ltac:(vm_compute; reflexivity)) as (_ & _ & H & _).
  exact H.
Defined.

Lemma click_fetch_trims_witness :
  (handle (handle bc_init (TypeBarcode (js " 3017620422003 "))) ClickFetch).(off_requests)
  = [trim (js " 3017620422003 ")].
Proof.
  exact (proj1 (proj2 (click_fetch_trims (handle bc_init (TypeBarcode (js " 3017620422003 "))))
                 ltac:(intros H; apply trim_nil in H; vm_compute in H; discriminate H))).
Defined.

End BarcodeScanner.
