(* ===== verification/ScanSession.v ===== *)
(** The scan page controller (src/public/js/scan.js, lines 1-116 and
    the callers of lines 133-180).

    The page state (the globals [cvReady], [tesseractReady],
    [html5Qrcode], [activeStream], the DOM state it reads back, the
    shared [#ocr-snapshot] canvas) and the state of its collaborators
    (the Html5Qrcode instances, the live camera streams, the pending
    [getUserMedia] requests, the recognition runs awaiting the engine)
    form the record [scan_state].  Every handler of the page and every
    completion of an asynchronous call is an [event]; [handle] is the
    page's reaction, and a run is [run_events handle] over a list of
    events, so interleavings are explicit.

    Html5Qrcode is modelled by the lifecycle the page can observe:
    [start()] resolves once the camera is acquired ([QrStarted]),
    [isScanning] holds from then until [stop()] is called, and the
    camera tracks close when the [stop()] promise resolves
    ([QrStopped]). *)

From stdpp Require Import gmap.
From S2P Require Import Prelude JsString CodeExtractor Imaging Recognition.

Module ScanSession.
Import Imaging Recognition.

Inductive tab := QrTab | OcrTab.
Inductive ocr_view := VideoView | ResultView.

#[export] Instance tab_eq_dec : EqDecision tab.
Proof. solve_decision. Defined.

Inductive qr_state :=
  | QStarting
  | QScanning (stream : nat)
  | QStopping (stream : nat)
  | QStopped
  | QFailed.

(** A recognition run awaiting the engine's answer on an image. *)
Inductive stage := AwaitStandard (img : canvas) | AwaitInverted (img : canvas).

Record scan_state := MkState {
  cvReady : bool;
  tesseractReady : bool;
  captureDisabled : bool;
  tab_active : tab;
  showing : ocr_view;
  status : option status_msg;
  html5Qrcode : option nat;
  activeStream : option nat;
  snapshot : canvas;
  scanners : gmap nat qr_state;
  live : gset nat;
  gum : gset nat;
  pipelines : gmap nat stage;
  log : list effect;
  fresh : nat
}.

(** ** Field updates *)

Definition set_cvReady b s := MkState b s.(tesseractReady) s.(captureDisabled) s.(tab_active) s.(showing) s.(status) s.(html5Qrcode) s.(activeStream) s.(snapshot) s.(scanners) s.(live) s.(gum) s.(pipelines) s.(log) s.(fresh).
Definition set_tesseractReady b s := MkState s.(cvReady) b s.(captureDisabled) s.(tab_active) s.(showing) s.(status) s.(html5Qrcode) s.(activeStream) s.(snapshot) s.(scanners) s.(live) s.(gum) s.(pipelines) s.(log) s.(fresh).
Definition set_captureDisabled b s := MkState s.(cvReady) s.(tesseractReady) b s.(tab_active) s.(showing) s.(status) s.(html5Qrcode) s.(activeStream) s.(snapshot) s.(scanners) s.(live) s.(gum) s.(pipelines) s.(log) s.(fresh).
Definition set_tab t s := MkState s.(cvReady) s.(tesseractReady) s.(captureDisabled) t s.(showing) s.(status) s.(html5Qrcode) s.(activeStream) s.(snapshot) s.(scanners) s.(live) s.(gum) s.(pipelines) s.(log) s.(fresh).
Definition set_showing v s := MkState s.(cvReady) s.(tesseractReady) s.(captureDisabled) s.(tab_active) v s.(status) s.(html5Qrcode) s.(activeStream) s.(snapshot) s.(scanners) s.(live) s.(gum) s.(pipelines) s.(log) s.(fresh).
Definition set_status m s := MkState s.(cvReady) s.(tesseractReady) s.(captureDisabled) s.(tab_active) s.(showing) (Some m) s.(html5Qrcode) s.(activeStream) s.(snapshot) s.(scanners) s.(live) s.(gum) s.(pipelines) s.(log) s.(fresh).
Definition set_html5Qrcode q s := MkState s.(cvReady) s.(tesseractReady) s.(captureDisabled) s.(tab_active) s.(showing) s.(status) q s.(activeStream) s.(snapshot) s.(scanners) s.(live) s.(gum) s.(pipelines) s.(log) s.(fresh).
Definition set_activeStream a s := MkState s.(cvReady) s.(tesseractReady) s.(captureDisabled) s.(tab_active) s.(showing) s.(status) s.(html5Qrcode) a s.(snapshot) s.(scanners) s.(live) s.(gum) s.(pipelines) s.(log) s.(fresh).
Definition set_snapshot c s := MkState s.(cvReady) s.(tesseractReady) s.(captureDisabled) s.(tab_active) s.(showing) s.(status) s.(html5Qrcode) s.(activeStream) c s.(scanners) s.(live) s.(gum) s.(pipelines) s.(log) s.(fresh).
Definition upd_scanners f s := MkState s.(cvReady) s.(tesseractReady) s.(captureDisabled) s.(tab_active) s.(showing) s.(status) s.(html5Qrcode) s.(activeStream) s.(snapshot) (f s.(scanners)) s.(live) s.(gum) s.(pipelines) s.(log) s.(fresh).
Definition upd_live f s := MkState s.(cvReady) s.(tesseractReady) s.(captureDisabled) s.(tab_active) s.(showing) s.(status) s.(html5Qrcode) s.(activeStream) s.(snapshot) s.(scanners) (f s.(live)) s.(gum) s.(pipelines) s.(log) s.(fresh).
Definition upd_gum f s := MkState s.(cvReady) s.(tesseractReady) s.(captureDisabled) s.(tab_active) s.(showing) s.(status) s.(html5Qrcode) s.(activeStream) s.(snapshot) s.(scanners) s.(live) (f s.(gum)) s.(pipelines) s.(log) s.(fresh).
Definition upd_pipelines f s := MkState s.(cvReady) s.(tesseractReady) s.(captureDisabled) s.(tab_active) s.(showing) s.(status) s.(html5Qrcode) s.(activeStream) s.(snapshot) s.(scanners) s.(live) s.(gum) (f s.(pipelines)) s.(log) s.(fresh).
Definition emit e s := MkState s.(cvReady) s.(tesseractReady) s.(captureDisabled) s.(tab_active) s.(showing) s.(status) s.(html5Qrcode) s.(activeStream) s.(snapshot) s.(scanners) s.(live) s.(gum) s.(pipelines) (s.(log) ++ [e]) s.(fresh).
Definition bump s := MkState s.(cvReady) s.(tesseractReady) s.(captureDisabled) s.(tab_active) s.(showing) s.(status) s.(html5Qrcode) s.(activeStream) s.(snapshot) s.(scanners) s.(live) s.(gum) s.(pipelines) s.(log) (S s.(fresh)).

(** An effect performed by the page: recorded, and a status message is
    also written into [statusDiv]. *)
Definition perform (e : effect) (s : scan_state) : scan_state :=
  let s := emit e s in
  match e with SetStatus m => set_status m s | _ => s end.

Definition perform_all (l : list effect) (s : scan_state) : scan_state :=
  fold_left (fun s e => perform e s) l s.

Definition say (m : status_msg) (s : scan_state) : scan_state := perform (SetStatus m) s.

(** ** The page's functions *)

Definition isScanning (s : scan_state) (i : nat) : bool :=
  match s.(scanners) !! i with Some (QScanning _) => true | _ => false end.

(** [html5Qrcode.stop()]: the instance stops decoding at once; its
    camera tracks close when the promise resolves. *)
Definition qr_stop (i : nat) (s : scan_state) : scan_state :=
  match s.(scanners) !! i with
  | Some (QScanning st) => upd_scanners (<[i := QStopping st]>) s
  | _ => s
  end.

(** [if (html5Qrcode && html5Qrcode.isScanning) html5Qrcode.stop()]. *)
Definition stop_current_qr (s : scan_state) : scan_state :=
  match s.(html5Qrcode) with
  | Some i => if isScanning s i then qr_stop i s else s
  | None => s
  end.

(** Lines 108-116. *)
Definition stopAllStreams (s : scan_state) : scan_state :=
  let s := stop_current_qr s in
  match s.(activeStream) with
  | Some st => set_activeStream None (upd_live (fun l => l ∖ {[st]}) s)
  | None => s
  end.

(** Lines 28-36. *)
Definition checkIfOcrReady (s : scan_state) : scan_state :=
  if s.(cvReady) && s.(tesseractReady) then
    let s := set_captureDisabled false s in
    if decide (s.(tab_active) = QrTab) then say EngineReady s else s
  else s.

(** Lines 59-69: a new instance is created and started. *)
Definition startQrScanner (s : scan_state) : scan_state :=
  let s := set_tab QrTab (stopAllStreams s) in
  let i := s.(fresh) in
  bump (set_html5Qrcode (Some i) (upd_scanners (<[i := QStarting]>) s)).

(** Lines 71-85, up to the [await] of [getUserMedia]. *)
Definition activateOcrScanner (s : scan_state) : scan_state :=
  let s := set_showing VideoView (set_tab OcrTab (stopAllStreams s)) in
  let r := s.(fresh) in
  bump (upd_gum (union {[r]}) s).

(** Lines 38-47 and 103-105: the [DOMContentLoaded] handler. *)
Definition domContentLoaded (s : scan_state) : scan_state :=
  startQrScanner (say InitializingEngine (set_captureDisabled true s)).

(** Lines 49-57: the QR decode callback. *)
Definition onScanSuccess (text : jsstr) (s : scan_state) : scan_state :=
  let s := perform (PlaySound successSound) s in
  let s := stop_current_qr s in
  perform_all (snd (handleSuccess text QrCodeFound)) s.

(** ** Events *)

Inductive event :=
  | OpenCvReady                 (* cv.onRuntimeInitialized, lines 9-13 *)
  | TesseractReady              (* createWorker and setParameters resolved, lines 19-25 *)
  | ClickQrTab                  (* line 87 *)
  | ClickOcrTab                 (* line 88 *)
  | ClickRetry                  (* line 101 *)
  | ClickCapture (v : video)    (* line 90, with the video element at that instant *)
  | CameraGranted (req : nat)   (* getUserMedia resolves, lines 80-81 *)
  | CameraDenied (req : nat)    (* getUserMedia rejects, lines 82-84 *)
  | QrStarted (inst : nat)      (* html5Qrcode.start resolves *)
  | QrStartFailed (inst : nat)  (* html5Qrcode.start rejects, line 68 *)
  | QrDecoded (inst : nat) (text : jsstr)  (* the decode callback fires *)
  | QrStopped (inst : nat)      (* html5Qrcode.stop resolves *)
  | OcrAnswered (run_id : nat).    (* tesseractWorker.recognize resolves for a run *)

Definition user_event (e : event) : bool :=
  match e with ClickQrTab | ClickOcrTab | ClickRetry | ClickCapture _ => true | _ => false end.

Section Controller.
Context `{CvFilters}.
Variable recognize : canvas -> ocr_outcome.

(** [runSingleRecognition(canvas, strategy)] up to its [await]: the
    shared snapshot canvas is read now; [cv.imread] throwing rejects the
    run's promise, which nobody handles. *)
Definition start_attempt (p : nat) (st : strategy) (s : scan_state) : scan_state :=
  match recognition_image s.(snapshot) st with
  | None => upd_pipelines (delete p) s
  | Some img =>
      let stg := match st with Standard => AwaitStandard img | Inverted => AwaitInverted img end in
      upd_pipelines (<[p := stg]>) (perform (OcrCall st img) s)
  end.

(** [runRecognitionPipeline(canvas)] up to its first [await]. *)
Definition pipeline_start (s : scan_state) : scan_state :=
  let p := s.(fresh) in
  start_attempt p Standard (say AnalyzingAttempt1 (bump s)).

(** The engine answers run [p]: lines 154-161 and 136-142. *)
Definition ocr_answered (p : nat) (s : scan_state) : scan_state :=
  match s.(pipelines) !! p with
  | Some (AwaitStandard img) =>
      match accept (recognize img) with
      | Accept code => perform_all (snd (handleSuccess code TextFound)) (upd_pipelines (delete p) s)
      | Reject => start_attempt p Inverted (say RetryingInverted s)
      end
  | Some (AwaitInverted img) =>
      let s := upd_pipelines (delete p) s in
      match accept (recognize img) with
      | Accept code => perform_all (snd (handleSuccess code TextFound)) s
      | Reject => perform_all (snd handleFailure) s
      end
  | None => s
  end.

(** Lines 90-99: the capture button.  A click on the disabled button
    fires nothing.  When [preprocessImage] throws, the rest of the
    handler (the recognition and [stopAllStreams]) is skipped. *)
Definition capture (v : video) (s : scan_state) : scan_state :=
  if s.(captureDisabled) then s else
  match s.(activeStream) with
  | None => s
  | Some _ =>
      let s := perform (PlaySound successSound) (set_showing ResultView s) in
      match preprocessImage v with
      | None => set_snapshot (drawn_canvas v) s
      | Some c => stopAllStreams (pipeline_start (set_snapshot c s))
      end
  end.

Definition handle (s : scan_state) (e : event) : scan_state :=
  match e with
  | OpenCvReady => checkIfOcrReady (set_cvReady true s)
  | TesseractReady => checkIfOcrReady (set_tesseractReady true s)
  | ClickQrTab => startQrScanner s
  | ClickOcrTab | ClickRetry => activateOcrScanner s
  | ClickCapture v => capture v s
  | CameraGranted r =>
      if decide (r ∈ s.(gum)) then
        let st := s.(fresh) in
        bump (set_activeStream (Some st) (upd_live (union {[st]}) (upd_gum (fun g => g ∖ {[r]}) s)))
      else s
  | CameraDenied r =>
      if decide (r ∈ s.(gum)) then say CouldNotStartCamera (upd_gum (fun g => g ∖ {[r]}) s) else s
  | QrStarted i =>
      match s.(scanners) !! i with
      | Some QStarting =>
          let st := s.(fresh) in
          bump (upd_live (union {[st]}) (upd_scanners (<[i := QScanning st]>) s))
      | _ => s
      end
  | QrStartFailed i =>
      match s.(scanners) !! i with
      | Some QStarting => say CouldNotStartQr (upd_scanners (<[i := QFailed]>) s)
      | _ => s
      end
  | QrDecoded i text => if isScanning s i then onScanSuccess text s else s
  | QrStopped i =>
      match s.(scanners) !! i with
      | Some (QStopping st) => upd_live (fun l => l ∖ {[st]}) (upd_scanners (<[i := QStopped]>) s)
      | _ => s
      end
  | OcrAnswered p => ocr_answered p s
  end.

End Controller.

Abbreviation run recognize := (run_events (handle recognize)).

(** ** Frame lemmas: what each helper leaves unchanged *)

(** The camera-related part of the state, and the readiness flags. *)
Definition cam (s : scan_state) :=
  (s.(html5Qrcode), s.(activeStream), s.(scanners), s.(live), s.(gum)).
Definition ready (s : scan_state) := (s.(cvReady), s.(tesseractReady), s.(captureDisabled)).

Create Rewrite HintDb frame_rw.

Lemma cam_perform e s : cam (perform e s) = cam s.
Proof. by destruct e. Qed.
Lemma ready_perform e s : ready (perform e s) = ready s.
Proof. by destruct e. Qed.
Lemma fresh_perform e s : fresh (perform e s) = fresh s.
Proof. by destruct e. Qed.

Lemma perform_all_frame (P : scan_state -> Prop) l s :
  (forall e s, P s -> P (perform e s)) -> P s -> P (perform_all l s).
Proof. intros HP. revert s. induction l as [|e l IH]; simpl; auto. Qed.

Lemma cam_perform_all l s : cam (perform_all l s) = cam s.
Proof. apply (perform_all_frame (fun s' => cam s' = cam s)); [intros; by rewrite cam_perform | done]. Qed.
Lemma ready_perform_all l s : ready (perform_all l s) = ready s.
Proof. apply (perform_all_frame (fun s' => ready s' = ready s)); [intros; by rewrite ready_perform | done]. Qed.
Lemma fresh_perform_all l s : fresh (perform_all l s) = fresh s.
Proof. apply (perform_all_frame (fun s' => fresh s' = fresh s)); [intros; by rewrite fresh_perform | done]. Qed.

#[export] Hint Rewrite cam_perform ready_perform fresh_perform cam_perform_all
  ready_perform_all fresh_perform_all : frame_rw.

Section Frames.
Context `{CvFilters}.
Variable recognize : canvas -> ocr_outcome.

Lemma start_attempt_frame p st s :
  cam (start_attempt p st s) = cam s /\ ready (start_attempt p st s) = ready s /\
  fresh (start_attempt p st s) = fresh s.
Proof.
  unfold start_attempt. destruct (recognition_image _ _) as [img|]; [|done].
  pose proof (cam_perform (OcrCall st img) s). pose proof (ready_perform (OcrCall st img) s).
  pose proof (fresh_perform (OcrCall st img) s).
  unfold cam, ready in *; simpl in *. split_and!; assumption.
Qed.

Lemma ocr_answered_frame p s :
  cam (ocr_answered recognize p s) = cam s /\ ready (ocr_answered recognize p s) = ready s /\
  fresh (ocr_answered recognize p s) = fresh s.
Proof.
  unfold ocr_answered. destruct (pipelines s !! p) as [[img|img]|]; [| |done];
    destruct (accept _); autorewrite with frame_rw; try done;
    destruct (start_attempt_frame p Inverted (say RetryingInverted s)) as (-> & -> & ->);
    unfold say; autorewrite with frame_rw; done.
Qed.

Lemma pipeline_start_frame s :
  cam (pipeline_start s) = cam s /\ ready (pipeline_start s) = ready s /\
  fresh (pipeline_start s) = S (fresh s).
Proof.
  unfold pipeline_start. destruct (start_attempt_frame (fresh s) Standard
    (say AnalyzingAttempt1 (bump s))) as (-> & -> & ->).
  unfold say. autorewrite with frame_rw. done.
Qed.

End Frames.

Lemma ready_stopAllStreams s : ready (stopAllStreams s) = ready s.
Proof. unfold stopAllStreams, stop_current_qr, qr_stop. by repeat case_match. Qed.

Lemma fresh_stopAllStreams s : fresh (stopAllStreams s) = fresh s.
Proof. unfold stopAllStreams, stop_current_qr, qr_stop. by repeat case_match. Qed.

Lemma ready_onScanSuccess text s : ready (onScanSuccess text s) = ready s.
Proof.
  unfold onScanSuccess. autorewrite with frame_rw.
  unfold stop_current_qr, qr_stop. repeat case_match; by autorewrite with frame_rw.
Qed.

Lemma ready_startQrScanner s : ready (startQrScanner s) = ready s.
Proof. transitivity (ready (stopAllStreams s)); [reflexivity | apply ready_stopAllStreams]. Qed.

Lemma ready_activateOcrScanner s : ready (activateOcrScanner s) = ready s.
Proof. transitivity (ready (stopAllStreams s)); [reflexivity | apply ready_stopAllStreams]. Qed.

#[export] Hint Rewrite ready_stopAllStreams fresh_stopAllStreams ready_onScanSuccess
  ready_startQrScanner ready_activateOcrScanner : frame_rw.

(** ** Readiness of the capture button *)

Definition ready_inv (s : scan_state) : Prop :=
  s.(captureDisabled) = negb (s.(cvReady) && s.(tesseractReady)).

Lemma ready_inv_frame s s' : ready s' = ready s -> ready_inv s -> ready_inv s'.
Proof. unfold ready, ready_inv. by intros [= -> -> ->]. Qed.

Lemma check_ready_inv s :
  (s.(cvReady) && s.(tesseractReady) = false -> s.(captureDisabled) = true) ->
  ready_inv (checkIfOcrReady s).
Proof.
  unfold checkIfOcrReady, ready_inv. destruct (cvReady s && tesseractReady s) eqn:E.
  - case_decide; unfold say, perform; simpl; by rewrite E.
  - intros Hd. by rewrite E, Hd.
Qed.

Section Ready.
Context `{CvFilters}.
Variable recognize : canvas -> ocr_outcome.

Lemma ready_capture v s : ready (capture v s) = ready s.
Proof.
  unfold capture. destruct (captureDisabled s); [done|].
  destruct (activeStream s); [|done]. destruct (preprocessImage v).
  - autorewrite with frame_rw. rewrite (proj1 (proj2 (pipeline_start_frame _))).
    transitivity (ready (perform (PlaySound successSound) (set_showing ResultView s)));
      [reflexivity | by rewrite ready_perform].
  - transitivity (ready (perform (PlaySound successSound) (set_showing ResultView s)));
      [reflexivity | by rewrite ready_perform].
Qed.

Lemma handle_ready_inv s e : ready_inv s -> ready_inv (handle recognize s e).
Proof.
  intros Hs. destruct e; simpl.
  - apply check_ready_inv. simpl. unfold ready_inv in Hs. intros Ht.
    by rewrite Hs, Ht, andb_false_r.
  - apply check_ready_inv. simpl. unfold ready_inv in Hs. intros Hf. rewrite Hs.
    destruct (cvReady s); [discriminate | done].
  - apply (ready_inv_frame s); [apply ready_startQrScanner | done].
  - apply (ready_inv_frame s); [apply ready_activateOcrScanner | done].
  - apply (ready_inv_frame s); [apply ready_activateOcrScanner | done].
  - apply (ready_inv_frame s); [apply ready_capture | done].
  - case_decide; [|done]. by apply (ready_inv_frame s).
  - case_decide; [|done]. apply (ready_inv_frame s); [|done]. unfold say. by rewrite ready_perform.
  - case_match; try done. case_match; done.
  - repeat case_match; done.
  - case_match; [|done]. apply (ready_inv_frame s); [apply ready_onScanSuccess | done].
  - repeat case_match; done.
  - apply (ready_inv_frame s); [apply ocr_answered_frame | done].
Qed.

End Ready.

(** ** Ownership of camera streams *)

#[export] Instance qr_state_eq_dec : EqDecision qr_state.
Proof. solve_decision. Defined.

(** A live stream is owned when the page still reaches it: it is the
    OCR stream, the stream of the current scanning QR instance, or the
    stream of an instance being stopped. *)
Definition held (s : scan_state) (st : nat) : Prop :=
  s.(activeStream) = Some st \/
  (exists i, s.(html5Qrcode) = Some i /\ s.(scanners) !! i = Some (QScanning st)) \/
  (exists i, s.(scanners) !! i = Some (QStopping st)).

Definition no_leak (s : scan_state) : Prop := forall st, st ∈ s.(live) -> held s st.

(** No camera request is outstanding: no [getUserMedia] pending and no
    QR instance still starting. *)
Definition quiet (s : scan_state) : bool :=
  bool_decide (s.(gum) = ∅) && bool_decide (map_Forall (fun _ q => q <> QStarting) s.(scanners)).

Record cam_inv (s : scan_state) : Prop := {
  ci_no_leak : no_leak s;
  ci_starting : forall i, s.(scanners) !! i = Some QStarting -> s.(html5Qrcode) = Some i;
  ci_scanning : forall i st, s.(scanners) !! i = Some (QScanning st) -> s.(html5Qrcode) = Some i;
  ci_gum : s.(gum) = ∅ \/ exists r, s.(gum) = {[r]} /\ s.(activeStream) = None;
  ci_fresh : forall i q, s.(scanners) !! i = Some q -> (i < s.(fresh))%nat
}.

Lemma quiet_spec s :
  quiet s = true -> s.(gum) = ∅ /\ forall i, s.(scanners) !! i <> Some QStarting.
Proof.
  unfold quiet. intros [H1 H2]%andb_true_iff.
  apply bool_decide_eq_true in H1, H2. split; [done|]. intros i Hi. by apply (H2 i QStarting).
Qed.

Lemma cam_inv_frame s s' :
  cam s' = cam s -> (fresh s <= fresh s')%nat -> cam_inv s -> cam_inv s'.
Proof.
  unfold cam. intros [= Hq Ha Hsc Hl Hg] Hf [Hn Hst Hsn Hgu Hfr].
  unfold no_leak, held in *. split; unfold no_leak, held; rewrite ?Hq, ?Ha, ?Hsc, ?Hl, ?Hg; auto.
  intros i q Hi. specialize (Hfr i q Hi). lia.
Qed.

Lemma stop_current_qr_cases s :
  cam_inv s ->
  (stop_current_qr s = s /\ forall i st, s.(scanners) !! i <> Some (QScanning st)) \/
  (exists i st, s.(html5Qrcode) = Some i /\ s.(scanners) !! i = Some (QScanning st) /\
     stop_current_qr s = upd_scanners (<[i := QStopping st]>) s).
Proof.
  intros Hc. unfold stop_current_qr, isScanning, qr_stop.
  destruct (html5Qrcode s) as [i|] eqn:Ei.
  - destruct (scanners s !! i) as [[|st|st| |]|] eqn:Es;
      try (right; by exists i, st);
      left; split; try done; intros j st' Hj; pose proof (ci_scanning _ Hc j st' Hj) as Hj';
      rewrite Ei in Hj'; injection Hj' as ->; congruence.
  - left. split; [done|]. intros j st' Hj. pose proof (ci_scanning _ Hc j st' Hj). congruence.
Qed.

Lemma qr_stop_inv s i st :
  cam_inv s -> s.(html5Qrcode) = Some i -> s.(scanners) !! i = Some (QScanning st) ->
  cam_inv (upd_scanners (<[i := QStopping st]>) s) /\
  forall j st', (<[i := QStopping st]> s.(scanners)) !! j <> Some (QScanning st').
Proof.
  intros [Hn Hst Hsn Hgu Hfr] Ei Es. split; [split; simpl; try done|].
  - intros x Hx. unfold held; simpl.
    destruct (Hn x Hx) as [Ha | [(j & Ej & Hj) | (j & Hj)]]; [by left | |].
    + right; right. exists i. rewrite Ei in Ej. injection Ej as <-. rewrite Es in Hj.
      injection Hj as ->. by rewrite lookup_insert_eq.
    + right; right. exists j. destruct (decide (i = j)) as [->|Hne]; [congruence|].
      by rewrite lookup_insert_ne.
  - intros j Hj. destruct (decide (i = j)) as [->|Hne];
      [by rewrite lookup_insert_eq in Hj | rewrite lookup_insert_ne in Hj by done; eauto].
  - intros j st' Hj. destruct (decide (i = j)) as [->|Hne];
      [by rewrite lookup_insert_eq in Hj | rewrite lookup_insert_ne in Hj by done; eauto].
  - intros j q Hj. destruct (decide (i = j)) as [->|Hne];
      [eauto | rewrite lookup_insert_ne in Hj by done; eauto].
  - intros j st' Hj. destruct (decide (i = j)) as [->|Hne];
      [by rewrite lookup_insert_eq in Hj | rewrite lookup_insert_ne in Hj by done].
    pose proof (Hsn j st' Hj). congruence.
Qed.

Lemma stop_current_qr_cases_fields s :
  (stop_current_qr s).(activeStream) = s.(activeStream) /\ (stop_current_qr s).(live) = s.(live) /\
  (stop_current_qr s).(pipelines) = s.(pipelines) /\ (stop_current_qr s).(snapshot) = s.(snapshot) /\
  (stop_current_qr s).(log) = s.(log).
Proof. unfold stop_current_qr, isScanning, qr_stop. by repeat case_match. Qed.

(** After [stop_current_qr], no instance scans and the camera
    invariant still holds; nothing else of the camera state changes. *)
Lemma stop_current_qr_inv s :
  cam_inv s ->
  cam_inv (stop_current_qr s) /\
  (forall i st, (stop_current_qr s).(scanners) !! i <> Some (QScanning st)) /\
  (forall i, (stop_current_qr s).(scanners) !! i = Some QStarting -> s.(scanners) !! i = Some QStarting) /\
  (stop_current_qr s).(activeStream) = s.(activeStream) /\ (stop_current_qr s).(live) = s.(live) /\
  (stop_current_qr s).(gum) = s.(gum) /\ (stop_current_qr s).(html5Qrcode) = s.(html5Qrcode) /\
  (stop_current_qr s).(fresh) = s.(fresh).
Proof.
  intros Hc. destruct (stop_current_qr_cases s Hc) as [[-> Hno] | (i & st & Ei & Es & ->)].
  - by split_and!.
  - destruct (qr_stop_inv s i st Hc Ei Es) as [Hc' Hno]. split_and!; try done.
    simpl. intros j Hj. destruct (decide (i = j)) as [->|Hne];
      [by rewrite lookup_insert_eq in Hj | by rewrite lookup_insert_ne in Hj].
Qed.

(** Case on whether a lookup hits the key just inserted. *)
Ltac ins_case i j H :=
  destruct (decide (i = j)) as [<-|?Hne];
  [rewrite lookup_insert_eq in H | rewrite lookup_insert_ne in H by done].

(** Changing only the pending requests keeps the invariant when they
    are in the allowed shape. *)
Lemma cam_inv_gum s s' :
  s'.(html5Qrcode) = s.(html5Qrcode) -> s'.(activeStream) = s.(activeStream) ->
  s'.(scanners) = s.(scanners) -> s'.(live) = s.(live) -> (s.(fresh) <= s'.(fresh))%nat ->
  (s'.(gum) = ∅ \/ exists r, s'.(gum) = {[r]} /\ s'.(activeStream) = None) ->
  cam_inv s -> cam_inv s'.
Proof.
  intros Hq Ha Hsc Hl Hf Hg [Hn Hst Hsn _ Hfr]. split.
  - unfold no_leak, held. rewrite Hq, Ha, Hsc, Hl. exact Hn.
  - rewrite Hq, Hsc. exact Hst.
  - rewrite Hq, Hsc. exact Hsn.
  - exact Hg.
  - intros i q Hi. rewrite Hsc in Hi. specialize (Hfr i q Hi). lia.
Qed.

Lemma stopAllStreams_inv s :
  cam_inv s ->
  cam_inv (stopAllStreams s) /\
  (forall i st, (stopAllStreams s).(scanners) !! i <> Some (QScanning st)) /\
  (forall i, (stopAllStreams s).(scanners) !! i = Some QStarting -> s.(scanners) !! i = Some QStarting) /\
  (stopAllStreams s).(activeStream) = None /\ (stopAllStreams s).(gum) = s.(gum) /\
  (stopAllStreams s).(html5Qrcode) = s.(html5Qrcode) /\ (stopAllStreams s).(fresh) = s.(fresh).
Proof.
  intros Hc. unfold stopAllStreams.
  destruct (stop_current_qr_inv s Hc) as (Hc1 & Hno & Hstart & Ha & Hl & Hg & Hh & Hf).
  destruct (activeStream (stop_current_qr s)) as [st|] eqn:E; [|by split_and!].
  split_and!; try done. destruct Hc1 as [Hn Hst Hsn Hgu Hfr].
  split; simpl; try done.
  - intros x Hx. apply elem_of_difference in Hx as [Hx Hx'].
    destruct (Hn x Hx) as [Ha' | Hr]; [|by right].
    rewrite E in Ha'. injection Ha' as ->. set_solver.
  - left. destruct Hgu as [Hgu | (r & _ & Ha')]; [done | congruence].
Qed.

Section Handlers.
Context `{CvFilters}.
Variable recognize : canvas -> ocr_outcome.

Lemma startQrScanner_inv s : quiet s = true -> cam_inv s -> cam_inv (startQrScanner s).
Proof.
  intros Hq Hc. apply quiet_spec in Hq as [Hg0 Hq].
  destruct (stopAllStreams_inv s Hc) as (Hc1 & Hno & Hstart & Ha & Hg & Hh & Hf).
  unfold startQrScanner. destruct Hc1 as [Hn Hst Hsn Hgu Hfr]. split; unfold no_leak, held; simpl.
  - intros x Hx. destruct (Hn x Hx) as [Ha' | [(j & _ & Hj) | (j & Hj)]];
      [by rewrite Ha in Ha' | by apply Hno in Hj |].
    right; right. exists j. rewrite lookup_insert_ne; [done|].
    specialize (Hfr j _ Hj). simpl in Hfr. lia.
  - intros j Hj. ins_case (fresh (stopAllStreams s)) j Hj; [done|].
    apply Hstart in Hj. by apply Hq in Hj.
  - intros j st Hj. ins_case (fresh (stopAllStreams s)) j Hj; [done|]. by apply Hno in Hj.
  - left. by rewrite Hg.
  - intros j q Hj. ins_case (fresh (stopAllStreams s)) j Hj; [lia|].
    specialize (Hfr j q Hj). lia.
Qed.

Lemma activateOcrScanner_inv s : quiet s = true -> cam_inv s -> cam_inv (activateOcrScanner s).
Proof.
  intros Hq Hc. destruct (quiet_spec s Hq) as [Hg0 _].
  destruct (stopAllStreams_inv s Hc) as (Hc1 & _ & _ & Ha & Hg & _ & _).
  unfold activateOcrScanner. apply (cam_inv_gum (stopAllStreams s)); simpl; try done; [lia|].
  right. exists (fresh (stopAllStreams s)). split; [|done]. rewrite Hg, Hg0. set_solver.
Qed.

Lemma capture_inv v s : cam_inv s -> cam_inv (capture v s).
Proof.
  intros Hc. unfold capture. destruct (captureDisabled s); [done|].
  destruct (activeStream s); [|done].
  assert (Hc' : cam_inv (perform (PlaySound successSound) (set_showing ResultView s))).
  { apply (cam_inv_frame s); [by rewrite cam_perform | by rewrite fresh_perform | done]. }
  destruct (preprocessImage v) as [c|].
  - apply stopAllStreams_inv. destruct (pipeline_start_frame (set_snapshot c
      (perform (PlaySound successSound) (set_showing ResultView s)))) as (Hcam & _ & Hf).
    apply (cam_inv_frame _ _ Hcam); [rewrite Hf; simpl; lia|].
    apply (cam_inv_frame (perform (PlaySound successSound) (set_showing ResultView s)));
      [reflexivity | simpl; lia | exact Hc'].
  - apply (cam_inv_frame (perform (PlaySound successSound) (set_showing ResultView s)));
      [reflexivity | simpl; lia | exact Hc'].
Qed.

Lemma cameraGranted_inv r s :
  r ∈ s.(gum) -> cam_inv s ->
  cam_inv (bump (set_activeStream (Some s.(fresh))
    (upd_live (union {[s.(fresh)]}) (upd_gum (fun g => g ∖ {[r]}) s)))).
Proof.
  intros Hr [Hn Hst Hsn Hgu Hfr].
  destruct Hgu as [Hg | (r' & Hg & Ha)]; [rewrite Hg in Hr; set_solver|].
  split; unfold no_leak, held; simpl.
  - intros x Hx. apply elem_of_union in Hx as [Hx|Hx]; [left; set_solver|].
    destruct (Hn x Hx) as [Ha'|Hr']; [congruence | by right].
  - exact Hst.
  - exact Hsn.
  - left. rewrite Hg. set_solver.
  - intros i q Hi. specialize (Hfr i q Hi). lia.
Qed.

Lemma qrStarted_inv i s :
  s.(scanners) !! i = Some QStarting -> cam_inv s ->
  cam_inv (bump (upd_live (union {[s.(fresh)]}) (upd_scanners (<[i := QScanning s.(fresh)]>) s))).
Proof.
  intros Hi [Hn Hst Hsn Hgu Hfr]. pose proof (Hst i Hi) as Hcur.
  split; unfold no_leak, held; simpl.
  - intros x Hx. apply elem_of_union in Hx as [Hx|Hx].
    + apply elem_of_singleton in Hx as ->. right; left. exists i. by rewrite lookup_insert_eq.
    + destruct (Hn x Hx) as [Ha | [(j & Ej & Hj) | (j & Hj)]]; [by left | |].
      * rewrite Hcur in Ej. injection Ej as <-. congruence.
      * right; right. exists j. destruct (decide (i = j)) as [<-|Hne]; [congruence|].
        by rewrite lookup_insert_ne.
  - intros j Hj. ins_case i j Hj; [done | auto].
  - intros j st Hj. ins_case i j Hj; [done | eauto].
  - exact Hgu.
  - intros j q Hj. ins_case i j Hj; [specialize (Hfr i _ Hi) | specialize (Hfr j q Hj)]; lia.
Qed.

Lemma qrStartFailed_inv i s :
  s.(scanners) !! i = Some QStarting -> cam_inv s -> cam_inv (upd_scanners (<[i := QFailed]>) s).
Proof.
  intros Hi [Hn Hst Hsn Hgu Hfr]. split; unfold no_leak, held; simpl.
  - intros x Hx. destruct (Hn x Hx) as [Ha | [(j & Ej & Hj) | (j & Hj)]]; [by left | |];
      right; [left | right]; exists j; (destruct (decide (i = j)) as [<-|Hne]; [congruence|]);
      by rewrite lookup_insert_ne.
  - intros j Hj. ins_case i j Hj; [done | auto].
  - intros j st Hj. ins_case i j Hj; [done | eauto].
  - exact Hgu.
  - intros j q' Hj. ins_case i j Hj; [specialize (Hfr i _ Hi) | specialize (Hfr j q' Hj)]; lia.
Qed.

Lemma qrStopped_inv i st s :
  s.(scanners) !! i = Some (QStopping st) -> cam_inv s ->
  cam_inv (upd_live (fun l => l ∖ {[st]}) (upd_scanners (<[i := QStopped]>) s)).
Proof.
  intros Hi [Hn Hst Hsn Hgu Hfr]. split; unfold no_leak, held; simpl.
  - intros x Hx. apply elem_of_difference in Hx as [Hx Hx'].
    destruct (Hn x Hx) as [Ha | [(j & Ej & Hj) | (j & Hj)]]; [by left | |].
    + right; left. exists j. split; [done|].
      destruct (decide (i = j)) as [<-|Hne]; [congruence | by rewrite lookup_insert_ne].
    + right; right. exists j. destruct (decide (i = j)) as [<-|Hne]; [|by rewrite lookup_insert_ne].
      rewrite Hi in Hj. injection Hj as ->. set_solver.
  - intros j Hj. ins_case i j Hj; [done | auto].
  - intros j st' Hj. ins_case i j Hj; [done | eauto].
  - exact Hgu.
  - intros j q Hj. ins_case i j Hj; [specialize (Hfr i _ Hi) | specialize (Hfr j q Hj)]; lia.
Qed.

(** A step that leaves the camera state alone and does not decrease
    [fresh] keeps the invariant. *)
Ltac cam_frame Hc := refine (cam_inv_frame _ _ _ _ Hc); [reflexivity | simpl; lia].

Lemma cam_inv_perform e s : cam_inv s -> cam_inv (perform e s).
Proof. apply cam_inv_frame; [apply cam_perform | rewrite fresh_perform; lia]. Qed.

Lemma cam_inv_perform_all l s : cam_inv s -> cam_inv (perform_all l s).
Proof. apply perform_all_frame. intros. by apply cam_inv_perform. Qed.

Lemma cam_inv_check s : cam_inv s -> cam_inv (checkIfOcrReady s).
Proof.
  intros Hc. unfold checkIfOcrReady. destruct (_ && _); [|done].
  case_decide; [apply cam_inv_perform|]; cam_frame Hc.
Qed.

(** Every event preserves the camera invariant, provided the user acts
    only when no camera request is outstanding. *)
Lemma handle_cam_inv s e :
  (user_event e = true -> quiet s = true) -> cam_inv s -> cam_inv (handle recognize s e).
Proof.
  intros Hok Hc. destruct e; simpl in Hok |- *.
  - apply cam_inv_check. cam_frame Hc.
  - apply cam_inv_check. cam_frame Hc.
  - by apply startQrScanner_inv; [apply Hok|].
  - by apply activateOcrScanner_inv; [apply Hok|].
  - by apply activateOcrScanner_inv; [apply Hok|].
  - by apply capture_inv.
  - case_decide; [by apply cameraGranted_inv | done].
  - case_decide; [|done]. apply cam_inv_perform.
    destruct Hc as [Hn Hst Hsn Hgu Hfr]. split; try done; simpl.
    destruct Hgu as [Hg | (r' & Hg & Ha)]; [left; rewrite Hg; set_solver|].
    left. rewrite Hg in *. set_solver.
  - destruct (scanners s !! inst) as [[| | | |]|] eqn:Ei; try done. by apply qrStarted_inv.
  - destruct (scanners s !! inst) as [[| | | |]|] eqn:Ei; try done.
    apply cam_inv_perform. by apply qrStartFailed_inv.
  - destruct (isScanning s inst); [|done]. unfold onScanSuccess.
    apply cam_inv_perform_all. apply stop_current_qr_inv. by apply cam_inv_perform.
  - destruct (scanners s !! inst) as [[| | st | |]|] eqn:Ei; try done. by apply qrStopped_inv.
  - destruct (ocr_answered_frame recognize run_id s) as (Hcam & _ & Hf).
    apply (cam_inv_frame s); [done | rewrite Hf; lia | done].
Qed.

End Handlers.

(** The page before its script runs: a default 300 x 150 canvas. *)
Definition blank : scan_state :=
  MkState false false false QrTab VideoView None None None
    (Canvas 300 150 (replicate 150 (replicate 300 (Px 0 0 0 0)))) ∅ ∅ ∅ ∅ [] 0.

Definition init : scan_state := domContentLoaded blank.

(** The user acts only when no camera request is outstanding. *)
Definition serial_ok (s : scan_state) (e : event) : Prop := user_event e = true -> quiet s = true.

Lemma init_cam_inv : cam_inv init.
Proof.
  assert (Hq : html5Qrcode init = Some 0%nat) by reflexivity.
  assert (Ha : activeStream init = None) by reflexivity.
  assert (Hsc : scanners init = {[0%nat := QStarting]}) by reflexivity.
  assert (Hl : live init = ∅) by reflexivity.
  assert (Hg : gum init = ∅) by reflexivity.
  assert (Hf : fresh init = 1%nat) by reflexivity.
  split; unfold no_leak, held; rewrite ?Hq, ?Ha, ?Hsc, ?Hl, ?Hg, ?Hf.
  - set_solver.
  - intros i Hi. apply lookup_singleton_Some in Hi as [<- _]. done.
  - intros i st Hi. apply lookup_singleton_Some in Hi as [_ Hi]. done.
  - by left.
  - intros i q Hi. apply lookup_singleton_Some in Hi as [<- _]. lia.
Qed.

Section Safety.
Context `{CvFilters}.

(** C3. No leaked camera: in every run from page load where the user
    switches tab, retries or captures only when no camera request is
    outstanding (no [getUserMedia] pending, no QR instance starting),
    every live camera stream is still reachable by the page (the OCR
    stream, the current scanning QR instance, or an instance being
    stopped), so the next [stopAllStreams] releases it. *)
Theorem serial_runs_no_leak (recognize : canvas -> ocr_outcome) (evs : list event) :
  respects (handle recognize) serial_ok init evs -> no_leak (run recognize init evs).
Proof.
  intros Hr. apply ci_no_leak.
  apply (run_events_invariant (handle recognize) cam_inv serial_ok); [|apply init_cam_inv|done].
  intros s e Hs Hok. by apply handle_cam_inv.
Qed.

End Safety.

(** ** Streams the page can no longer reach *)

(** Instance [i] scans stream [st], but the page's [html5Qrcode] refers
    to another instance, [activeStream] to another stream, and no other
    instance holds [st]. *)
Record orphan (i st : nat) (s : scan_state) : Prop := {
  or_scan : s.(scanners) !! i = Some (QScanning st);
  or_live : st ∈ s.(live);
  or_notcur : s.(html5Qrcode) <> Some i;
  or_notactive : s.(activeStream) <> Some st;
  or_fresh : (i < s.(fresh))%nat /\ (st < s.(fresh))%nat;
  or_excl : map_Forall (fun j q => j <> i -> q <> QScanning st /\ q <> QStopping st) s.(scanners)
}.

Lemma orphan_not_held i st s : orphan i st s -> st ∈ s.(live) /\ ~ held s st.
Proof.
  intros [Hs Hl Hn Ha Hf Hx]. split; [done|]. intros [Ha' | [(j & Ej & Hj) | (j & Hj)]].
  - done.
  - destruct (decide (j = i)) as [->|Hne]; [done|]. by destruct (Hx j _ Hj Hne).
  - destruct (decide (j = i)) as [->|Hne]; [congruence|]. by destruct (Hx j _ Hj Hne).
Qed.

Lemma orphan_frame i st s s' :
  s'.(html5Qrcode) = s.(html5Qrcode) -> s'.(activeStream) = s.(activeStream) ->
  s'.(scanners) = s.(scanners) -> s'.(live) = s.(live) -> (s.(fresh) <= s'.(fresh))%nat ->
  orphan i st s -> orphan i st s'.
Proof.
  intros Hq Ha Hsc Hl Hf [Hs Hli Hn Hna Hfr Hx].
  split; rewrite ?Hq, ?Ha, ?Hsc, ?Hl; auto. lia.
Qed.

Ltac orphan_frame H := refine (orphan_frame _ _ _ _ _ _ _ _ _ H); simpl; try reflexivity; try lia.

Lemma orphan_insert i st s j q :
  j <> i -> (q <> QScanning st /\ q <> QStopping st) -> orphan i st s ->
  orphan i st (upd_scanners (<[j := q]>) s).
Proof.
  intros Hji Hq [Hs Hli Hn Hna Hfr Hx]. split; simpl; try done.
  - by rewrite lookup_insert_ne.
  - apply map_Forall_insert_2; auto.
Qed.

Lemma orphan_stop_current i st s : orphan i st s -> orphan i st (stop_current_qr s).
Proof.
  intros Ho. unfold stop_current_qr, isScanning, qr_stop.
  destruct (html5Qrcode s) as [j|] eqn:Ej; [|done].
  destruct (scanners s !! j) as [[|x|x| |]|] eqn:Es; try done.
  assert (Hji : j <> i) by (intros ->; by apply (or_notcur _ _ _ Ho)).
  apply orphan_insert; [done| |done].
  destruct (or_excl _ _ _ Ho j _ Es Hji). split; congruence.
Qed.

Lemma orphan_stopAll i st s : orphan i st s -> orphan i st (stopAllStreams s).
Proof.
  intros Ho. apply orphan_stop_current in Ho. unfold stopAllStreams.
  destruct (activeStream (stop_current_qr s)) as [a|] eqn:Ea; [|done].
  destruct Ho as [Hs Hli Hn Hna Hfr Hx]. split; simpl; try done.
  apply elem_of_difference. split; [done|]. intros ->%elem_of_singleton. congruence.
Qed.

Lemma orphan_perform_all i st l s : orphan i st s -> orphan i st (perform_all l s).
Proof.
  apply perform_all_frame. intros e s' H'.
  pose proof (cam_perform e s') as Hc. pose proof (fresh_perform e s') as Hf.
  unfold cam in Hc. injection Hc as Hq Ha Hsc Hl Hg.
  apply (orphan_frame _ _ s'); auto. lia.
Qed.

Lemma orphan_perform i st e s : orphan i st s -> orphan i st (perform e s).
Proof. apply (orphan_perform_all i st [e]). Qed.

Section Orphans.
Context `{CvFilters}.
Variable recognize : canvas -> ocr_outcome.

(** Nothing the page or its collaborators do reaches an orphan. *)
Lemma handle_orphan i st s e : orphan i st s -> orphan i st (handle recognize s e).
Proof.
  intros Ho. destruct e; simpl.
  - unfold checkIfOcrReady. repeat case_match; try apply orphan_perform; orphan_frame Ho.
  - unfold checkIfOcrReady. repeat case_match; try apply orphan_perform; orphan_frame Ho.
  - unfold startQrScanner. pose proof (orphan_stopAll _ _ _ Ho) as Ho'.
    destruct Ho' as [Hs Hli Hn Hna Hfr Hx]. split; simpl; try done; try lia.
    + rewrite lookup_insert_ne; [done | lia].
    + intros [= Hi]. lia.
    + apply map_Forall_insert_2; [done | exact Hx].
  - unfold activateOcrScanner. pose proof (orphan_stopAll _ _ _ Ho) as Ho'. orphan_frame Ho'.
  - unfold activateOcrScanner. pose proof (orphan_stopAll _ _ _ Ho) as Ho'. orphan_frame Ho'.
  - unfold capture. destruct (captureDisabled s); [done|]. destruct (activeStream s); [|done].
    pose proof (orphan_perform _ _ (PlaySound successSound) _
      (orphan_frame _ _ s (set_showing ResultView s) eq_refl eq_refl eq_refl eq_refl (le_n _) Ho))
      as Ho'.
    destruct (preprocessImage v); [|orphan_frame Ho'].
    apply orphan_stopAll. destruct (pipeline_start_frame (set_snapshot c
      (perform (PlaySound successSound) (set_showing ResultView s)))) as (Hc & _ & Hf).
    unfold cam in Hc. injection Hc as Hq Ha Hsc Hl Hg.
    apply (orphan_frame _ _ (set_snapshot c (perform (PlaySound successSound)
      (set_showing ResultView s)))); auto; [rewrite Hf; lia | orphan_frame Ho'].
  - case_decide; [|done]. destruct Ho as [Hs Hli Hn Hna Hfr Hx]. split; simpl; try done; try lia.
    + set_solver.
    + intros [= Ha]. lia.
  - case_decide; [|done]. apply orphan_perform. orphan_frame Ho.
  - destruct (scanners s !! inst) as [[| | | |]|] eqn:Ei; try done.
    assert (Hne : inst <> i) by (intros ->; rewrite (or_scan _ _ _ Ho) in Ei; done).
    pose proof (orphan_insert i st s inst (QScanning (fresh s)) Hne) as Hins.
    destruct Ho as [Hs Hli Hn Hna Hfr Hx].
    destruct (Hins ltac:(split; intros [= ?]; lia) ltac:(by split)) as [Hs' Hli' Hn' Hna' Hfr' Hx'].
    split; simpl in *; try done; try lia. set_solver.
  - destruct (scanners s !! inst) as [[| | | |]|] eqn:Ei; try done.
    assert (Hne : inst <> i) by (intros ->; rewrite (or_scan _ _ _ Ho) in Ei; done).
    apply orphan_perform. by apply orphan_insert.
  - destruct (isScanning s inst); [|done]. unfold onScanSuccess.
    apply orphan_perform_all, orphan_stop_current, orphan_perform, Ho.
  - destruct (scanners s !! inst) as [[| | x | |]|] eqn:Ei; try done.
    assert (Hne : inst <> i) by (intros ->; rewrite (or_scan _ _ _ Ho) in Ei; done).
    destruct (or_excl _ _ _ Ho inst _ Ei Hne) as [_ Hx].
    pose proof (orphan_insert _ _ _ inst QStopped Hne ltac:(done) Ho) as Ho'.
    destruct Ho' as [Hs Hli Hn Hna Hfr Hx']. split; simpl in *; try done.
    apply elem_of_difference. split; [done|]. intros ->%elem_of_singleton. congruence.
  - destruct (ocr_answered_frame recognize run_id s) as (Hc & _ & Hf).
    unfold cam in Hc. injection Hc as Hq Ha Hsc Hl Hg.
    apply (orphan_frame _ _ s); auto. lia.
Qed.

End Orphans.

(** ** Interleavings the code does not guard against *)

(** The page loads (instance 0 starts, the camera permission prompt is
    shown), the user taps the QR tab before answering it (instance 1),
    then both [start()] calls resolve. *)
Definition leak_prefix : list event := [ClickQrTab; QrStarted 0; QrStarted 1].

Section Interleavings.
Context `{CvFilters}.
Variable recognize : canvas -> ocr_outcome.

Lemma leak_prefix_orphan : orphan 0 2 (run recognize init leak_prefix).
Proof.
  split.
  - vm_compute. reflexivity.
  - apply (bool_decide_eq_true _). vm_compute. reflexivity.
  - vm_compute. discriminate.
  - vm_compute. discriminate.
  - vm_compute. lia.
  - apply (bool_decide_eq_true _). vm_compute. reflexivity.
Qed.

(** C30. Restarting the QR scanner while its first [start()] is pending
    leaks a camera: [stopAllStreams] only stops an instance that
    [isScanning], so the first instance is replaced without being
    stopped; once its start resolves it scans stream 2 for ever.
    Whatever happens afterwards, stream 2 stays live, instance 0 keeps
    scanning, and the page can no longer reach it. *)
Theorem qr_restart_leaks_forever (evs : list event) :
  2%nat ∈ (run recognize init (leak_prefix ++ evs)).(live) /\
  ~ held (run recognize init (leak_prefix ++ evs)) 2 /\
  (run recognize init (leak_prefix ++ evs)).(scanners) !! 0%nat = Some (QScanning 2).
Proof.
  pose proof (run_events_app (handle recognize) init leak_prefix evs) as Happ.
  assert (Ho : orphan 0 2 (run_events (handle recognize) (run recognize init leak_prefix) evs)).
  { apply run_events_invariant_all; [intros; by apply handle_orphan | apply leak_prefix_orphan]. }
  rewrite Happ. destruct (orphan_not_held _ _ _ Ho) as [Hl Hh].
  exact (conj Hl (conj Hh (or_scan _ _ _ Ho))).
Qed.

Lemma stopAllStreams_idle s i :
  s.(html5Qrcode) = Some i -> isScanning s i = false ->
  (stopAllStreams s).(scanners) = s.(scanners) /\ (stopAllStreams s).(html5Qrcode) = Some i /\
  (stopAllStreams s).(gum) = s.(gum) /\ (stopAllStreams s).(fresh) = s.(fresh).
Proof.
  intros Hq Hs. unfold stopAllStreams, stop_current_qr. rewrite Hq, Hs.
  destruct (activeStream s); simpl; by split_and!.
Qed.

(** C34. The QR scanner and the OCR camera run at once: in every state
    whose current QR instance is still starting (the page-load instance
    while the permission prompt is open), opening the OCR tab does not
    stop that instance ([stopAllStreams] only stops an instance that
    [isScanning]); when both camera requests resolve, the OCR tab shows
    its own stream while the QR instance scans a second stream in the
    hidden QR tab. *)
Theorem ocr_tab_two_cameras (s : scan_state) (i : nat) :
  s.(html5Qrcode) = Some i -> s.(scanners) !! i = Some QStarting ->
  let s' := run recognize s [ClickOcrTab; QrStarted i; CameraGranted s.(fresh)] in
  s'.(tab_active) = OcrTab /\ s'.(html5Qrcode) = Some i /\
  s'.(scanners) !! i = Some (QScanning (S s.(fresh))) /\
  s'.(activeStream) = Some (S (S s.(fresh))) /\
  S s.(fresh) ∈ s'.(live) /\ S (S s.(fresh)) ∈ s'.(live).
Proof.
  intros Hq Hi s'. subst s'.
  assert (Hns : isScanning s i = false) by (unfold isScanning; by rewrite Hi).
  destruct (stopAllStreams_idle s i Hq Hns) as (Hsc & Hq' & Hg & Hf).
  cbn [run_events handle]. unfold activateOcrScanner. cbn.
  rewrite Hsc, Hi, Hf. cbn. rewrite decide_True by set_solver. cbn. rewrite Hf.
  split_and!; try done; [by rewrite lookup_insert_eq | set_solver | set_solver].
Qed.

End Interleavings.

(** A second frame, wider than [sample_frame]. *)
Definition wide_frame : video := uniform_video 20 20 (Px 200 120 40 255) grey_ok.

(** ** The handlers, branch by branch *)

Lemma log_perform_all l s : log (perform_all l s) = log s ++ l.
Proof.
  revert s. induction l as [|e l IH]; intros s; simpl; [by rewrite app_nil_r|].
  rewrite IH. destruct e; simpl; by rewrite <- app_assoc.
Qed.

Lemma perform_all_keeps l s :
  pipelines (perform_all l s) = pipelines s /\ snapshot (perform_all l s) = snapshot s.
Proof. apply (perform_all_frame (fun s' => pipelines s' = pipelines s /\ snapshot s' = snapshot s));
  [intros e s' [H1 H2]; by destruct e | done]. Qed.

Section Behaviour.
Context `{CvFiltersLaws}.
Variable recognize : canvas -> ocr_outcome.

(** C19. From page load, in every run, the capture button is disabled
    exactly when OpenCV or the Tesseract worker is not ready yet. *)
Theorem capture_enabled_iff_ready (evs : list event) :
  (run recognize init evs).(captureDisabled) =
  negb ((run recognize init evs).(cvReady) && (run recognize init evs).(tesseractReady)).
Proof.
  apply (run_events_invariant_all _ ready_inv); [|reflexivity].
  intros s e Hs. by apply handle_ready_inv.
Qed.

Lemma stopAllStreams_fields s :
  (stopAllStreams s).(activeStream) = None /\ (stopAllStreams s).(pipelines) = s.(pipelines) /\
  (stopAllStreams s).(snapshot) = s.(snapshot) /\ (stopAllStreams s).(log) = s.(log) /\
  forall a, s.(activeStream) = Some a -> (stopAllStreams s).(live) = s.(live) ∖ {[a]}.
Proof.
  unfold stopAllStreams. destruct (stop_current_qr_cases_fields s) as (Ha & Hl & Hp & Hs & Hg).
  rewrite Ha. destruct (activeStream s) as [a|]; simpl; split_and!; congruence.
Qed.

Lemma pipeline_start_standard s img :
  recognition_image s.(snapshot) Standard = Some img ->
  (pipeline_start s).(pipelines) = <[s.(fresh) := AwaitStandard img]> s.(pipelines) /\
  (pipeline_start s).(snapshot) = s.(snapshot) /\
  (pipeline_start s).(log) = s.(log) ++ [SetStatus AnalyzingAttempt1; OcrCall Standard img] /\
  cam (pipeline_start s) = cam s.
Proof.
  intros Hi. unfold pipeline_start, start_attempt, say, perform. simpl.
  rewrite Hi. simpl. split_and!; try done. by rewrite <- app_assoc.
Qed.

(** A capture on a usable frame: the success sound, the "Analyzing"
    status and the first engine call on the preprocessed canvas, one
    new recognition run awaiting the engine, and the OCR camera
    released. *)
Theorem capture_releases_camera (v : video) (s : scan_state) (st : nat) (c : canvas) :
  s.(captureDisabled) = false -> s.(activeStream) = Some st -> preprocessImage v = Some c ->
  (capture v s).(activeStream) = None /\ st ∉ (capture v s).(live) /\
  (capture v s).(snapshot) = c /\
  (capture v s).(pipelines) = <[s.(fresh) := AwaitStandard c]> s.(pipelines) /\
  (capture v s).(log) = s.(log) ++ [PlaySound successSound; SetStatus AnalyzingAttempt1;
                                    OcrCall Standard c].
Proof.
  intros Hd Ha Hp. unfold capture. rewrite Hd, Ha, Hp.
  set (s1 := set_snapshot c (perform (PlaySound successSound) (set_showing ResultView s))).
  destruct (preprocess_pixels v c Hp) as (_ & Hw & Hh & _).
  destruct (pipeline_start_standard s1 c (recognition_standard_id c Hw Hh))
    as (Hpl & Hsn & Hlg & Hcam).
  destruct (stopAllStreams_fields (pipeline_start s1)) as (Ha' & Hp' & Hs' & Hl' & Hlive).
  assert (Has : (pipeline_start s1).(activeStream) = Some st)
    by (unfold cam in Hcam; injection Hcam as _ -> _ _ _; exact Ha).
  rewrite Ha', Hp', Hs', Hl', (Hlive st Has), Hpl, Hsn, Hlg. simpl.
  split_and!; try done; [set_solver | by rewrite <- app_assoc].
Qed.

(** C32. A capture while the video has no usable frame (narrower than 2
    or lower than 4 pixels, e.g. before its metadata loaded): the video
    is hidden and the success sound plays, then [cv.imread] throws in
    [preprocessImage] and the rest of the handler is skipped: no
    recognition, no failure message or sound, and the camera is not
    released. *)
Theorem capture_without_frame_keeps_camera (v : video) (s : scan_state) (st : nat) :
  s.(captureDisabled) = false -> s.(activeStream) = Some st ->
  0 <= videoWidth v <= 8192 -> 0 <= videoHeight v <= 8192 ->
  videoWidth v <= 1 \/ videoHeight v <= 3 ->
  (capture v s).(activeStream) = Some st /\ (capture v s).(live) = s.(live) /\
  (capture v s).(pipelines) = s.(pipelines) /\ (capture v s).(showing) = ResultView /\
  (capture v s).(status) = s.(status) /\ (capture v s).(log) = s.(log) ++ [PlaySound successSound].
Proof.
  intros Hd Ha Hw Hh Hs.
  assert (Hp : preprocessImage v = None)
    by (by apply preprocess_none_iff, canvas_empty_iff).
  unfold capture. rewrite Hd, Ha, Hp. simpl. by split_and!.
Qed.

(** C33. A QR decode on the scanning instance plays the success sound
    twice (once in the callback, once in [handleSuccess]), stops the
    scanner and schedules the navigation to the details page of the
    decoded text, whatever the text is: the scan page neither checks
    the "ITEM" prefix nor passes the payload through
    [findProductCode]. *)
Theorem qr_decode_navigates_unchecked (s : scan_state) (i st : nat) (text : jsstr) :
  s.(html5Qrcode) = Some i -> s.(scanners) !! i = Some (QScanning st) ->
  (handle recognize s (QrDecoded i text)).(log) =
    s.(log) ++ [PlaySound successSound; PlaySound successSound;
                SetStatus (Found QrCodeFound text); Navigate 500 (details_url text)] /\
  (handle recognize s (QrDecoded i text)).(scanners) !! i = Some (QStopping st).
Proof.
  intros Hq Hs. simpl. unfold isScanning. rewrite Hs. unfold onScanSuccess.
  set (s1 := stop_current_qr (perform (PlaySound successSound) s)).
  assert (Hsc : scanners (perform_all (snd (handleSuccess text QrCodeFound)) s1)
                = scanners s1) by reflexivity.
  rewrite log_perform_all, Hsc. subst s1.
  unfold stop_current_qr, isScanning, qr_stop. simpl. rewrite Hq, Hs. simpl.
  split; [by rewrite <- app_assoc | by rewrite lookup_insert_eq].
Qed.

Lemma ocr_answered_idle p s : s.(pipelines) !! p = None -> ocr_answered recognize p s = s.
Proof. unfold ocr_answered. by intros ->. Qed.

(** One attempt started by the controller records the same effects as
    the sequential [runSingleRecognition] on the snapshot canvas, and
    leaves the run waiting for the engine exactly when an image was
    produced. *)
Lemma start_attempt_spec p st s :
  log (start_attempt p st s) = log s ++ snd (runSingleRecognition recognize s.(snapshot) st) /\
  pipelines (start_attempt p st s) !! p =
    match recognition_image s.(snapshot) st with
    | None => None
    | Some img => Some (match st with Standard => AwaitStandard img | Inverted => AwaitInverted img end)
    end /\
  snapshot (start_attempt p st s) = snapshot s.
Proof.
  unfold start_attempt, runSingleRecognition.
  destruct (recognition_image (snapshot s) st); simpl;
    split_and!; rewrite ?app_nil_r, ?lookup_insert_eq, ?lookup_delete_eq; done.
Qed.

(** A finished run ignores further answers, and its effects end with
    those of [perform_all]. *)
Lemma ocr_answered_finish p l s :
  s.(pipelines) !! p <> None ->
  ocr_answered recognize p (perform_all l (upd_pipelines (delete p) s))
  = perform_all l (upd_pipelines (delete p) s).
Proof.
  intros _. apply ocr_answered_idle.
  destruct (perform_all_keeps l (upd_pipelines (delete p) s)) as [-> _].
  simpl. by rewrite lookup_delete_eq.
Qed.

(** Refinement of the asynchronous controller by the sequential
    pipeline: a capture that starts run [p] on canvas [c], followed by
    the engine's answers to that run with no other event in between,
    records exactly the effects of [runRecognitionPipeline c], and the
    run is finished afterwards. *)
Theorem async_pipeline_refines (s : scan_state) (c : canvas) :
  let s' := ocr_answered recognize s.(fresh)
              (ocr_answered recognize s.(fresh) (pipeline_start (set_snapshot c s))) in
  s'.(log) = s.(log) ++ snd (runRecognitionPipeline recognize c) /\
  s'.(pipelines) !! s.(fresh) = None.
Proof.
  intros s'. subst s'. unfold pipeline_start. cbn [fresh set_snapshot].
  set (p := fresh s). set (s0 := say AnalyzingAttempt1 (bump (set_snapshot c s))).
  destruct (start_attempt_spec p Standard s0) as (Hl1 & Hp1 & Hs1).
  change (snapshot s0) with c in Hl1, Hp1, Hs1.
  change (log s0) with (log s ++ [SetStatus AnalyzingAttempt1]) in Hl1.
  unfold runRecognitionPipeline. rewrite wbind_snd, wbind_snd. simpl (snd (tell _)).
  unfold runSingleRecognition in *.
  destruct (recognition_image c Standard) as [img|] eqn:E1; simpl in Hl1, Hp1 |- *.
  2:{ rewrite (ocr_answered_idle p (start_attempt p Standard s0)) by done.
      rewrite ocr_answered_idle by done.
      split; [rewrite Hl1; by rewrite <- app_assoc | done]. }
  set (s1 := start_attempt p Standard s0) in *.
  destruct (accept (recognize img)) as [code|] eqn:A1; cbv beta iota.
  - set (l := snd (handleSuccess code TextFound)).
    assert (H2 : ocr_answered recognize p s1 = perform_all l (upd_pipelines (delete p) s1))
      by (unfold ocr_answered; by rewrite Hp1, A1).
    rewrite H2, ocr_answered_finish by (rewrite Hp1; done).
    destruct (perform_all_keeps l (upd_pipelines (delete p) s1)) as [Hk _].
    rewrite log_perform_all, Hk. cbn [log pipelines upd_pipelines].
    rewrite lookup_delete_eq, Hl1. split; [|done]. simpl. by rewrite <- !app_assoc.
  - set (s2 := say RetryingInverted s1).
    assert (H2 : ocr_answered recognize p s1 = start_attempt p Inverted s2)
      by (unfold ocr_answered; by rewrite Hp1, A1).
    rewrite H2.
    destruct (start_attempt_spec p Inverted s2) as (Hl2 & Hp2 & Hs2).
    change (snapshot s2) with (snapshot s1) in Hl2, Hp2. rewrite Hs1 in Hl2, Hp2.
    change (log s2) with (log s1 ++ [SetStatus RetryingInverted]) in Hl2.
    unfold runSingleRecognition in Hl2.
    destruct (recognition_image c Inverted) as [img2|] eqn:E2; simpl in Hl2, Hp2 |- *.
    2:{ rewrite ocr_answered_idle by done. rewrite Hl2, Hl1. split; [|done].
        by rewrite <- !app_assoc. }
    unfold ocr_answered. rewrite Hp2.
    destruct (accept (recognize img2)) as [code2|];
      [set (l := snd (handleSuccess code2 TextFound)) | set (l := snd handleFailure)];
      destruct (perform_all_keeps l (upd_pipelines (delete p) (start_attempt p Inverted s2))) as [Hk _];
      rewrite log_perform_all, Hk; cbn [log pipelines upd_pipelines];
      rewrite lookup_delete_eq, Hl2, Hl1; (split; [|done]); subst l; simpl;
      by rewrite <- !app_assoc.
Qed.

Lemma start_attempt_other p st s q :
  q <> p -> pipelines (start_attempt p st s) !! q = pipelines s !! q.
Proof.
  intros Hq. unfold start_attempt.
  destruct (recognition_image _ _); simpl; [by rewrite lookup_insert_ne | by rewrite lookup_delete_ne].
Qed.

Lemma ocr_answered_other p s q :
  q <> p -> pipelines (ocr_answered recognize p s) !! q = pipelines s !! q.
Proof.
  intros Hq. unfold ocr_answered.
  destruct (pipelines s !! p) as [[img|img]|]; [destruct (accept (recognize img))..|done];
    try (rewrite (proj1 (perform_all_keeps _ _)); simpl; by rewrite lookup_delete_ne).
  by rewrite start_attempt_other.
Qed.

(** A run that is not waiting for its standard answer is finished by
    the next answer. *)
Lemma ocr_answered_last p s :
  match pipelines s !! p with Some (AwaitStandard _) => False | _ => True end ->
  pipelines (ocr_answered recognize p s) !! p = None.
Proof.
  unfold ocr_answered. destruct (pipelines s !! p) as [[img|img]|] eqn:E; [done| |done].
  intros _. destruct (accept (recognize img));
    rewrite (proj1 (perform_all_keeps _ _)); simpl; by rewrite lookup_delete_eq.
Qed.

Lemma ocr_answered_not_standard p s :
  match pipelines (ocr_answered recognize p s) !! p with Some (AwaitStandard _) => False | _ => True end.
Proof.
  destruct (pipelines s !! p) as [[img|img]|] eqn:E.
  - unfold ocr_answered. rewrite E. destruct (accept (recognize img)).
    + rewrite (proj1 (perform_all_keeps _ _)); simpl. by rewrite lookup_delete_eq.
    + destruct (start_attempt_spec p Inverted (say RetryingInverted s)) as (_ & -> & _).
      by destruct (recognition_image _ _).
  - by rewrite ocr_answered_last by (by rewrite E).
  - rewrite ocr_answered_idle by done. by rewrite E.
Qed.

(** C31. Two recognition runs can be in flight at once (nothing stops
    a new capture while a run is pending), and they share the snapshot
    canvas: in every state where run [p] awaits the engine's answer to
    its standard attempt, a capture from a usable frame starts a second
    run on the new snapshot, and when run [p]'s answer is rejected, its
    inverted retry reads the shared canvas again and analyses the other
    capture's snapshot instead of its own. *)
Theorem concurrent_runs_share_canvas (v : video) (s : scan_state) (st p : nat) (c img : canvas) :
  s.(captureDisabled) = false -> s.(activeStream) = Some st -> preprocessImage v = Some c ->
  s.(pipelines) !! p = Some (AwaitStandard img) -> p <> s.(fresh) -> accept (recognize img) = Reject ->
  let s1 := handle recognize s (ClickCapture v) in
  let s2 := handle recognize s1 (OcrAnswered p) in
  s1.(pipelines) !! p = Some (AwaitStandard img) /\
  s1.(pipelines) !! s.(fresh) = Some (AwaitStandard c) /\
  s2.(pipelines) !! p = option_map AwaitInverted (recognition_image c Inverted) /\
  s2.(pipelines) !! s.(fresh) = Some (AwaitStandard c).
Proof.
  intros Hd Ha Hp Hpi Hne Hrej s1 s2.
  destruct (capture_releases_camera v s st c Hd Ha Hp) as (_ & _ & Hsn & Hpl & _).
  assert (H1 : s1.(pipelines) !! p = Some (AwaitStandard img))
    by (subst s1; cbn [handle]; by rewrite Hpl, lookup_insert_ne).
  assert (H2 : s1.(pipelines) !! s.(fresh) = Some (AwaitStandard c))
    by (subst s1; cbn [handle]; by rewrite Hpl, lookup_insert_eq).
  split_and!; [done | done | | subst s2; cbn [handle]; by rewrite ocr_answered_other].
  subst s2. cbn [handle]. unfold ocr_answered. rewrite H1, Hrej.
  destruct (start_attempt_spec p Inverted (say RetryingInverted s1)) as (_ & -> & _).
  replace (snapshot (say RetryingInverted s1)) with c by (subst s1; exact (eq_sym Hsn)).
  by destruct (recognition_image c Inverted).
Qed.

(** C11. Liveness of recognition runs: whatever state the page is in,
    two answers of the engine to run [p] finish it (it waits for nothing
    any more), and they leave every other run as it was. *)
Theorem pipeline_run_finishes (s : scan_state) (p : nat) :
  (ocr_answered recognize p (ocr_answered recognize p s)).(pipelines) !! p = None /\
  (forall q, q <> p ->
     (ocr_answered recognize p (ocr_answered recognize p s)).(pipelines) !! q = s.(pipelines) !! q).
Proof.
  split.
  - apply ocr_answered_last, ocr_answered_not_standard.
  - intros q Hq. by rewrite !ocr_answered_other.
Qed.

End Behaviour.

(** A serial session: the QR scanner starts, the engines load, the
    user opens the OCR tab, the camera is granted, a frame is captured
    and recognised. *)
Definition serial_session : list event :=
  [QrStarted 0; OpenCvReady; TesseractReady; ClickOcrTab; QrStopped 0; CameraGranted 2;
   ClickCapture sample_frame; OcrAnswered 4; OcrAnswered 4].

(** A user who acts only when no camera request is pending captures
    once, reopens the camera and captures again before the engine
    answered the first capture. *)
Definition two_capture_run : list event :=
  [QrStarted 0; OpenCvReady; TesseractReady; ClickOcrTab; QrStopped 0; CameraGranted 2;
   ClickCapture sample_frame; ClickRetry; CameraGranted 5].

Definition stage_image (o : option stage) (d : canvas) : canvas :=
  match o with Some (AwaitStandard i) | Some (AwaitInverted i) => i | None => d end.

Definition or_canvas (o : option canvas) (d : canvas) : canvas :=
  match o with Some c => c | None => d end.

Definition share_state : scan_state := run demo_engine init two_capture_run.
Definition share_c : canvas := or_canvas (preprocessImage wide_frame) (drawn_canvas wide_frame).
Definition share_img : canvas := stage_image (share_state.(pipelines) !! 4%nat) (drawn_canvas wide_frame).

Lemma concurrent_runs_share_canvas_witness :
  (handle demo_engine (handle demo_engine share_state (ClickCapture wide_frame)) (OcrAnswered 4)).(pipelines)
    !! 4%nat = option_map AwaitInverted (recognition_image share_c Inverted).
Proof.
  assert (H1 : share_state.(captureDisabled) = false) by (vm_compute; reflexivity).
  assert (H2 : share_state.(activeStream) = Some 6%nat) by (vm_compute; reflexivity).
  assert (H3 : preprocessImage wide_frame = Some share_c) by (vm_compute; reflexivity).
  assert (H4 : share_state.(pipelines) !! 4%nat = Some (AwaitStandard share_img)) by (vm_compute; reflexivity).
  assert (H5 : 4%nat <> share_state.(fresh)) by (vm_compute; discriminate).
  assert (H6 : accept (demo_engine share_img) = Reject) by (vm_compute; reflexivity).
  destruct (concurrent_runs_share_canvas demo_engine wide_frame share_state 6 4 share_c share_img
              H1 H2 H3 H4 H5 H6) as (_ & _ & H & _).
  exact H.
Defined.

(** The page loads, the user opens the OCR tab before answering the
    permission prompt, then both camera requests resolve. *)
Lemma ocr_tab_two_cameras_witness :
  isScanning (run demo_engine init [ClickOcrTab; QrStarted 0; CameraGranted 1]) 0 = true.
Proof.
  destruct (ocr_tab_two_cameras demo_engine init 0 eq_refl eq_refl) as (_ & _ & H & _).
  unfold isScanning. exact (f_equal (fun o => match o with Some (QScanning _) => true | _ => false end) H).
Defined.

Lemma serial_runs_no_leak_witness : no_leak (run demo_engine init serial_session).
Proof.
  apply serial_runs_no_leak. vm_compute.
  repeat split; intros Hu; first [reflexivity | discriminate Hu].
Defined.

(** The OCR tab with the camera granted and both engines ready. *)
Definition ocr_ready_run : list event :=
  [QrStarted 0; OpenCvReady; TesseractReady; ClickOcrTab; QrStopped 0; CameraGranted 2].

Lemma capture_releases_camera_witness :
  exists c, preprocessImage sample_frame = Some c /\
    (capture sample_frame (run demo_engine init ocr_ready_run)).(activeStream) = None /\
    3%nat ∉ (capture sample_frame (run demo_engine init ocr_ready_run)).(live) /\
    (capture sample_frame (run demo_engine init ocr_ready_run)).(snapshot) = c.
Proof.
  destruct (preprocessImage sample_frame) as [c|] eqn:E; [|vm_compute in E; discriminate E].
  destruct (capture_releases_camera demo_engine sample_frame (run demo_engine init ocr_ready_run) 3 c
              ltac:(vm_compute; reflexivity) ltac:(vm_compute; reflexivity) E)
    as (H1 & H2 & H3 & _).
  exists c. exact (conj eq_refl (conj H1 (conj H2 H3))).
Defined.

Lemma capture_without_frame_keeps_camera_witness :
  (capture no_frame (run demo_engine init ocr_ready_run)).(activeStream) = Some 3%nat /\
  (capture no_frame (run demo_engine init ocr_ready_run)).(pipelines) =
    (run demo_engine init ocr_ready_run).(pipelines).
Proof.
  destruct (capture_without_frame_keeps_camera no_frame (run demo_engine init ocr_ready_run) 3
              ltac:(vm_compute; reflexivity) ltac:(vm_compute; reflexivity)
              ltac:(simpl; lia) ltac:(simpl; lia) ltac:(left; simpl; lia))
    as (H1 & _ & H2 & _).
  exact (conj H1 H2).
Defined.

(** A QR payload that is not a product code. *)
Lemma qr_decode_navigates_unchecked_witness :
  (handle demo_engine (run demo_engine init [QrStarted 0]) (QrDecoded 0 (js "hello"))).(scanners)
    !! 0%nat = Some (QStopping 1).
Proof.
  exact (proj2 (qr_decode_navigates_unchecked demo_engine (run demo_engine init [QrStarted 0])
                  0 1 (js "hello") ltac:(vm_compute; reflexivity) ltac:(vm_compute; reflexivity))).
Defined.

End ScanSession.
