(* ===== verification/Printing.v ===== *)
(** The all-products page and the two print pages: src/public/js/all.js,
    src/public/js/print-stickers.js and src/public/js/print-audit.js.

    The sticker sheet lays the stored products out with a running
    counter: a new sheet every [stickersPerPage] stickers, each sticker
    appended to the sheet made last.  [place_sticker] is one iteration
    of its [forEach]; the reference layout is [chunks], the list cut into
    consecutive blocks, defined with Equations by well-founded recursion
    on the length.  The counter loop computes exactly the blocks.

    The all-products page ([AllPage]) is an event handler on a record
    that also holds the server table, the [localStorage] key the sticker
    page reads and the requests in flight; a request is answered, in any
    order, by running the server handler of [ProductApi] at that
    moment. *)

From Equations Require Import Equations.
From S2P Require Import Prelude JsString ProductApi AuditPage.
Import ProductApi.

Module Printing.

(** ** Cutting a list into blocks *)

(** [chunks n l]: [l] cut into consecutive blocks of [n] elements, the
    last one shorter (a size [0] is read as [1]). *)
Equations chunks {A} (n : nat) (l : list A) : list (list A) by wf (length l) lt :=
  chunks n [] := [];
  chunks n (x :: l) := take (Nat.max 1 n) (x :: l) :: chunks n (drop (Nat.max 1 n) (x :: l)).
Next Obligation. intros. rewrite length_drop. simpl. lia. Qed.

(** [sheet.appendChild(sticker)] on the sheet created last. *)
Fixpoint append_last {A} (x : A) (l : list (list A)) : list (list A) :=
  match l with
  | [] => []
  | [s] => [s ++ [x]]
  | s :: l' => s :: append_last x l'
  end.

(** ** The sticker sheet (print-stickers.js) *)

(** One sticker: its name and code texts and the text of its QR code. *)
Record sticker := Sticker { st_name : jsstr; st_code : jsstr; st_qr : option jsstr }.

Definition sticker_of (p : summary_row) : sticker :=
  let '(_, code, nm, _) := p in Sticker (text_of nm) (text_of code) code.

Definition stickersPerPage : nat := 32.

Record sheet_state := SheetState { sheets : list (list sticker); stickerCount : nat }.

(** One iteration of [products.forEach]. *)
Definition place_sticker (st : sheet_state) (p : summary_row) : sheet_state :=
  let sh := if Nat.eqb (stickerCount st mod stickersPerPage) 0
            then sheets st ++ [[]] else sheets st in
  SheetState (append_last (sticker_of p) sh) (S (stickerCount st)).

Inductive stickers_view :=
  | NoProductsToPrint                         (* '<p>No products found to print.</p>' *)
  | StickerSheets (sh : list (list sticker)).

(** The [DOMContentLoaded] handler: the view and the [localStorage] key
    [productsForPrinting] afterwards (removed once the sheets are made). *)
Definition print_stickers_page (stored : option (list summary_row))
    : stickers_view * option (list summary_row) :=
  match stored with
  | None | Some [] => (NoProductsToPrint, stored)
  | Some products =>
      (StickerSheets (sheets (fold_left place_sticker products (SheetState [] 0))), None)
  end.

(** ** The audit report (print-audit.js) *)

(** One report row: [${item.product_code}], [${item.name}],
    [${item.category}], [${item.status}]. *)
Definition report_row (item : product) : jsstr * jsstr * jsstr * jsstr :=
  (tmpl (product_code item), tmpl (name item), tmpl (category item), tmpl (status item)).

Inductive audit_report :=
  | NoItemsToPrint                                       (* '<h1>No items to print.</h1>' *)
  | Report (date : jsstr) (rows : list (jsstr * jsstr * jsstr * jsstr)).

(** The [DOMContentLoaded] handler on the key [auditListForPrinting];
    [today] is [new Date().toLocaleDateString()].  The key is left in
    place. *)
Definition print_audit_page (today : jsstr) (items : option (list product)) : audit_report :=
  match items with
  | None | Some [] => NoItemsToPrint
  | Some l => Report today (map report_row l)
  end.

(** ** The all-products page (all.js) *)

Inductive all_view :=
  | AllInitial                                   (* the page as served *)
  | AllEmpty                                     (* 'No products found. Add one now!' *)
  | AllTable (rows : list (nat * summary_row))   (* the [tr] elements, by element id *)
  | AllError.                                    (* 'Error loading products.' *)

(** The [fetch] calls in flight. *)
Inductive all_req :=
  | ReqProducts                                  (* GET /api/products *)
  | ReqSoftDelete (i : nat) (row : nat).         (* PUT /api/product/:id/delete, its row *)

Inductive all_effect :=
  | AllAlert (msg : jsstr)
  | AllOpen (url : jsstr)                        (* window.open(url, '_blank') *)
  | AllDownload (data : list summary_row)        (* XLSX.writeFile *)
  | AllNavigate (url : jsstr).                   (* window.location.href = url *)

(** The page, the server table and the [localStorage] key
    [productsForPrinting]. *)
Record all_sys := AllSys {
  allProductsData : list summary_row;
  shown : all_view;
  buttons_disabled : bool;          (* print-stickers-btn and export-excel-btn *)
  next_row : nat;                   (* fresh [tr] element ids *)
  in_flight : list all_req;
  server : db;
  productsForPrinting : option (list summary_row);
  all_log : list all_effect }.

Definition set_data l s := AllSys l s.(shown) s.(buttons_disabled) s.(next_row) s.(in_flight) s.(server) s.(productsForPrinting) s.(all_log).
Definition set_shown v s := AllSys s.(allProductsData) v s.(buttons_disabled) s.(next_row) s.(in_flight) s.(server) s.(productsForPrinting) s.(all_log).
Definition set_disabled b s := AllSys s.(allProductsData) s.(shown) b s.(next_row) s.(in_flight) s.(server) s.(productsForPrinting) s.(all_log).
Definition set_next n s := AllSys s.(allProductsData) s.(shown) s.(buttons_disabled) n s.(in_flight) s.(server) s.(productsForPrinting) s.(all_log).
Definition set_in_flight q s := AllSys s.(allProductsData) s.(shown) s.(buttons_disabled) s.(next_row) q s.(server) s.(productsForPrinting) s.(all_log).
Definition set_server d s := AllSys s.(allProductsData) s.(shown) s.(buttons_disabled) s.(next_row) s.(in_flight) d s.(productsForPrinting) s.(all_log).
Definition set_storage v s := AllSys s.(allProductsData) s.(shown) s.(buttons_disabled) s.(next_row) s.(in_flight) s.(server) v s.(all_log).
Definition all_emit e s := AllSys s.(allProductsData) s.(shown) s.(buttons_disabled) s.(next_row) s.(in_flight) s.(server) s.(productsForPrinting) (s.(all_log) ++ [e]).

(** The page as loaded, with the initial state of the two buttons. *)
Definition all_init (disabled : bool) (d : db) (stored : option (list summary_row)) : all_sys :=
  AllSys [] AllInitial disabled 0 [] d stored [].

(** The row with element id [e], if the table shows it. *)
Definition row_at (v : all_view) (e : nat) : option summary_row :=
  match v with
  | AllTable rows => find_elem e rows
  | _ => None
  end.

(** [rowElement.remove()]: no effect once the table was re-rendered. *)
Definition remove_row (e : nat) (v : all_view) : all_view :=
  match v with
  | AllTable rows => AllTable (remove_elem e rows)
  | v => v
  end.

(** [fetchProducts()]: the request goes out. *)
Definition fetchProducts (s : all_sys) : all_sys :=
  set_in_flight (s.(in_flight) ++ [ReqProducts]) s.

(** The rest of [fetchProducts] once the answer is there ([None]: the
    [fetch] rejected).  The data is stored before the length test; a
    non-empty list is rendered as fresh rows and enables the buttons. *)
Definition products_answered (resp : option response) (s : all_sys) : all_sys :=
  match resp with
  | Some (JsonSummaries products) =>
      let s := set_data products s in
      match products with
      | [] => set_disabled true (set_shown AllEmpty s)
      | _ => set_disabled false
               (set_next (s.(next_row) + length products)
                  (set_shown (AllTable (number_rows s.(next_row) products)) s))
      end
  | _ => set_shown AllError s
  end.

(** [deleteProduct(id, tr)] after its [PUT] answered: the row goes, and
    the list is fetched again without waiting for it. *)
Definition delete_answered (i e : nat) (ok : bool) (s : all_sys) : all_sys :=
  if ok then fetchProducts (set_shown (remove_row e s.(shown)) (set_server (fst (soft_delete i s.(server))) s))
  else all_emit (AllAlert (js "Failed to delete product.")) s.

(** [exportToExcel] and [printStickers]. *)
Definition exportToExcel (s : all_sys) : all_sys :=
  match s.(allProductsData) with
  | [] => all_emit (AllAlert (js "No products to export.")) s
  | data => all_emit (AllDownload data) s
  end.

Definition printStickers (s : all_sys) : all_sys :=
  match s.(allProductsData) with
  | [] => all_emit (AllAlert (js "No products to print.")) s
  | data => all_emit (AllOpen (js "/print-stickers.html")) (set_storage (Some data) s)
  end.

Inductive all_event :=
  | AllLoaded                                    (* DOMContentLoaded *)
  | ClickRow (e : nat)
  | ClickDelete (e : nat) (confirmed : bool)     (* the Delete button, the confirm answer *)
  | ClickExport
  | ClickPrint
  | Answer (k : nat) (network_ok : bool).        (* the [k]-th request in flight returns *)

(** The page with the server: a request is run by the server when its
    answer arrives.  A disabled button gets no click. *)
Definition all_handle (s : all_sys) (ev : all_event) : all_sys :=
  match ev with
  | AllLoaded => fetchProducts s
  | ClickRow e =>
      match row_at s.(shown) e with
      | Some (_, code, _, _) => all_emit (AllNavigate (js "/details.html?code=" ++ tmpl code)) s
      | None => s
      end
  | ClickDelete e confirmed =>
      match row_at s.(shown) e with
      | Some (i, _, _, _) =>
          if confirmed then set_in_flight (s.(in_flight) ++ [ReqSoftDelete i e]) s else s
      | None => s
      end
  | ClickExport => if s.(buttons_disabled) then s else exportToExcel s
  | ClickPrint => if s.(buttons_disabled) then s else printStickers s
  | Answer k ok =>
      match s.(in_flight) !! k with
      | None => s
      | Some q =>
          let s := set_in_flight (delete k s.(in_flight)) s in
          match q with
          | ReqProducts => products_answered (if ok then Some (snd (get_products s.(server))) else None) s
          | ReqSoftDelete i e => delete_answered i e ok s
          end
      end
  end.

(** ** Lemmas on blocks *)

Section Chunks.
Context {A : Type} (n : nat) (Hn : (0 < n)%nat).

Lemma chunks_short (l : list A) : l <> [] -> (length l <= n)%nat -> chunks n l = [l].
Proof.
  destruct l as [|x l]; [done|]. intros _ Hl. simp chunks.
  rewrite take_ge, drop_ge by (simpl in *; lia). by simp chunks.
Qed.

Lemma chunks_long (l : list A) :
  (n <= length l)%nat -> chunks n l = take n l :: chunks n (drop n l).
Proof.
  destruct l as [|x l]; [simpl; lia|]. intros _. simp chunks.
  by replace (Nat.max 1 n) with n by lia.
Qed.

Lemma chunks_nil_iff (l : list A) : chunks n l = [] <-> l = [].
Proof. destruct l; simp chunks; done. Qed.

Lemma append_last_cons (x : A) s l : l <> [] -> append_last x (s :: l) = s :: append_last x l.
Proof. by destruct l. Qed.

Lemma append_last_snoc (x : A) s l : append_last x (l ++ [s]) = l ++ [s ++ [x]].
Proof.
  induction l as [|a l IH]; [done|]. simpl (_ ++ _).
  rewrite append_last_cons, IH by (by destruct l). done.
Qed.

(** Appending one element to the list: a new block when the length is a
    multiple of [n], otherwise the last block grows. *)
Lemma chunks_snoc (l : list A) (x : A) :
  chunks n (l ++ [x]) =
  if Nat.eqb (length l mod n) 0 then chunks n l ++ [[x]] else append_last x (chunks n l).
Proof.
  induction l as [l IH] using (induction_ltof1 _ (@length A)); unfold ltof in IH.
  destruct (decide (n <= length l)%nat) as [Hle|Hlt].
  - rewrite (chunks_long (l ++ [x])) by (rewrite length_app; lia).
    rewrite take_app_le, drop_app_le, (chunks_long l) by lia.
    rewrite IH by (rewrite length_drop; lia). rewrite length_drop.
    replace (length l) with (length l - n + 1 * n)%nat at 2 by lia.
    rewrite Nat.Div0.mod_add. case_match; [done|].
    rewrite append_last_cons; [done|]. rewrite chunks_nil_iff.
    intros Hd. apply (f_equal length) in Hd. rewrite length_drop in Hd. simpl in Hd.
    replace (length l - n)%nat with 0%nat in * by lia. by rewrite Nat.Div0.mod_0_l in *.
  - destruct l as [|y l].
    + simpl. rewrite Nat.Div0.mod_0_l. by rewrite chunks_short.
    + rewrite Nat.mod_small by lia. simpl Nat.eqb.
      rewrite !chunks_short by (try rewrite length_app; simpl in *; try done; lia). done.
Qed.

Lemma chunks_concat (l : list A) : concat (chunks n l) = l.
Proof.
  induction l as [l IH] using (induction_ltof1 _ (@length A)); unfold ltof in IH.
  destruct l as [|x l]; [by simp chunks|]. simp chunks. simpl concat.
  rewrite IH by (rewrite length_drop; simpl; lia). apply take_drop.
Qed.

Lemma chunks_sizes (l : list A) : Forall (fun s => 1 <= length s <= n)%nat (chunks n l).
Proof.
  induction l as [l IH] using (induction_ltof1 _ (@length A)); unfold ltof in IH.
  destruct l as [|x l]; simp chunks; constructor.
  - rewrite length_take. simpl. lia.
  - apply IH. rewrite length_drop. simpl. lia.
Qed.

End Chunks.

Lemma place_stickers_chunks (ps : list summary_row) :
  fold_left place_sticker ps (SheetState [] 0) =
  SheetState (chunks stickersPerPage (map sticker_of ps)) (length ps).
Proof.
  induction ps as [|p ps IH] using rev_ind; [by simp chunks|].
  rewrite fold_left_app, IH. cbn [fold_left]. unfold place_sticker; cbn [sheets stickerCount].
  rewrite map_app, length_app; cbn [map]; rewrite (chunks_snoc stickersPerPage) by (unfold stickersPerPage; lia).
  rewrite length_map. f_equal; [|simpl; lia].
  case_match; [|done]. by rewrite append_last_snoc.
Qed.

(** ** The page and the sheet *)

Lemma print_stickers_page_sheets (ps : list summary_row) :
  ps <> [] ->
  print_stickers_page (Some ps) = (StickerSheets (chunks stickersPerPage (map sticker_of ps)), None).
Proof. destruct ps; [done|]. intros _. unfold print_stickers_page. by rewrite place_stickers_chunks. Qed.

Lemma listed_soft_delete (i : nat) (d : db) (q : summary_row) :
  In q (listed (fst (soft_delete i d))) -> q.1.1.1 <> i.
Proof.
  unfold listed, soft_delete, get_products, update_where; cbn [fst snd rows].
  rewrite in_map_iff. intros (r & <- & Hr).
  rewrite <- in_rev, filter_In, in_map_iff in Hr. destruct Hr as [(r0 & <- & _) Hl].
  unfold with_id in *. destruct (Nat.eqb_spec (id r0) i); [done|]. done.
Qed.

(** C8. The sticker sheet of print-stickers.js, built with a running
    counter that opens a new sheet whenever [stickerCount % 32 === 0],
    is the list of stickers cut into consecutive blocks of 32, in the
    order of the stored products, and the stored key is removed. *)
Theorem print_stickers_layout (ps : list summary_row) :
  ps <> [] ->
  print_stickers_page (Some ps) = (StickerSheets (chunks 32 (map sticker_of ps)), None).
Proof. apply print_stickers_page_sheets. Qed.

Lemma print_stickers_layout_witness :
  print_stickers_page (Some (repeat (1%nat, Some (js "ITEM0001"), None, None) 33)) =
  (StickerSheets (chunks 32 (map sticker_of (repeat (1%nat, Some (js "ITEM0001"), None, None) 33))), None).
Proof. apply print_stickers_layout. discriminate. Defined.

(** Every sheet holds between 1 and 32 stickers, and reading the
    sheets in order gives one sticker per stored product, in order:
    nothing is lost, duplicated or reordered by the layout. *)
Theorem print_stickers_bounds (ps : list summary_row) (sh : list (list sticker)) :
  fst (print_stickers_page (Some ps)) = StickerSheets sh ->
  Forall (fun s => 1 <= length s <= 32)%nat sh /\ concat sh = map sticker_of ps.
Proof.
  destruct ps as [|p ps]; [done|]. rewrite print_stickers_page_sheets by done.
  intros [= <-]. split; [apply chunks_sizes | apply chunks_concat]; unfold stickersPerPage; lia.
Qed.

Lemma print_stickers_bounds_witness :
  fst (print_stickers_page (Some [(1%nat, Some (js "ITEM0001"), None, None)])) =
    StickerSheets [[sticker_of (1%nat, Some (js "ITEM0001"), None, None)]] /\
  Forall (fun s => 1 <= length s <= 32)%nat [[sticker_of (1%nat, Some (js "ITEM0001"), None, None)]].
Proof.
  assert (H : fst (print_stickers_page (Some [(1%nat, Some (js "ITEM0001"), None, None)])) =
    StickerSheets [[sticker_of (1%nat, Some (js "ITEM0001"), None, None)]]) by reflexivity.
  split; [exact H | apply (print_stickers_bounds _ _ H)].
Defined.

(** C29. A sticker sheet printed right after a delete on the all-products
    page still has the deleted product: the row goes and the server
    moves the product to the trash, but [allProductsData] is only
    replaced when the new list arrives, and [printStickers] stores the
    old list for print-stickers.js. *)
Theorem print_after_delete_stale (s : all_sys) (e : nat) (p : summary_row) :
  s.(in_flight) = [] -> s.(buttons_disabled) = false ->
  row_at s.(shown) e = Some p -> In p s.(allProductsData) ->
  let s' := run_events all_handle s [ClickDelete e true; Answer 0 true; ClickPrint] in
  ~ In p (listed s'.(server)) /\
  exists sh, fst (print_stickers_page s'.(productsForPrinting)) = StickerSheets sh /\
             In (sticker_of p) (concat sh).
Proof.
  destruct s as [data v dis nr q d st lg]; cbn [in_flight buttons_disabled shown allProductsData].
  intros -> -> Hrow Hin. destruct p as [[[i c] nm] cat].
  cbn [run_events all_handle shown]. rewrite Hrow.
  cbv beta iota zeta delta [set_in_flight in_flight server shown buttons_disabled allProductsData
    next_row productsForPrinting all_log lookup list_lookup app delete list_delete delete_answered
    fetchProducts set_shown set_server printStickers].
  destruct data as [|p0 data]; [done|].
  split; [intros Hl; by apply listed_soft_delete in Hl|].
  cbv beta iota zeta delta [all_emit set_storage productsForPrinting].
  rewrite print_stickers_page_sheets by done. eexists; split; [done|].
  rewrite chunks_concat by (unfold stickersPerPage; lia). by apply in_map.
Qed.

Definition stale_demo : all_sys :=
  AllSys [(1%nat, Some (js "ITEM0001"), None, None)]
         (AllTable [(0%nat, (1%nat, Some (js "ITEM0001"), None, None))]) false 1 [] empty_db None [].

Lemma print_after_delete_stale_witness :
  ~ In (1%nat, Some (js "ITEM0001"), None, None)
       (listed (run_events all_handle stale_demo [ClickDelete 0 true; Answer 0 true; ClickPrint]).(server)).
Proof. apply (print_after_delete_stale stale_demo 0); [reflexivity | reflexivity | reflexivity | left; reflexivity]. Defined.

End Printing.
