(* ===== verification/Lookup.v ===== *)
(** The lookups by product code: [lookupProduct] of
    src/public/js/find.js, [lookup] and the add form of src/script.js,
    and the details page src/public/js/details.js.

    Each page reads a code, asks [GET /api/product/:code] and renders
    the row.  The answer is a function from the typed code to an
    optional [response] ([None]: the [fetch] rejected); composed with
    the server it is [fetch_product], which runs [get_product] of
    [ProductApi] on the route parameter.

    Three built-ins of the browser are parameters of the section, with
    the one law each the theorems use: [toUpperCase] (Unicode case
    mapping; on ASCII it is [to_upper_ascii]), [route_param] (URL
    parsing and Express routing of the path segment; a code of
    upper-case letters and digits passes unchanged) and [code_param]
    ([new URLSearchParams(location.search).get('code')]; it reads back
    a code of letters and digits after [?code=]).  [localeDate] is
    [new Date(s).toLocaleDateString()]. *)

From S2P Require Import Prelude JsString Recognition ProductApi.
Import Recognition ProductApi.

Module Lookup.

Section Pages.
Variable toUpperCase : jsstr -> jsstr.
Variable route_param : jsstr -> option jsstr.
Variable code_param : jsstr -> option jsstr.
Variable localeDate : jsstr -> jsstr.

(** The server behind [fetch(`/api/product/${code}`)]; a path no route
    matches is Express's 404. *)
Definition fetch_product (d : db) (code : jsstr) : response :=
  match route_param code with
  | Some c => snd (get_product c d)
  | None => Error404 (js "Not Found")
  end.

(** [...value.trim().toUpperCase()] *)
Definition lookup_code (input : jsstr) : jsstr := toUpperCase (trim input).

(** [item.invoice_path ? `<a href="/${item.invoice_path}">` : ...] *)
Definition invoice_link (p : option jsstr) : option jsstr :=
  match p with Some ((_ :: _) as s) => Some (js "/" ++ s) | _ => None end.

(** ** find.js *)

Inductive find_view :=
  | PleaseEnter                  (* 'Please enter a product code.' *)
  | Searching                    (* '<p>Searching...</p>' *)
  | FindRedirecting              (* '✅ Success! Redirecting...' *)
  | FindNotFound (code : jsstr)  (* 'Product with code <strong>${code}</strong> not found.' *)
  | FindConnectError.            (* 'Error: Could not connect to server.' *)

(** [lookupProduct]: the texts the result shows in turn, and the
    sounds and the navigation (400 ms later) of [main.js]'s [playSound]
    and [window.location.href]. *)
Definition lookupProduct (input : jsstr) (answer : jsstr -> option response)
    : list find_view * list effect :=
  let code := lookup_code input in
  match code with
  | [] => ([PleaseEnter], [])
  | _ =>
      match answer code with
      | Some (JsonProduct item) =>
          ([Searching; FindRedirecting],
           [PlaySound successSound; Navigate 400 (details_url (tmpl (product_code item)))])
      | Some _ => ([Searching; FindNotFound code], [PlaySound errorSound])
      | None => ([Searching; FindConnectError], [PlaySound errorSound])
      end
  end.

(** ** script.js *)

Record item_card := ItemCard {
  c_name : jsstr; c_code : jsstr; c_category : jsstr; c_purchase : jsstr;
  c_warranty : jsstr; c_notes : jsstr; c_invoice : option jsstr }.

Definition date_or_na (v : option jsstr) : jsstr :=
  match v with Some ((_ :: _) as s) => localeDate s | _ => js "N/A" end.

Definition item_card_of (item : product) : item_card :=
  ItemCard (tmpl (name item)) (tmpl (product_code item)) (tmpl (category item))
    (date_or_na (purchase_date item)) (date_or_na (warranty_date item))
    (or_text (notes item) (js "None")) (invoice_link (invoice_path item)).

Inductive script_view :=
  | ScriptPleaseEnter                 (* 'Please enter a product code.' *)
  | ScriptItem (card : item_card)
  | ScriptNotFound (code : jsstr)     (* 'Product with code ${code} not found.' *)
  | ScriptConnectError                (* 'Error: Could not connect to server.' *)
  | ScriptAdded (code : jsstr)        (* 'Product added successfully!' and the code *)
  | ScriptAddError (msg : jsstr).     (* 'Error: ${data.error}' *)

(** [lookup()] of script.js; the flag is [playBeep()]. *)
Definition lookup (input : jsstr) (answer : jsstr -> option response) : script_view * bool :=
  let code := lookup_code input in
  match code with
  | [] => (ScriptPleaseEnter, false)
  | _ =>
      match answer code with
      | Some (JsonProduct item) => (ScriptItem (item_card_of item), true)
      | Some _ => (ScriptNotFound code, false)
      | None => (ScriptConnectError, false)
      end
  end.

(** The [submit] listener of [#productForm], on the answer of
    [POST /api/add-product]. *)
Definition submit_product (resp : option response) : script_view * bool :=
  match resp with
  | Some (JsonAdded code) => (ScriptAdded code, true)
  | Some (Error400 msg) | Some (Error404 msg) => (ScriptAddError msg, false)
  | Some _ => (ScriptAddError (js "undefined"), false)
  | None => (ScriptConnectError, false)
  end.

(** ** details.js *)

Record details_card := DetailsCard {
  d_title : jsstr; d_category : jsstr; d_status : jsstr; d_purchase : jsstr;
  d_warranty : jsstr; d_notes : jsstr; d_invoice : option jsstr;
  d_edit : jsstr; d_qr : option jsstr; d_label : jsstr }.

Definition details_card_of (item : product) : details_card :=
  DetailsCard (text_of (name item)) (tmpl (category item)) (tmpl (status item))
    (or_text (purchase_date item) (js "N/A")) (or_text (warranty_date item) (js "N/A"))
    (or_text (notes item) (js "None")) (invoice_link (invoice_path item))
    (js "/edit.html?code=" ++ tmpl (product_code item)) (product_code item)
    (tmpl (product_code item)).

Inductive details_view :=
  | DetailsNoCode                          (* 'No product code provided.' *)
  | DetailsShown (card : details_card)
  | DetailsError (msg : option jsstr).     (* err.message; [None]: the fetch rejected *)

(** The [DOMContentLoaded] handler of the page at [url]. *)
Definition details_page (url : jsstr) (answer : jsstr -> option response) : details_view :=
  match code_param url with
  | None | Some [] => DetailsNoCode
  | Some code =>
      match answer code with
      | Some (JsonProduct item) => DetailsShown (details_card_of item)
      | Some _ => DetailsError (Some (js "Product not found"))
      | None => DetailsError None
      end
  end.

End Pages.

(** ** Properties *)

Section Laws.
Variable toUpperCase : jsstr -> jsstr.
Hypothesis toUpperCase_ascii :
  forall s, Forall (fun c => 0 <= c < 128) s -> toUpperCase s = to_upper_ascii s.
Variable route_param : jsstr -> option jsstr.
Hypothesis route_param_code :
  forall c, c <> [] -> Forall (fun u => is_upper u || is_digit u = true) c -> route_param c = Some c.
Variable code_param : jsstr -> option jsstr.
Hypothesis code_param_details :
  forall c, c <> [] -> Forall (fun u => is_upper u || is_digit u = true) c -> code_param (details_url c) = Some c.
Variable localeDate : jsstr -> jsstr.

Lemma lookup_code_ascii (input c : jsstr) :
  Forall (fun u => 0 <= u < 128) input -> to_upper_ascii (trim input) = c ->
  lookup_code toUpperCase input = c.
Proof. intros Ha <-. unfold lookup_code. by apply toUpperCase_ascii, Forall_trim. Qed.

(** The code of a row of a well-formed table is one the routes and the
    query string carry unchanged. *)
Lemma row_code_shape (d : db) (r : product) (c : jsstr) :
  wf_db d -> In r (rows d) -> product_code r = Some c ->
  c <> [] /\ Forall (fun u => is_upper u || is_digit u = true) c.
Proof.
  intros [_ _ Hk] Hr Hc. destruct (proj1 (List.Forall_forall _ _) Hk r Hr) as [E|E]; [congruence|].
  rewrite Hc in E. injection E as ->. split; [apply gen_code_nonempty | apply gen_code_upper].
Qed.

Lemma fetch_product_live (d : db) (r : product) (c : jsstr) :
  wf_db d -> In r (rows d) -> is_deleted r = false -> product_code r = Some c ->
  fetch_product route_param d c = JsonProduct r.
Proof.
  intros Hwf Hr Hdel Hc. destruct (row_code_shape d r c) as [Hne Hup]; [done..|].
  unfold fetch_product. rewrite route_param_code by done.
  by rewrite (get_product_live d r c).
Qed.

(** C13. Typing the code of a live product on the Find page, in any case
    and with surrounding white space, plays the success sound and
    navigates to the details page of that code, and the details page at
    that address shows that product's row. *)
Theorem find_opens_details (d : db) (r : product) (input c : jsstr) :
  wf_db d -> In r (rows d) -> is_deleted r = false -> product_code r = Some c ->
  Forall (fun u => 0 <= u < 128) input -> to_upper_ascii (trim input) = c ->
  lookupProduct toUpperCase input (fun k => Some (fetch_product route_param d k)) =
    ([Searching; FindRedirecting], [PlaySound successSound; Navigate 400 (details_url c)]) /\
  details_page code_param (details_url c) (fun k => Some (fetch_product route_param d k)) =
    DetailsShown (details_card_of r).
Proof.
  intros Hwf Hr Hdel Hc Ha Hu. destruct (row_code_shape d r c) as [Hne Hup]; [done..|].
  unfold lookupProduct, details_page. rewrite (lookup_code_ascii input c), code_param_details by done.
  rewrite (fetch_product_live d r c) by done. rewrite Hc.
  destruct c; [done|]. done.
Qed.

(** The code script.js shows after adding a product finds that
    product: the add form reports the generated code, and the lookup of
    that code (any case, surrounding white space) shows the new row. *)
Theorem script_add_then_lookup (f : product_form) (file : option jsstr) (d : db) (input : jsstr) :
  wf_db d -> Forall (fun u => 0 <= u < 128) input ->
  to_upper_ascii (trim input) = gen_code (auto_increment d) ->
  submit_product (Some (snd (add_product f file d))) =
    (ScriptAdded (gen_code (auto_increment d)), true) /\
  exists r, In r (rows (fst (add_product f file d))) /\
    product_code r = Some (gen_code (auto_increment d)) /\
    name r = f_name f /\ category r = f_category f /\
    lookup toUpperCase localeDate input (fun k => Some (fetch_product route_param (fst (add_product f file d)) k)) =
      (ScriptItem (item_card_of localeDate r), true).
Proof.
  intros Hwf Ha Hu. split; [reflexivity|].
  pose (r := Product (auto_increment d) (Some (gen_code (auto_increment d))) (f_name f) (f_category f)
               (or_null (f_purchaseDate f)) (or_null (f_warrantyDate f))
               (Some (match uploaded_path file with Some p => p | None => [] end)) (f_notes f) None false).
  assert (Hr : In r (rows (fst (add_product f file d)))).
  { rewrite add_product_rows by done. apply in_app_iff. right. by left. }
  exists r. split_and!; [done | reflexivity..|].
  unfold lookup. rewrite (lookup_code_ascii input _ Ha Hu).
  rewrite (fetch_product_live _ r (gen_code (auto_increment d))) by (try apply add_product_wf; done).
  destruct (gen_code _) eqn:E; [by apply gen_code_nonempty in E|done].
Qed.

End Laws.

Definition details_param (url : jsstr) : option jsstr := Some (drop 19 url).

Lemma details_param_law c :
  c <> [] -> Forall (fun u => is_upper u || is_digit u = true) c -> details_param (details_url c) = Some c.
Proof. intros _ _. reflexivity. Qed.

Lemma find_opens_details_witness :
  details_page details_param (details_url (gen_code 1))
    (fun k => Some (fetch_product Some (fst (add_product sample_form None empty_db)) k)) =
  DetailsShown (details_card_of (Product 1 (Some (gen_code 1)) (f_name sample_form) (f_category sample_form)
    (or_null (f_purchaseDate sample_form)) (or_null (f_warrantyDate sample_form)) (Some []) (f_notes sample_form) None false)).
Proof.
  apply (find_opens_details to_upper_ascii (fun _ _ => eq_refl) Some (fun _ _ _ => eq_refl)
           details_param details_param_law _ _ (js " item0001 ")).
  - apply add_product_wf, empty_db_wf.
  - left. reflexivity.
  - reflexivity.
  - reflexivity.
  - repeat constructor; lia.
  - reflexivity.
Defined.

Lemma script_add_then_lookup_witness :
  submit_product (Some (snd (add_product sample_form None empty_db))) =
    (ScriptAdded (gen_code 1), true).
Proof.
  apply (script_add_then_lookup to_upper_ascii (fun _ _ => eq_refl) Some (fun _ _ _ => eq_refl)
           (fun s => s) sample_form None empty_db (js "item0001")).
  - apply empty_db_wf.
  - repeat constructor; lia.
  - reflexivity.
Defined.

End Lookup.
