(* ===== verification/EditPage.v ===== *)
(** The edit page, src/public/js/edit.js, and its [PUT] to the server.

    [loadProductData] fetches the row of the [code] parameter and writes
    the form as an HTML template; what the browser then submits is the
    text each field parses to: [edit_form] reads the template the way
    the HTML parser and the form controls do (an attribute value ends
    at the first quote, a date input keeps only a valid date string, a
    textarea drops a leading newline and sends its line breaks as CR LF,
    a select with no selected option sends its first option).
    Character references ([&amp;] and the like) are not decoded by the
    model; the theorems are about texts without [&].  Submitting sends
    [PUT /api/product/:id], run by [update_product] of [ProductApi]. *)

From S2P Require Import Prelude JsString Recognition ProductApi Lookup.
Import Recognition ProductApi Lookup.

Module EditPage.

(** ** Reading the template back *)

(** The Gregorian calendar of HTML dates. *)
Definition leap_year (y : Z) : bool := ((y mod 4 =? 0) && negb (y mod 100 =? 0)) || (y mod 400 =? 0).

Definition days_in_month (y m : Z) : Z :=
  if m =? 2 then (if leap_year y then 29 else 28)
  else if (m =? 4) || (m =? 6) || (m =? 9) || (m =? 11) then 30 else 31.

(** An [<input type="date">] keeps a valid date string (four or more
    digits of a year above 0, [-], a month 01-12, [-], a day of that
    month) and sanitizes anything else to the empty string. *)
Definition is_date_string (s : jsstr) : bool :=
  let y := take (length s - 6) s in
  match drop (length s - 6) s with
  | [m0; m1; m2; d0; d1; d2] =>
      (4 <=? length y)%nat && forallb is_digit (y ++ [m1; m2; d1; d2]) && (m0 =? 45) && (d0 =? 45) &&
      (0 <? digits_value y) && (1 <=? digits_value [m1; m2]) && (digits_value [m1; m2] <=? 12) &&
      (1 <=? digits_value [d1; d2]) && (digits_value [d1; d2] <=? days_in_month (digits_value y) (digits_value [m1; m2]))
  | _ => false
  end.

Definition date_value (s : jsstr) : jsstr := if is_date_string s then s else [].

(** [<textarea>${s}</textarea>]: the parser normalizes the text's line
    breaks to LF and drops a line break right after the start tag; the
    form sends the line breaks as CR LF. *)
Definition textarea_value (s : jsstr) : jsstr :=
  crlf (match lf_normalize s with c :: t => if c =? 10 then t else c :: t | [] => [] end).

(** The options of [#category], in order. *)
Definition categories : list jsstr :=
  [js "Electronics"; js "Furniture"; js "Appliances"; js "Tools"; js "Other"].

(** [option.selected = true] for [cat === productData.category]; with
    no selected option the select's value is its first option. *)
Definition select_value (cat : option jsstr) : jsstr :=
  match List.find (fun c => bool_decide (Some c = cat)) categories with
  | Some c => c
  | None => js "Electronics"
  end.

(** ** The page *)

Inductive edit_view :=
  | EditNoCode                         (* 'No product code specified.' *)
  | EditForm (item : product)          (* the form, [productData = item] *)
  | EditError (msg : option jsstr).    (* err.message; [None]: the fetch rejected *)

(** [loadProductData], with [code] read from the page's URL. *)
Definition loadProductData (code : option jsstr) (answer : jsstr -> option response) : edit_view :=
  match code with
  | None | Some [] => EditNoCode
  | Some c =>
      match answer c with
      | Some (JsonProduct item) => EditForm item
      | Some _ => EditError (Some (js "Could not fetch product data."))
      | None => EditError None
      end
  end.

(** The fields [new FormData(this)] holds when nothing was changed: the
    template of [loadProductData] read back.  The empty file input sends
    no file. *)
Definition edit_form (item : product) : product_form :=
  Form (Some (strip_newlines (attr_value (tmpl (name item)))))
       (Some (select_value (category item)))
       (Some (date_value (tmpl (purchase_date item))))
       (Some (date_value (tmpl (warranty_date item))))
       (Some (textarea_value (or_text (notes item) [])))
       (Some (attr_value (or_text (invoice_path item) []))).

Inductive edit_msg :=
  | Updating                           (* 'Updating...' *)
  | Updated                            (* 'Product updated successfully!' *)
  | UpdateFailed                       (* 'Update failed.' *)
  | EditConnectError.                  (* 'Error connecting to server.' *)

(** The [submit] listener on the form [f] the user submits for [item]:
    an empty [required] name blocks the submission; otherwise the [PUT]
    goes to the server, and on [success] the page plays the success
    sound and goes to the details page 1.5 s later. *)
Definition edit_submit (item : product) (f : product_form) (d : db)
    : db * (list edit_msg * list effect) :=
  match f_name f with
  | Some [] => (d, ([], []))
  | _ =>
      let '(d', resp) := update_product (id item) f None d in
      match resp with
      | JsonSuccess =>
          (d', ([Updating; Updated],
                [PlaySound successSound; Navigate 1500 (details_url (tmpl (product_code item)))]))
      | _ => (d', ([Updating; UpdateFailed], []))
      end
  end.

(** ** Properties *)

(** Text the template carries through unchanged: no quote, [&], [<] or
    line break. *)
Definition plain (s : jsstr) : Prop :=
  Forall (fun c => c <> 34 /\ c <> 38 /\ c <> 60 /\ c <> 10 /\ c <> 13) s.

Definition plainb (s : jsstr) : bool :=
  forallb (fun c => negb (c =? 34) && negb (c =? 38) && negb (c =? 60) && negb (c =? 10) && negb (c =? 13)) s.

Lemma plainb_spec s : plainb s = true -> plain s.
Proof.
  unfold plainb, plain. rewrite forallb_forall, List.Forall_forall. intros H c Hc.
  specialize (H c Hc). bool_to_prop. lia.
Qed.

Definition date_ok (v : option jsstr) : Prop :=
  v = None \/ exists s, v = Some s /\ is_date_string s = true.

(** A row the edit form can represent. *)
Record editable (r : product) : Prop := {
  ed_name : exists n, name r = Some n /\ n <> [] /\ plain n;
  ed_category : exists c, category r = Some c /\ In c categories;
  ed_purchase : date_ok (purchase_date r);
  ed_warranty : date_ok (warranty_date r);
  ed_notes : exists t, notes r = Some t /\ plain t;
  ed_invoice : exists p, invoice_path r = Some p /\ plain p }.

Lemma attr_value_plain s : plain s -> attr_value s = s.
Proof.
  intros Hs. apply take_while_all. eapply Forall_impl; [exact Hs|].
  intros c (Hq & _). apply negb_true_iff, Z.eqb_neq. done.
Qed.

Lemma plain_no_newline s : plain s -> Forall (fun c => c <> 10 /\ c <> 13) s.
Proof. intros Hs. eapply Forall_impl; [exact Hs|]. intros c (_ & _ & _ & H1 & H2). by split. Qed.

Lemma textarea_value_plain s : plain s -> textarea_value s = s.
Proof.
  intros Hs. pose proof (plain_no_newline s Hs) as Hn. unfold textarea_value.
  rewrite lf_normalize_id by (eapply Forall_impl; [exact Hn | intros c []; done]).
  destruct s as [|c t]; [done|]. inversion Hn as [|? ? [Hlf _] Ht]; subst.
  rewrite (proj2 (Z.eqb_neq c 10)) by done. by apply crlf_id.
Qed.

Lemma date_value_ok v : date_ok v -> or_null (Some (date_value (tmpl v))) = v.
Proof.
  intros [-> | (s & -> & Hs)]; [reflexivity|]. unfold date_value. simpl. rewrite Hs.
  destruct s; [discriminate Hs | done].
Qed.

Lemma select_value_in c : In c categories -> select_value (Some c) = c.
Proof. intros Hc. repeat destruct Hc as [<- | Hc]; [done..|destruct Hc]. Qed.

Lemma select_value_out c : ~ In c categories -> select_value (Some c) = js "Electronics".
Proof.
  intros Hc. unfold select_value. destruct (List.find _ _) as [c'|] eqn:E; [|done].
  apply find_some in E as [Hin Heq]. apply bool_decide_eq_true in Heq. injection Heq as ->. done.
Qed.

Lemma set_fields_edit_form r :
  editable r ->
  set_fields (f_name (edit_form r)) (f_category (edit_form r)) (or_null (f_purchaseDate (edit_form r)))
    (or_null (f_warrantyDate (edit_form r))) (f_notes (edit_form r)) (f_existingInvoice (edit_form r)) r = r.
Proof.
  intros [(n & Hn & Hne & Hnp) (c & Hc & Hcin) Hp Hw (t & Ht & Htp) (p & Hi & Hpp)].
  destruct r as [i code nm cat pd wd inv nt st del];
    cbn [name category notes invoice_path purchase_date warranty_date] in *; subst.
  unfold edit_form, set_fields; cbn [f_name f_category f_purchaseDate f_warrantyDate f_notes f_existingInvoice
    name category purchase_date warranty_date notes invoice_path id product_code status is_deleted].
  rewrite attr_value_plain, strip_newlines_id, select_value_in, !date_value_ok
    by (done || by apply plain_no_newline).
  destruct t as [|u t], p as [|u' p]; cbn [or_text];
    rewrite ?attr_value_plain, ?textarea_value_plain by done; done.
Qed.

Section Laws.
Variable route_param : jsstr -> option jsstr.
Hypothesis route_param_code :
  forall c, c <> [] -> Forall (fun u => is_upper u || is_digit u = true) c -> route_param c = Some c.

(** C14. Loading the edit page of a live product and submitting the form
    unchanged keeps the table as it was, for every row the form can
    represent (a name without quotes, a category of the select, dates
    as the API formats them, plain notes and invoice path); the page
    then goes back to the product's details. *)
Theorem edit_unchanged_keeps_row (d : db) (r : product) (c : jsstr) :
  wf_db d -> In r (rows d) -> is_deleted r = false -> product_code r = Some c -> editable r ->
  loadProductData (Some c) (fun k => Some (fetch_product route_param d k)) = EditForm r /\
  edit_submit r (edit_form r) d = (d, ([Updating; Updated], [PlaySound successSound; Navigate 1500 (details_url c)])).
Proof.
  intros Hwf Hr Hdel Hc He. pose proof Hwf as [Hs _ _].
  destruct (Lookup.row_code_shape d r c) as [Hne _]; [done..|]. split.
  - unfold loadProductData. rewrite (fetch_product_live route_param route_param_code d r c) by done.
    by destruct c.
  - pose proof (ed_name r He) as (n & Hn & Hnn & Hnp).
    unfold edit_submit. cbn [edit_form f_name]. rewrite Hn.
    replace (strip_newlines (attr_value (tmpl (Some n)))) with n
      by (symmetry; rewrite attr_value_plain by done; by apply strip_newlines_id, plain_no_newline).
    destruct n as [|u n]; [done|]. unfold update_product. cbn -[set_fields edit_form].
    rewrite Hc. f_equal. destruct d as [l ai]. unfold update_where. cbn [rows auto_increment] in *. f_equal.
    apply map_id_on. intros x Hx. unfold with_id. destruct (Nat.eqb_spec (id x) (id r)) as [Hid|]; [|done].
    assert (x = r) as -> by (apply (StronglySorted_irrefl_unique id_lt l); unfold id_lt; auto; intros; lia).
    by apply set_fields_edit_form.
Qed.

End Laws.

(** C28. The edit form resets a category that is not one of its five
    options: the select then has no selected option and sends
    "Electronics", so submitting the form of such a product unchanged
    (for instance a "Groceries" product filled in by the barcode lookup
    of add.js) rewrites its category to "Electronics". *)
Theorem edit_resets_category (d : db) (r : product) (c : jsstr) :
  In r (rows d) -> category r = Some c -> ~ In c categories ->
  strip_newlines (attr_value (tmpl (name r))) <> [] ->
  exists r', In r' (rows (fst (edit_submit r (edit_form r) d))) /\
    id r' = id r /\ product_code r' = product_code r /\ category r' = Some (js "Electronics").
Proof.
  intros Hr Hc Hout Hn. unfold edit_submit. cbn [edit_form f_name].
  destruct (strip_newlines (attr_value (tmpl (name r)))) as [|u n] eqn:E; [done|].
  cbn -[set_fields edit_form]. unfold update_where. cbn [rows].
  eexists. split; [apply in_map_iff; exists r; split; [|exact Hr]|].
  - unfold with_id. rewrite Nat.eqb_refl. reflexivity.
  - cbn. rewrite Hc, select_value_out by done. done.
Qed.

(** The name goes into [value="${productData.name}"] unescaped: a name
    with a double quote is cut at the quote, and saving the form
    unchanged stores the cut name. *)
Example edit_truncates_quoted_name :
  f_name (edit_form (Product 1 (Some (gen_code 1)) (Some (js "12" ++ [34] ++ js " TV")) (Some (js "Electronics"))
                       None None (Some []) (Some []) None false)) = Some (js "12").
Proof. reflexivity. Qed.

Definition groceries_form : product_form :=
  Form (Some (js "Milk")) (Some (js "Groceries")) None None (Some []) None.

Definition groceries_row : product :=
  Product 1 (Some (gen_code 1)) (Some (js "Milk")) (Some (js "Groceries")) None None (Some []) (Some []) None false.

Lemma edit_resets_category_witness :
  exists r', In r' (rows (fst (edit_submit groceries_row (edit_form groceries_row)
                                  (fst (add_product groceries_form None empty_db))))) /\
    id r' = 1%nat /\ product_code r' = Some (gen_code 1) /\ category r' = Some (js "Electronics").
Proof.
  apply (edit_resets_category _ groceries_row (js "Groceries")).
  - left. reflexivity.
  - reflexivity.
  - unfold categories. intros H. repeat destruct H as [H | H]; try discriminate H. exact H.
  - discriminate.
Defined.

Lemma edit_unchanged_keeps_row_witness :
  edit_submit (hd no_row (rows one_row)) (edit_form (hd no_row (rows one_row))) one_row =
  (one_row, ([Updating; Updated], [PlaySound successSound; Navigate 1500 (details_url (gen_code 1))])).
Proof.
  apply (edit_unchanged_keeps_row Some (fun _ _ _ => eq_refl) one_row _ (gen_code 1)).
  - apply wf_dbb_spec. vm_compute. reflexivity.
  - left. reflexivity.
  - reflexivity.
  - reflexivity.
  - split.
    + exists (js "Kettle"). split_and!; [reflexivity | discriminate | apply plainb_spec; reflexivity].
    + exists (js "Appliances"). split; [reflexivity | right; right; left; reflexivity].
    + left. reflexivity.
    + left. reflexivity.
    + exists []. split; [reflexivity | constructor].
    + exists []. split; [reflexivity | constructor].
Defined.

End EditPage.
