(* ===== verification/ListPages.v ===== *)
(** The list pages: the dashboard (src/public/js/dashboard.js), the
    warranty watch (src/public/js/warranty.js) and the trash
    (src/public/js/trash.js), with the endpoints of [ProductApi] they
    read.

    The dashboard and the warranty page render one answer each, so
    they are functions of the answer.  The trash page keeps its table
    while its [PUT]/[DELETE] requests are in flight, so it is an event
    handler on a record holding the table, the requests in flight and
    the server table; a request is run by the server when its answer
    arrives, in any order. *)

From stdpp Require Import sorting.
From S2P Require Import Prelude JsString Recognition ProductApi Lookup.
Import Recognition ProductApi Lookup.

Module ListPages.

(** ** dashboard.js *)

(** The three counters, in the order of the page ([stats-total-items],
    [stats-expiring-soon], [stats-trash-items]); ['-'] when the request
    fails. *)
Definition dashboard_view (resp : option response) : jsstr * jsstr * jsstr :=
  match resp with
  | Some (JsonStats total trash expiring) =>
      (decimal (Z.of_nat total), decimal (Z.of_nat expiring), decimal (Z.of_nat trash))
  | _ => (js "-", js "-", js "-")
  end.

(** ** warranty.js *)

(** One table row: its [data-code] attribute and its four cells. *)
Record warranty_line := WarrantyLine {
  wl_data_code : jsstr; wl_code : jsstr; wl_name : jsstr; wl_status : jsstr; wl_expires : jsstr }.

Definition warranty_line_of (w : warranty_row) : warranty_line :=
  let '(_, code, nm, _, st, wd) := w in
  WarrantyLine (attr_value (tmpl code)) (tmpl code) (tmpl nm) (tmpl st) (tmpl wd).

Inductive warranty_view :=
  | NoExpiring                               (* 'No products have warranties expiring ...' *)
  | WarrantyTable (lines : list warranty_line)
  | WarrantyError (msg : option jsstr).      (* error.message; [None]: the fetch rejected *)

Definition warranty_page (resp : option response) : warranty_view :=
  match resp with
  | Some (JsonWarranty []) => NoExpiring
  | Some (JsonWarranty l) => WarrantyTable (map warranty_line_of l)
  | Some _ => WarrantyError (Some (js "Failed to fetch data from server."))
  | None => WarrantyError None
  end.

(** A click on the [k]-th row: [/details.html?code=${row.dataset.code}]. *)
Definition warranty_click (v : warranty_view) (k : nat) : option jsstr :=
  match v with
  | WarrantyTable l => (fun w => details_url (wl_data_code w)) <$> l !! k
  | _ => None
  end.

(** ** trash.js *)

Inductive trash_view :=
  | TrashLoading                                 (* before the list arrives *)
  | TrashEmpty                                   (* 'The trash is empty.' *)
  | TrashTable (rows : list (nat * summary_row)) (* [tr] elements, by element id *)
  | TrashError (msg : option jsstr).             (* err.message *)

Inductive trash_req :=
  | ReqTrash                                     (* GET /api/trash *)
  | ReqRestore (i : nat) (e : nat)               (* PUT /api/product/:id/restore, its row *)
  | ReqDeleteForever (i : nat) (e : nat).        (* DELETE /api/product/:id, its row *)

Record trash_sys := TrashSys {
  t_view : trash_view;
  t_in_flight : list trash_req;
  t_server : db }.

Definition trash_init (d : db) : trash_sys := TrashSys TrashLoading [] d.

Inductive trash_event :=
  | TrashLoaded                                  (* DOMContentLoaded: fetchTrashedItems() *)
  | ClickRestore (e : nat) (confirmed : bool)
  | ClickDeleteForever (e : nat) (confirmed : bool)
  | TrashAnswer (k : nat) (network_ok : bool).   (* the [k]-th request in flight returns *)

Definition trash_row (v : trash_view) (e : nat) : option summary_row :=
  match v with TrashTable rows => find_elem e rows | _ => None end.

Definition trash_remove (e : nat) (v : trash_view) : trash_view :=
  match v with TrashTable rows => TrashTable (remove_elem e rows) | v => v end.

(** [fetchTrashedItems] once its answer is there. *)
Definition trash_answered (resp : option response) : trash_view :=
  match resp with
  | Some (JsonSummaries []) => TrashEmpty
  | Some (JsonSummaries products) => TrashTable (number_rows 0 products)
  | Some _ => TrashError (Some (js "Failed to load trash items."))
  | None => TrashError None
  end.

(** The click listener of the container, after [confirm]; the row goes
    once the request has answered (a rejected [fetch] leaves it).  A
    rejected [fetch] is a request the server never received: the model
    does not cover a connection lost after the server applied the
    request, where the page keeps a row the server no longer has in
    the trash until the next load. *)
Definition trash_handle (s : trash_sys) (ev : trash_event) : trash_sys :=
  match ev with
  | TrashLoaded => TrashSys s.(t_view) (s.(t_in_flight) ++ [ReqTrash]) s.(t_server)
  | ClickRestore e confirmed =>
      match trash_row s.(t_view) e with
      | Some (i, _, _, _) =>
          if confirmed then TrashSys s.(t_view) (s.(t_in_flight) ++ [ReqRestore i e]) s.(t_server) else s
      | None => s
      end
  | ClickDeleteForever e confirmed =>
      match trash_row s.(t_view) e with
      | Some (i, _, _, _) =>
          if confirmed then TrashSys s.(t_view) (s.(t_in_flight) ++ [ReqDeleteForever i e]) s.(t_server) else s
      | None => s
      end
  | TrashAnswer k ok =>
      match s.(t_in_flight) !! k with
      | None => s
      | Some q =>
          let rest := delete k s.(t_in_flight) in
          match q with
          | ReqTrash =>
              TrashSys (trash_answered (if ok then Some (snd (get_trash s.(t_server))) else None))
                       rest s.(t_server)
          | ReqRestore i e =>
              if ok then TrashSys (trash_remove e s.(t_view)) rest (fst (restore i s.(t_server)))
              else TrashSys s.(t_view) rest s.(t_server)
          | ReqDeleteForever i e =>
              if ok then TrashSys (trash_remove e s.(t_view)) rest (fst (delete_product i s.(t_server)))
              else TrashSys s.(t_view) rest s.(t_server)
          end
      end
  end.

(** ** Dashboard and warranty list *)

Lemma filter_filter_andb {A} (p q : A -> bool) l :
  List.filter q (List.filter p l) = List.filter (fun x => p x && q x) l.
Proof.
  induction l as [|x l IH]; [done|]. cbn [List.filter].
  destruct (p x); cbn [List.filter andb]; [destruct (q x)|]; by rewrite IH.
Qed.

#[export] Instance date_le_total : Total date_le.
Proof. intros a b. apply str_leb_total. Qed.

#[export] Instance date_le_trans : Transitive date_le.
Proof. intros a b c. apply str_leb_trans. Qed.

Lemma warranty_list_spec (expiring : product -> bool) (d : db) :
  warranty_list expiring d ≡ₚ
    map warranty_of (List.filter (fun r => negb (is_deleted r) && expiring r) (rows d)) /\
  StronglySorted date_le (warranty_list expiring d).
Proof.
  unfold warranty_list, expiring_soon; cbn [snd].
  split; [apply merge_sort_Permutation | apply StronglySorted_merge_sort]; typeclasses eauto.
Qed.

(** C20. The three counters of the dashboard agree with the list pages:
    the total is the number of rows of the all-products list, the
    expiring count the number of rows of the warranty watch, and the
    trash count the number of rows of the trash page, on the same
    table. *)
Theorem dashboard_counts_agree (expiring : product -> bool) (d : db) :
  dashboard_view (Some (snd (dashboard_stats expiring d))) =
  (decimal (Z.of_nat (length (listed d))), decimal (Z.of_nat (length (warranty_list expiring d))),
   decimal (Z.of_nat (length (trash_list d)))).
Proof.
  rewrite (Permutation_length (proj1 (warranty_list_spec expiring d))).
  unfold listed, trash_list, dashboard_stats, get_products, get_trash; cbn [snd dashboard_view].
  by rewrite !length_map, !length_rev, filter_filter_andb.
Qed.

Lemma attr_value_code c : Forall (fun u => is_upper u || is_digit u = true) c -> attr_value c = c.
Proof.
  intros Hc. apply take_while_all. eapply Forall_impl; [exact Hc|]. intros u Hu.
  apply negb_true_iff, Z.eqb_neq. intros ->. discriminate Hu.
Qed.

Lemma warranty_click_in (expiring : product -> bool) (d : db) (k : nat) (url : jsstr) :
  warranty_click (warranty_page (Some (snd (expiring_soon expiring d)))) k = Some url ->
  exists w, In w (warranty_list expiring d) /\ url = details_url (wl_data_code (warranty_line_of w)).
Proof.
  unfold warranty_list. destruct (snd (expiring_soon expiring d)) as [| | | |l| | | |];
    cbn [warranty_page]; try discriminate.
  destruct l as [|w0 l]; [discriminate|]. cbn [warranty_click].
  destruct (map warranty_line_of (w0 :: l) !! k) as [line|] eqn:El; cbn; [|discriminate].
  intros [= <-]. apply list_elem_of_lookup_2, list_elem_of_In, in_map_iff in El as (w & <- & Hw).
  by exists w.
Qed.

Section Laws.
Variable route_param : jsstr -> option jsstr.
Hypothesis route_param_code :
  forall c, c <> [] -> Forall (fun u => is_upper u || is_digit u = true) c -> route_param c = Some c.
Variable code_param : jsstr -> option jsstr.
Hypothesis code_param_details :
  forall c, c <> [] -> Forall (fun u => is_upper u || is_digit u = true) c -> code_param (details_url c) = Some c.

(** C21. The warranty watch lists its rows by warranty date, and a click
    on any of its rows opens the details page of a live product whose
    warranty is expiring, in a well-formed table where every row has
    its code. *)
Theorem warranty_rows_open_details (expiring : product -> bool) (d : db) (k : nat) (url : jsstr) :
  wf_db d -> Forall (fun r => product_code r <> None) (rows d) ->
  warranty_click (warranty_page (Some (snd (expiring_soon expiring d)))) k = Some url ->
  StronglySorted date_le (warranty_list expiring d) /\
  exists r, In r (rows d) /\ is_deleted r = false /\ expiring r = true /\
    details_page code_param url (fun c => Some (fetch_product route_param d c)) = DetailsShown (details_card_of r).
Proof.
  intros Hwf Hcodes Hclick. destruct (warranty_list_spec expiring d) as [Hperm Hsorted].
  split; [done|]. apply warranty_click_in in Hclick as (w & Hw & ->).
  apply (Permutation_in _ Hperm), in_map_iff in Hw as (r & <- & Hr).
  apply filter_In in Hr as [Hr Hlive]. apply andb_true_iff in Hlive as [Hdel Hexp].
  apply negb_true_iff in Hdel.
  destruct (product_code r) as [c|] eqn:Hc; [|exfalso; by apply (proj1 (List.Forall_forall _ _) Hcodes r Hr)].
  destruct (row_code_shape d r c) as [Hne Hup]; [done..|].
  exists r. split_and!; [done..|].
  unfold warranty_line_of, warranty_of; cbn [wl_data_code]. rewrite Hc; cbn [tmpl].
  rewrite attr_value_code by done. unfold details_page. rewrite code_param_details by done.
  rewrite (fetch_product_live route_param route_param_code d r c) by done. by destruct c.
Qed.

End Laws.

(** ** The trash table and the server *)

(** A request of a row in flight: while the row is shown it carries the
    request's id; once it is gone, that id is out of the trash. *)
Definition row_req_ok (rows : list (nat * summary_row)) (d : db) (q : trash_req) : Prop :=
  match q with
  | ReqTrash => False
  | ReqRestore i e | ReqDeleteForever i e =>
      match find_elem e rows with
      | Some p => summary_id p = i
      | None => ~ In i (map summary_id (trash_list d))
      end
  end.

Definition trash_inv (s : trash_sys) : Prop :=
  wf_db s.(t_server) /\
  match s.(t_view) with
  | TrashLoading => s.(t_in_flight) = [] \/ s.(t_in_flight) = [ReqTrash]
  | TrashTable rows =>
      map snd rows = trash_list s.(t_server) /\ NoDup (map fst rows) /\
      Forall (row_req_ok rows s.(t_server)) s.(t_in_flight)
  | TrashEmpty => trash_list s.(t_server) = [] /\ s.(t_in_flight) = []
  | TrashError _ => s.(t_in_flight) = []
  end.

(** [DOMContentLoaded] fires once, on the page as served. *)
Definition trash_ok (s : trash_sys) (ev : trash_event) : Prop :=
  ev = TrashLoaded -> s.(t_view) = TrashLoading /\ s.(t_in_flight) = [].

Lemma trash_ids_filter i j l :
  In j (map summary_id (List.filter (fun s => negb (Nat.eqb (summary_id s) i)) l)) ->
  In j (map summary_id l) /\ j <> i.
Proof.
  rewrite !in_map_iff. intros (x & <- & Hx). apply filter_In in Hx as [Hx Hi].
  split; [by exists x|]. intros Heq. by rewrite Heq, Nat.eqb_refl in Hi.
Qed.

Lemma row_req_step rows d d' i e i' e' :
  trash_list d' = List.filter (fun s => negb (Nat.eqb (summary_id s) i)) (trash_list d) ->
  match find_elem e rows with Some p => summary_id p = i | None => ~ In i (map summary_id (trash_list d)) end ->
  match find_elem e' rows with Some p => summary_id p = i' | None => ~ In i' (map summary_id (trash_list d)) end ->
  match find_elem e' (remove_elem e rows) with
  | Some p => summary_id p = i' | None => ~ In i' (map summary_id (trash_list d')) end.
Proof.
  intros Hd' Hq Hq'. destruct (decide (e' = e)) as [->|Hne].
  - rewrite find_elem_remove_eq, Hd'. intros Hin. apply trash_ids_filter in Hin as [Hin Hi].
    destruct (find_elem e rows); [congruence | done].
  - rewrite find_elem_remove_ne by done. destruct (find_elem e' rows); [done|].
    rewrite Hd'. intros Hin. apply trash_ids_filter in Hin as [Hin _]. done.
Qed.

(** One answered row request: the row leaves the table as its id
    leaves the trash. *)
Lemma trash_table_step rows d d' i e :
  map snd rows = trash_list d -> NoDup (map fst rows) -> NoDup (map summary_id (trash_list d)) ->
  trash_list d' = List.filter (fun s => negb (Nat.eqb (summary_id s) i)) (trash_list d) ->
  row_req_ok rows d (ReqRestore i e) ->
  map snd (remove_elem e rows) = trash_list d' /\ NoDup (map fst (remove_elem e rows)) /\
  (forall q, row_req_ok rows d q -> row_req_ok (remove_elem e rows) d' q).
Proof.
  intros Hrows Hfst Hids Hd' Hq. cbn [row_req_ok] in Hq. split_and!.
  - rewrite Hd', <- Hrows. destruct (find_elem e rows) as [p|] eqn:Hf.
    + rewrite (remove_elem_key summary_id e rows p); [by rewrite Hq|done| |done].
      by rewrite <- map_map, Hrows.
    + rewrite remove_elem_absent by done. symmetry. apply filter_id_on. intros x Hx.
      apply negb_true_iff, Nat.eqb_neq. intros <-. apply Hq. rewrite <- Hrows. by apply in_map.
  - apply NoDup_map_filter, Hfst.
  - intros [|i' e'|i' e']; cbn [row_req_ok]; [done| |]; intros; by apply (row_req_step rows d d' i e).
Qed.

Lemma trash_handle_inv s ev : trash_inv s -> trash_ok s ev -> trash_inv (trash_handle s ev).
Proof.
  destruct s as [v q d]. intros [Hwf Hv] Hok. unfold trash_ok in Hok.
  cbn [t_view t_in_flight t_server] in Hwf, Hv, Hok.
  destruct ev as [|e c|e c|k ok]; cbn [trash_handle t_view t_in_flight t_server].
  - destruct (Hok eq_refl) as [-> ->]. split; [done|]. by right.
  - destruct v as [| |rows|]; cbn [trash_row]; try done.
    destruct (find_elem e rows) as [[[[i c1] c2] c3]|] eqn:Hf; [|done]. destruct c; [|done].
    split; [done|]. destruct Hv as (Hr & Hn & Hq). split_and!; [done..|].
    apply Forall_app. split; [done|]. repeat constructor. cbn [row_req_ok]. by rewrite Hf.
  - destruct v as [| |rows|]; cbn [trash_row]; try done.
    destruct (find_elem e rows) as [[[[i c1] c2] c3]|] eqn:Hf; [|done]. destruct c; [|done].
    split; [done|]. destruct Hv as (Hr & Hn & Hq). split_and!; [done..|].
    apply Forall_app. split; [done|]. repeat constructor. cbn [row_req_ok]. by rewrite Hf.
  - destruct (q !! k) as [r|] eqn:Hk; [|done]. destruct v as [| |rows|].
    + destruct Hv as [-> | ->]; [done|]. destruct k as [|k]; [|done]. injection Hk as <-.
      split; [done|]. destruct ok; cbn [trash_answered delete list_delete]; [|done].
      change (snd (get_trash d)) with (JsonSummaries (trash_list d)).
      destruct (trash_list d) as [|x l] eqn:E; cbn [trash_answered t_view t_in_flight t_server]; rewrite ?E; [done|].
      split_and!; [apply number_rows_snd | rewrite number_rows_fst; apply NoDup_seq | constructor].
    + by destruct Hv as [_ ->].
    + destruct Hv as (Hr & Hn & Hq). apply list_elem_of_lookup_2 in Hk as Hin.
      pose proof (proj1 (Forall_forall _ _) Hq r Hin) as Hr0.
      destruct r as [|i e|i e]; [done| |]; (destruct ok; cbn [t_view t_in_flight t_server];
        [|split; [done|]; split_and!; [done..|]; by apply Forall_delete]).
      * edestruct (trash_table_step rows d (fst (restore i d)) i e) as (H1 & H2 & H3);
          [done | done | by apply trash_list_nodup | apply trash_list_restore | done |].
        split; [by apply restore_wf|]. cbn [trash_remove]. split_and!; [done..|].
        eapply Forall_impl; [by apply Forall_delete|]. done.
      * edestruct (trash_table_step rows d (fst (delete_product i d)) i e) as (H1 & H2 & H3);
          [done | done | by apply trash_list_nodup | apply trash_list_delete | done |].
        split; [by apply delete_product_wf|]. cbn [trash_remove]. split_and!; [done..|].
        eapply Forall_impl; [by apply Forall_delete|]. done.
    + by rewrite Hv in Hk.
Qed.

(** C7. The trash page stays consistent with the server: in every run of
    the page against a well-formed table, whatever the order in which
    its restore and delete-forever requests answer, a table it shows
    lists exactly the rows of [/api/trash] at that moment, in the same
    order, and "The trash is empty." is shown only when the trash is
    empty. *)
Theorem trash_view_consistent (d : db) (evs : list trash_event) :
  wf_db d -> respects trash_handle trash_ok (trash_init d) evs ->
  let s := run_events trash_handle (trash_init d) evs in
  (forall rows, s.(t_view) = TrashTable rows -> map snd rows = trash_list s.(t_server)) /\
  (s.(t_view) = TrashEmpty -> trash_list s.(t_server) = []).
Proof.
  intros Hwf Hr s.
  assert (Hinv : trash_inv s).
  { apply (run_events_invariant trash_handle trash_inv trash_ok); [apply trash_handle_inv | | done].
    split; [done|]. by left. }
  destruct Hinv as [_ Hv]. split; [intros rows Hrows | intros He]; rewrite ?Hrows, ?He in Hv; by destruct Hv.
Qed.

(** ** Witnesses *)

Definition trashed_one : db := fst (soft_delete 1 one_row).

Definition restore_pending : list trash_event := [TrashLoaded; TrashAnswer 0 true; ClickRestore 0 true].

Lemma trash_view_consistent_witness :
  map snd [(0%nat, (1%nat, Some (gen_code 1), Some (js "Kettle"), Some (js "Appliances")))] =
  trash_list (run_events trash_handle (trash_init trashed_one) restore_pending).(t_server).
Proof.
  apply (proj1 (trash_view_consistent trashed_one restore_pending
                  ltac:(apply wf_dbb_spec; vm_compute; reflexivity)
                  ltac:(vm_compute; split_and!; try discriminate; auto))).
  vm_compute. reflexivity.
Defined.

Lemma warranty_rows_open_details_witness :
  StronglySorted date_le (warranty_list (fun _ => true) one_row).
Proof.
  apply (warranty_rows_open_details Some (fun _ _ _ => eq_refl) details_param details_param_law
           (fun _ => true) one_row 0 (details_url (gen_code 1))).
  - apply wf_dbb_spec. vm_compute. reflexivity.
  - repeat constructor. discriminate.
  - vm_compute. reflexivity.
Defined.

End ListPages.
