(* ===== verification/AddPage.v ===== *)
(** The add page's form submission, src/public/js/add.js 145-181, and
    its composition with the barcode lookup of [BarcodeScanner], the
    server of [ProductApi] and the Find page of [Lookup].

    The submit listener posts [new FormData(form)] to
    [/api/add-product] and, on success, plays the success sound, shows
    the generated code with its QR code, resets the form and clears the
    barcode input and the lookup status.  The form's HTML is not in the
    repository: the fields [populateForm] does not fill (the two dates
    and the invoice file) are inputs of the submission, and [form = None]
    stands for the form's initial values after [reset()]. *)

From S2P Require Import Prelude JsString Recognition ProductApi BarcodeScanner Lookup.
Import Recognition ProductApi BarcodeScanner Lookup.

Module AddPage.

Inductive submit_view :=
  | Saving                                  (* 'Saving…' *)
  | AddedCode (code : jsstr) (qr : jsstr)   (* the code label and the QR code's text *)
  | AddFailed (msg : jsstr)                 (* 'Error: ${data.error}' *)
  | AddConnectError.                        (* 'Error: Could not connect to server.' *)

(** The fields of [new FormData(e.target)] the server reads.  [#name]
    is a text input, whose value sanitization removes line breaks;
    [#notes] is a textarea, whose line breaks the multipart body sends
    as CR LF ([crlf]; the textarea's own LF normalization makes no
    difference there). *)
Definition form_data (f : add_form) (purchaseDate warrantyDate : jsstr) : product_form :=
  Form (Some (strip_newlines (form_name f))) (Some (form_category f)) (Some purchaseDate) (Some warrantyDate)
       (Some (crlf (form_notes f))) None.

(** [e.target.reset(); barcodeInput.value = ''; statusDiv.innerHTML = '']. *)
Definition reset_after_add (s : bc_state) : bc_state :=
  BcState s.(modal_open) s.(modal_status) s.(scannerType) s.(activeStream) s.(live) s.(gum)
    s.(playing) s.(detectionInterval) s.(intervals) s.(detecting) s.(quagga_pending)
    s.(quagga_running) s.(quagga_handlers) [] None s.(off_requests) None s.(b_log) s.(b_fresh).

(** The listener once [res.json()] is there ([None]: the fetch
    rejected). *)
Definition submit_answered (resp : option response) (s : bc_state) : bc_state * submit_view :=
  match resp with
  | Some (JsonAdded code) => (reset_after_add (b_emit (BPlaySound successSound) s), AddedCode code code)
  | Some (Error400 msg) | Some (Error404 msg) => (s, AddFailed msg)
  | Some _ => (s, AddFailed (js "undefined"))
  | None => (s, AddConnectError)
  end.

(** The submission of the form [f] with the server answering. *)
Definition add_page_submit (f : add_form) (purchaseDate warrantyDate : jsstr) (file : option jsstr)
    (s : bc_state) (d : db) : bc_state * submit_view * db :=
  let '(d', resp) := add_product (form_data f purchaseDate warrantyDate) file d in
  let '(s', v) := submit_answered (Some resp) s in
  (s', v, d').

(** ** Properties *)

Lemma upper_digit_plain c :
  is_upper c || is_digit c = true -> 0 <= c < 128 /\ is_js_space c = false.
Proof.
  unfold is_upper, is_digit, is_js_space. intros H. rewrite !orb_true_iff, !andb_true_iff, !Z.leb_le in H.
  split; [lia|]. apply not_true_iff_false. intros H'.
  rewrite !orb_true_iff, !andb_true_iff, !Z.leb_le, !Z.eqb_eq in H'. lia.
Qed.

Lemma gen_code_plain n :
  Forall (fun c => 0 <= c < 128) (gen_code n) /\ Forall (fun c => is_js_space c = false) (gen_code n).
Proof.
  split; eapply Forall_impl; try apply gen_code_upper; intros c Hc; by apply upper_digit_plain.
Qed.

Section Laws.
Variable toUpperCase : jsstr -> jsstr.
Hypothesis toUpperCase_ascii :
  forall s, Forall (fun c => 0 <= c < 128) s -> toUpperCase s = to_upper_ascii s.
Variable route_param : jsstr -> option jsstr.
Hypothesis route_param_code :
  forall c, c <> [] -> Forall (fun u => is_upper u || is_digit u = true) c -> route_param c = Some c.

Lemma lookup_code_gen n : lookup_code toUpperCase (gen_code n) = gen_code n.
Proof.
  destruct (gen_code_plain n) as [Ha Hs]. apply (lookup_code_ascii toUpperCase toUpperCase_ascii); [done|].
  rewrite trim_id by done. apply to_upper_ascii_id, gen_code_upper.
Qed.

(** C15. A product found by its barcode on the add page and saved: the
    OpenFoodFacts answer fills the form; submitting it stores a row with
    that name (its line breaks removed by the text input), that category
    and those notes (their line breaks sent as CR LF) under the next
    generated code; the
    page shows that code and its QR text, clears the barcode input and
    the status and resets the form; and the Find page, given the code,
    opens the details page of the new row. *)
Theorem barcode_add_then_find (s : bc_state) (k : nat) (barcode : jsstr) (product : off_product)
    (purchaseDate warrantyDate : jsstr) (file : option jsstr) (d : db) :
  wf_db d -> s.(off_requests) !! k = Some barcode ->
  let s1 := off_answered k (OffResponse true 1 (Some product)) s in
  let f := populateForm product barcode in
  let code := gen_code (auto_increment d) in
  s1.(form) = Some f /\
  exists s2 d', add_page_submit f purchaseDate warrantyDate file s1 d = (s2, AddedCode code code, d') /\
    s2.(barcodeInput) = [] /\ s2.(lookup_status) = None /\ s2.(form) = None /\
    (exists r, In r (rows d') /\ product_code r = Some code /\
       name r = Some (strip_newlines (form_name f)) /\
       category r = Some (form_category f) /\ notes r = Some (crlf (form_notes f))) /\
    lookupProduct toUpperCase code (fun c => Some (fetch_product route_param d' c)) =
      ([Searching; FindRedirecting], [PlaySound successSound; Navigate 400 (details_url code)]).
Proof.
  intros Hwf Hk s1 f code. split.
  { unfold s1, off_answered. rewrite Hk. reflexivity. }
  set (F := form_data f purchaseDate warrantyDate).
  pose (r := Product (auto_increment d) (Some code) (f_name F) (f_category F)
               (or_null (f_purchaseDate F)) (or_null (f_warrantyDate F))
               (Some (match uploaded_path file with Some p => p | None => [] end)) (f_notes F) None false).
  assert (Hr : In r (rows (fst (add_product F file d)))).
  { rewrite add_product_rows by done. apply in_app_iff. right. by left. }
  exists (reset_after_add (b_emit (BPlaySound successSound) s1)), (fst (add_product F file d)).
  split_and!; [reflexivity.. | exists r; split_and!; [exact Hr | reflexivity ..] |].
  unfold lookupProduct, code. rewrite lookup_code_gen.
  rewrite (fetch_product_live route_param route_param_code _ r (gen_code (auto_increment d)))
    by (try apply add_product_wf; done).
  destruct (gen_code _) eqn:E; [by apply gen_code_nonempty in E|done].
Qed.

End Laws.

Definition milk : off_product :=
  OffProduct (Some (js "Milk")) None (Some (js "Farm")) (Some (js "1 l")) (Some [js "en:groceries"]).

Lemma barcode_add_then_find_witness :
  (off_answered 0 (OffResponse true 1 (Some milk))
     (fetchProductDetails (js "4000000000000") bc_init)).(form) =
  Some (populateForm milk (js "4000000000000")).
Proof.
  apply (barcode_add_then_find to_upper_ascii (fun _ _ => eq_refl) Some (fun _ _ _ => eq_refl)
           _ 0 (js "4000000000000") milk [] [] None empty_db).
  - apply empty_db_wf.
  - reflexivity.
Defined.

End AddPage.
